(** * ETL-no-Data-Lake: a shallow embedding of the batch ETL pipeline

    The definitions follow the layout of the repository:

    - [Py], [Num], [Json]   the fragment of Python the code relies on:
                            exceptions, strings, numbers, dictionaries and
                            the [json] module;
    - [Retry]               src/utils/retry.py;
    - [Pandas], [Obj]       DataFrames, as values and as mutable objects;
    - [DataCleaning]        src/processing/data_cleaning.py;
    - [Contents]            the stages as functions on DataFrame values;
    - [Env]                 the two databases, the log and the clock;
    - [Connections]         src/utils/connections.py;
    - [ClickhouseUtils]     src/utils/clickhouse_utils.py;
    - [DataExtraction]      src/processing/data_extraction.py;
    - [EtlProcess]          src/processing/etl_process.py.

    Effects are explicit.  A Python function that may raise returns a
    [Result]; a function that works on DataFrame objects is a state
    transformer on the object store; a function that touches the outside
    world (logging, sleeping, the two databases) is a state transformer on
    the [World].

    The theorems come after the definitions, grouped by component. *)

From Equations Require Import Equations.
From Stdlib Require Import List String Ascii ZArith NArith QArith Bool Arith Lia.
From Stdlib Require Import DecimalString DecimalZ DecimalN Sorted.
Import ListNotations.

Local Open Scope list_scope.
Local Open Scope string_scope.
Local Open Scope Z_scope.

(* ===================================================================== *)
(** * Python runtime                                                      *)
(* ===================================================================== *)

Module Py.

(** Exceptions, by class.  [str(e)] is the message. *)
Inductive exn : Type :=
| Exception (msg : string)
| ValueError (msg : string)
| TypeError (msg : string)
| DatabaseError (msg : string).

Definition str_exn (e : exn) : string :=
  match e with
  | Exception m | ValueError m | TypeError m | DatabaseError m => m
  end.

(** The outcome of a call: a value, or a raised exception. *)
Inductive Result (A : Type) : Type :=
| Ok (a : A)
| Raise (e : exn).
Arguments Ok {A} a.
Arguments Raise {A} e.

Definition bind {A B} (r : Result A) (k : A -> Result B) : Result B :=
  match r with
  | Ok a => k a
  | Raise e => Raise e
  end.

(** Decimal digits, for printing and reading numbers. *)
Inductive digit : Type := d0 | d1 | d2 | d3 | d4 | d5 | d6 | d7 | d8 | d9.

Definition digit_char (d : digit) : ascii :=
  match d with
  | d0 => "0" | d1 => "1" | d2 => "2" | d3 => "3" | d4 => "4"
  | d5 => "5" | d6 => "6" | d7 => "7" | d8 => "8" | d9 => "9"
  end%char.

Definition char_digit (c : ascii) : option digit :=
  match c with
  | "0" => Some d0 | "1" => Some d1 | "2" => Some d2 | "3" => Some d3
  | "4" => Some d4 | "5" => Some d5 | "6" => Some d6 | "7" => Some d7
  | "8" => Some d8 | "9" => Some d9 | _ => None
  end%char.

Fixpoint str_digits (ds : list digit) : string :=
  match ds with
  | [] => EmptyString
  | d :: ds' => String (digit_char d) (str_digits ds')
  end.

Fixpoint uint_digits (u : Decimal.uint) : list digit :=
  match u with
  | Decimal.Nil => []
  | Decimal.D0 u' => d0 :: uint_digits u'
  | Decimal.D1 u' => d1 :: uint_digits u'
  | Decimal.D2 u' => d2 :: uint_digits u'
  | Decimal.D3 u' => d3 :: uint_digits u'
  | Decimal.D4 u' => d4 :: uint_digits u'
  | Decimal.D5 u' => d5 :: uint_digits u'
  | Decimal.D6 u' => d6 :: uint_digits u'
  | Decimal.D7 u' => d7 :: uint_digits u'
  | Decimal.D8 u' => d8 :: uint_digits u'
  | Decimal.D9 u' => d9 :: uint_digits u'
  end.

(** The decimal digits of a natural number, without leading zeros. *)
Definition digits_of_N (n : N) : list digit := uint_digits (N.to_uint n).

(** [str(n)] for an [int]. *)
Definition str_int (n : Z) : string :=
  (if n <? 0 then "-" else "") ++ str_digits (digits_of_N (Z.abs_N n)).

(** Strings are sequences of code points below 256.  The double quote is
    written by its decimal code. *)
Definition dquote : ascii := "034"%char.
Definition squote : ascii := "039"%char.
Definition backslash : ascii := "092"%char.

(** [c.lower()] on one code point: the ASCII capitals and the Latin-1
    capitals (U+00C0..U+00DE without the multiplication sign) move down
    by 32, everything else is unchanged. *)
Definition lower_char (c : ascii) : ascii :=
  let n := N_of_ascii c in
  if (((65 <=? n) && (n <=? 90))
      || ((192 <=? n) && (n <=? 222) && negb (n =? 215)))%N
  then ascii_of_N (n + 32) else c.

(** [s.lower()] *)
Fixpoint str_lower (s : string) : string :=
  match s with
  | EmptyString => EmptyString
  | String c s' => String (lower_char c) (str_lower s')
  end.

(** [s.replace(old, new)] for a one-character [old]. *)
Fixpoint str_replace1 (old : ascii) (new : string) (s : string) : string :=
  match s with
  | EmptyString => EmptyString
  | String c s' =>
      if (c =? old)%char then new ++ str_replace1 old new s'
      else String c (str_replace1 old new s')
  end.

(** [s.replace(old, new)] for a two-character [old = o1 o2]: occurrences
    are found left to right and do not overlap. *)
Fixpoint str_replace2 (o1 o2 : ascii) (new : string) (s : string) : string :=
  match s with
  | EmptyString => EmptyString
  | String c s' =>
      match s' with
      | EmptyString => String c EmptyString
      | String c' s'' =>
          if ((c =? o1)%char && (c' =? o2)%char)%bool
          then new ++ str_replace2 o1 o2 new s''
          else String c (str_replace2 o1 o2 new s')
      end
  end.

(** [sub in s] *)
Definition str_contains (sub s : string) : bool :=
  match index 0 sub s with
  | Some _ => true
  | None => false
  end.

(** [sep.join(items)] *)
Fixpoint str_join (sep : string) (items : list string) : string :=
  match items with
  | [] => EmptyString
  | [x] => x
  | x :: rest => x ++ sep ++ str_join sep rest
  end.

(** A Python [dict] with string keys: insertion-ordered, one entry per
    key.  Assigning to a key that is present replaces its value in place. *)
Definition dict (V : Type) : Type := list (string * V).

Fixpoint dict_set {V} (k : string) (v : V) (d : dict V) : dict V :=
  match d with
  | [] => [(k, v)]
  | (k', v') :: d' =>
      if (k' =? k)%string then (k, v) :: d' else (k', v') :: dict_set k v d'
  end.

(** [dict(items)]: later items win. *)
Definition dict_of_items {V} (items : list (string * V)) : dict V :=
  fold_left (fun d kv => dict_set (fst kv) (snd kv) d) items [].


End Py.
Export Py.

(* ===================================================================== *)
(** * Scalar values                                                       *)
(* ===================================================================== *)

(** The scalars a batch holds: missing ([None]/[NaN]), integers, floats,
    text and timestamps.

    A float is modelled by the decimal literal that [repr] prints for it:
    a sign, an integer part and at least one fractional digit.  Exponent
    notation, infinities and NaN are outside the model, and arithmetic on
    floats is exact decimal arithmetic (binary rounding is not modelled).
    Integers are unbounded: the wrap-around of 64-bit columns is not
    modelled, and the statements that depend on a sum say so. *)

Record pyfloat : Type := mkFloat {
  fneg : bool;          (* sign *)
  fint : N;             (* integer part *)
  ffrac_hd : digit;     (* first fractional digit *)
  ffrac_tl : list digit (* the remaining fractional digits *)
}.

(** Nanoseconds since the epoch, as pandas stores [datetime64[ns]]. *)
Definition Timestamp : Type := Z.

Inductive Value : Type :=
| VNull                          (* None / NaN *)
| VInt (n : Z)
| VFloat (x : pyfloat)
| VStr (s : string)
| VTime (t : option Timestamp).  (* a Timestamp, or NaT *)

Definition digit_eq_dec (a b : digit) : {a = b} + {a <> b}.
Proof. decide equality. Defined.

Definition pyfloat_eq_dec (a b : pyfloat) : {a = b} + {a <> b}.
Proof.
  decide equality.
  - apply (list_eq_dec digit_eq_dec).
  - apply digit_eq_dec.
  - apply N.eq_dec.
  - apply bool_dec.
Defined.

Definition Value_eq_dec (a b : Value) : {a = b} + {a <> b}.
Proof.
  decide equality.
  - apply Z.eq_dec.
  - apply pyfloat_eq_dec.
  - apply string_dec.
  - decide equality. apply Z.eq_dec.
Defined.

Definition Value_eqb (a b : Value) : bool :=
  if Value_eq_dec a b then true else false.

Module Num.

Definition digit_val (d : digit) : N :=
  match d with
  | d0 => 0 | d1 => 1 | d2 => 2 | d3 => 3 | d4 => 4
  | d5 => 5 | d6 => 6 | d7 => 7 | d8 => 8 | d9 => 9
  end%N.

Definition digit_of_N (n : N) : digit :=
  match n with
  | 0 => d0 | 1 => d1 | 2 => d2 | 3 => d3 | 4 => d4
  | 5 => d5 | 6 => d6 | 7 => d7 | 8 => d8 | _ => d9
  end%N.

(** The number a digit sequence denotes, most significant digit first. *)
Definition digits_val (ds : list digit) : N :=
  fold_left (fun acc d => (10 * acc + digit_val d)%N) ds 0%N.

(** The last [k] decimal digits of [n], most significant first. *)
Fixpoint digits_fixed (k : nat) (n : N) : list digit :=
  match k with
  | O => []
  | S k' => digits_fixed k' (n / 10) ++ [digit_of_N (n mod 10)]
  end.

Definition frac_digits (x : pyfloat) : list digit := ffrac_hd x :: ffrac_tl x.

(** A float as [mantissa / 10 ^ scale]. *)
Definition scale (x : pyfloat) : nat := List.length (frac_digits x).

Definition mantissa (x : pyfloat) : Z :=
  let a := Z.of_N (fint x * 10 ^ N.of_nat (scale x) + digits_val (frac_digits x)) in
  if fneg x then - a else a.

Definition float_Q (x : pyfloat) : Q :=
  Qmake (mantissa x) (Pos.pow 10 (Pos.of_nat (scale x))).

(** Trailing zeros are not printed, but one fractional digit always is. *)
Fixpoint strip_zeros (rev_ds : list digit) : list digit :=
  match rev_ds with
  | d0 :: ((_ :: _) as rest) => strip_zeros rest
  | _ => rev_ds
  end.

(** The float [m / 10 ^ k], for [k >= 1]. *)
Definition float_of_scaled (m : Z) (k : nat) : pyfloat :=
  let a := Z.abs_N m in
  let p := (10 ^ N.of_nat k)%N in
  match rev (strip_zeros (rev (digits_fixed k (a mod p)))) with
  | d :: ds => mkFloat (m <? 0) (a / p) d ds
  | [] => mkFloat (m <? 0) (a / p) d0 []
  end.

(** The same number without the trailing zeros of its fraction. *)
Definition canonical (x : pyfloat) : pyfloat :=
  match rev (strip_zeros (rev (frac_digits x))) with
  | d :: ds => mkFloat (fneg x) (fint x) d ds
  | [] => x
  end.

Definition float_of_int (n : Z) : pyfloat := mkFloat (n <? 0) (Z.abs_N n) d0 [].

Definition float_add (x y : pyfloat) : pyfloat :=
  let k := Nat.max (scale x) (scale y) in
  float_of_scaled
    (mantissa x * 10 ^ Z.of_nat (k - scale x)
     + mantissa y * 10 ^ Z.of_nat (k - scale y)) k.

(** The value of a number, for comparisons. *)
Definition to_Q (v : Value) : option Q :=
  match v with
  | VInt n => Some (inject_Z n)
  | VFloat x => Some (float_Q x)
  | _ => None
  end.

(** [repr(x)] for a float. *)
Definition repr_float (x : pyfloat) : string :=
  (if fneg x then "-" else "") ++ str_digits (digits_of_N (fint x)) ++ "."
    ++ str_digits (frac_digits x).

End Num.


(* ===================================================================== *)
(** * src/utils/retry.py                                                  *)
(* ===================================================================== *)

(** What the wrapper needs from the world it runs in: the [logging] module
    and [time.sleep]. *)
Class Runtime (W : Type) : Type := {
  logging_info : string -> W -> W;
  logging_error : string -> W -> W;
  logging_critical : string -> W -> W;
  time_sleep : Z -> W -> W
}.

(** A call that may raise and may change the world. *)
Definition Action (W A : Type) : Type := W -> Result A * W.

Module Retry.

Definition MAX_RETRIES : Z := 3.
Definition RETRY_DELAY : Z := 5.

(** The variant of the retry loop: attempts still allowed. *)
Definition remaining (retries : Z) : nat := Z.to_nat (MAX_RETRIES - retries).
Arguments remaining : simpl never.

Section Wrapper.
Context {W A : Type} `{Runtime W}.
(** [func.__name__] and [func] itself. *)
Variable name : string.
Variable func : Action W A.

(** f"Erro em {func.__name__}: {e}. Tentativa {retries}/{MAX_RETRIES}" *)
Definition error_line (e : exn) (retries : Z) : string :=
  "Erro em " ++ name ++ ": " ++ str_exn e ++ ". Tentativa "
    ++ str_int retries ++ "/" ++ str_int MAX_RETRIES.

(** f"Falha crítica: a função {func.__name__} falhou após {MAX_RETRIES} tentativas." *)
Definition critical_line : string :=
  "Falha crítica: a função " ++ name ++ " falhou após "
    ++ str_int MAX_RETRIES ++ " tentativas.".

(** Exception(f"Function {func.__name__} failed after {MAX_RETRIES} attempts.") *)
Definition fatal : exn :=
  Exception ("Function " ++ name ++ " failed after "
               ++ str_int MAX_RETRIES ++ " attempts.").

(** The [while retries < MAX_RETRIES] loop, from the state in which
    [retries] failures have been counted: a call that returns ends the
    loop with its value; a call that raises is counted, logged and
    followed by the pause.  The loop variant is [remaining retries]. *)
Equations? retry_loop (retries : Z) (w : W) : Result A * W
  by wf (remaining retries) lt :=
  retry_loop retries w with Z_lt_dec retries MAX_RETRIES => {
    | left Hlt with func w => {
        | (Ok a, w1) => (Ok a, w1);
        | (Raise e, w1) =>
            retry_loop (retries + 1)
              (time_sleep RETRY_DELAY
                 (logging_error (error_line e (retries + 1)) w1)) };
    | right _ => (Raise fatal, logging_critical critical_line w) }.
Proof. unfold remaining, MAX_RETRIES in *. lia. Qed.

(** The body of [wrapper]: [retries = 0], then the loop. *)
Definition wrapper : Action W A := retry_loop 0.

End Wrapper.

(** [retry_on_failure(func)] returns [wrapper]. *)
Definition retry_on_failure {W A} `{Runtime W} (name : string)
  (func : Action W A) : Action W A := wrapper name func.

End Retry.

(* ===================================================================== *)
(** * The [json] module                                                   *)
(* ===================================================================== *)

(** [json.dumps] with its default settings ([ensure_ascii], separators
    [", "] and [": "]) on a flat dictionary of scalars, and [json.loads]
    on such documents. *)

Module Json.

Definition hex_char (n : N) : ascii :=
  match n with
  | 0 => "0" | 1 => "1" | 2 => "2" | 3 => "3" | 4 => "4" | 5 => "5"
  | 6 => "6" | 7 => "7" | 8 => "8" | 9 => "9" | 10 => "a" | 11 => "b"
  | 12 => "c" | 13 => "d" | 14 => "e" | _ => "f"
  end%N%char.

(** One character of a string literal: the quote and the backslash are
    escaped, control characters have short or [\u] escapes, and whatever
    is not printable ASCII becomes [\u00XX]. *)
Definition encode_char (c : ascii) : string :=
  let n := N_of_ascii c in
  if (n =? 34)%N then String backslash (String dquote EmptyString)
  else if (n =? 92)%N then String backslash (String backslash EmptyString)
  else if (n =? 10)%N then String backslash "n"
  else if (n =? 13)%N then String backslash "r"
  else if (n =? 9)%N then String backslash "t"
  else if (n =? 8)%N then String backslash "b"
  else if (n =? 12)%N then String backslash "f"
  else if ((32 <=? n) && (n <=? 126))%N then String c EmptyString
  else String backslash
         (String "u" (String "0" (String "0"
            (String (hex_char (n / 16)) (String (hex_char (n mod 16)) EmptyString))))).

Fixpoint encode_body (s : string) : string :=
  match s with
  | EmptyString => EmptyString
  | String c s' => encode_char c ++ encode_body s'
  end.

Definition encode_string (s : string) : string :=
  String dquote (encode_body s ++ String dquote EmptyString).

(** The default encoder knows [None], [int], [float] and [str]; a
    pandas [Timestamp] or [NaT] makes it raise [TypeError].  A missing
    value is written as [None] is (a float [NaN], which the encoder
    writes as [NaN], is not told apart from [None]; no missing value
    reaches the encoder after [clean_data]). *)
Definition dumps_value (v : Value) : Result string :=
  match v with
  | VNull => Ok "null"
  | VInt n => Ok (str_int n)
  | VFloat x => Ok (Num.repr_float x)
  | VStr s => Ok (encode_string s)
  | VTime (Some _) =>
      Raise (TypeError "Object of type Timestamp is not JSON serializable")
  | VTime None =>
      Raise (TypeError "Object of type NaTType is not JSON serializable")
  end.

Fixpoint dumps_items (d : dict Value) : Result (list string) :=
  match d with
  | [] => Ok []
  | (k, v) :: d' =>
      bind (dumps_value v) (fun sv =>
      bind (dumps_items d') (fun rest =>
      Ok ((encode_string k ++ ": " ++ sv) :: rest)))
  end.

(** [json.dumps(d)] *)
Definition dumps (d : dict Value) : Result string :=
  bind (dumps_items d) (fun items => Ok ("{" ++ str_join ", " items ++ "}")).

(** ** Decoding *)

Definition starts_with (c : ascii) (s : string) : bool :=
  match s with
  | String c' _ => (c' =? c)%char
  | EmptyString => false
  end.

Definition tail (s : string) : string :=
  match s with
  | String _ s' => s'
  | EmptyString => EmptyString
  end.

Definition is_ws (c : ascii) : bool :=
  ((c =? " ") || (c =? "009") || (c =? "010") || (c =? "013"))%char.

Fixpoint skip_ws (s : string) : string :=
  match s with
  | String c s' => if is_ws c then skip_ws s' else s
  | EmptyString => EmptyString
  end.

Definition hex_val (c : ascii) : option N :=
  let n := N_of_ascii c in
  if ((48 <=? n) && (n <=? 57))%N then Some (n - 48)%N
  else if ((97 <=? n) && (n <=? 102))%N then Some (n - 87)%N
  else if ((65 <=? n) && (n <=? 70))%N then Some (n - 55)%N
  else None.

(** The code point of [\uXXXX], when it is below 256. *)
Definition code_of_hex (h1 h2 h3 h4 : ascii) : option ascii :=
  match hex_val h1, hex_val h2, hex_val h3, hex_val h4 with
  | Some a, Some b, Some c, Some d =>
      let n := (4096 * a + 256 * b + 16 * c + d)%N in
      if (n <? 256)%N then Some (ascii_of_N n) else None
  | _, _, _, _ => None
  end.

Definition unescape_char (e : ascii) : option ascii :=
  let n := N_of_ascii e in
  if (n =? 34)%N then Some dquote
  else if (n =? 92)%N then Some backslash
  else if (n =? 47)%N then Some "/"%char
  else if (n =? 110)%N then Some "010"%char
  else if (n =? 114)%N then Some "013"%char
  else if (n =? 116)%N then Some "009"%char
  else if (n =? 98)%N then Some "008"%char
  else if (n =? 102)%N then Some "012"%char
  else None.

Definition cons_char (c : ascii) (r : option (string * string))
  : option (string * string) :=
  match r with
  | Some (s, rest) => Some (String c s, rest)
  | None => None
  end.

(** A string literal after its opening quote: the decoded text and the
    input that follows the closing quote. *)
Fixpoint read_string_body (s : string) : option (string * string) :=
  match s with
  | EmptyString => None
  | String c s1 =>
      if (c =? dquote)%char then Some (EmptyString, s1)
      else if (c =? backslash)%char then
        match s1 with
        | EmptyString => None
        | String e s2 =>
            if (e =? "u")%char then
              match s2 with
              | String h1 (String h2 (String h3 (String h4 s3))) =>
                  match code_of_hex h1 h2 h3 h4 with
                  | Some ch => cons_char ch (read_string_body s3)
                  | None => None
                  end
              | _ => None
              end
            else
              match unescape_char e with
              | Some ch => cons_char ch (read_string_body s2)
              | None => None
              end
        end
      else if (N_of_ascii c <? 32)%N then None
      else cons_char c (read_string_body s1)
  end.

(** The longest prefix of decimal digits, and the rest. *)
Fixpoint read_digits (s : string) : list digit * string :=
  match s with
  | EmptyString => ([], EmptyString)
  | String c s' =>
      match char_digit c with
      | Some d => let (ds, rest) := read_digits s' in (d :: ds, rest)
      | None => ([], s)
      end
  end.

(** A number without its sign: digits, then an optional fraction. *)
Definition read_unsigned (neg : bool) (s : string) : option (Value * string) :=
  match read_digits s with
  | ([], _) => None
  | (ds, rest) =>
      let n := Num.digits_val ds in
      if starts_with "." rest then
        match read_digits (tail rest) with
        | (f :: fs, rest') => Some (VFloat (mkFloat neg n f fs), rest')
        | ([], _) => None
        end
      else Some (VInt (if neg then - Z.of_N n else Z.of_N n), rest)
  end.

Definition read_value (s : string) : option (Value * string) :=
  match s with
  | String c s1 =>
      if (c =? dquote)%char then
        match read_string_body s1 with
        | Some (t, rest) => Some (VStr t, rest)
        | None => None
        end
      else if (c =? "-")%char then read_unsigned true s1
      else if (c =? "n")%char then
        if (starts_with "u" s1 && starts_with "l" (tail s1)
            && starts_with "l" (tail (tail s1)))%bool
        then Some (VNull, tail (tail (tail s1))) else None
      else read_unsigned false s
  | EmptyString => None
  end.

(** One [key: value] member, and the input after it with blanks skipped. *)
Definition read_member (s : string) : option ((string * Value) * string) :=
  match skip_ws s with
  | String c s1 =>
      if (c =? dquote)%char then
        match read_string_body s1 with
        | Some (k, s2) =>
            if starts_with ":" (skip_ws s2) then
              match read_value (skip_ws (tail (skip_ws s2))) with
              | Some (v, s3) => Some ((k, v), skip_ws s3)
              | None => None
              end
            else None
        | None => None
        end
      else None
  | EmptyString => None
  end.

(** The members of an object after its opening brace; [fuel] bounds their
    number. *)
Fixpoint read_members (fuel : nat) (s : string)
  : option (list (string * Value) * string) :=
  match fuel with
  | O => None
  | S fuel' =>
      match read_member s with
      | Some (kv, s1) =>
          if starts_with "," s1 then
            match read_members fuel' (tail s1) with
            | Some (l, rest) => Some (kv :: l, rest)
            | None => None
            end
          else if starts_with "}" s1 then Some ([kv], tail s1)
          else None
      | None => None
      end
  end.

Definition at_end (s : string) : bool :=
  match skip_ws s with
  | EmptyString => true
  | _ => false
  end.

(** [json.loads(s)] for a flat object; [None] is a decoding error.  Every
    member takes at least one character, so the length of the input is
    enough fuel. *)
Definition loads (s : string) : option (dict Value) :=
  let s0 := skip_ws s in
  if starts_with "{" s0 then
    let s1 := tail s0 in
    if starts_with "}" (skip_ws s1) then
      if at_end (tail (skip_ws s1)) then Some [] else None
    else
      match read_members (String.length s) s1 with
      | Some (items, rest) =>
          if at_end rest then Some (dict_of_items items) else None
      | None => None
      end
  else None.

End Json.

(* ===================================================================== *)
(** * The fragment of pandas the pipeline uses                            *)
(* ===================================================================== *)

(** Formatting and parsing of dates is left to the library: [strftime] is
    [Timestamp.strftime('%Y-%m-%d %H:%M:%S')] and [parse_datetime] is the
    day-first parser behind [pd.to_datetime], which gives [None] for text
    it cannot read.  All that is used of the format is its width. *)
Class DateLib : Type := {
  strftime : Timestamp -> string;
  parse_datetime : string -> option Timestamp;
  (* "YYYY-MM-DD HH:MM:SS" *)
  strftime_length : forall t, String.length (strftime t) = 19%nat
}.

Module Pandas.

(** A DataFrame: column labels, and rows of cells in column order.  Column
    types are not stored; [dtype_of] infers them from the cells the way the
    constructor does.

    Cells are read and written by position.  A position past the end of a
    row reads as missing, and writing there extends the row, so that every
    row is a total assignment of cells to columns; on the rectangular
    frames pandas builds this is ordinary indexing.  A label that occurs
    twice denotes its first column (the source tables have distinct
    column names). *)
Record DataFrame : Type := mkDF {
  columns : list string;
  rows : list (list Value)
}.

Definition len (df : DataFrame) : nat := List.length (rows df).

Fixpoint col_index (c : string) (cols : list string) : option nat :=
  match cols with
  | [] => None
  | c' :: cols' =>
      if (c' =? c)%string then Some O
      else match col_index c cols' with
           | Some i => Some (S i)
           | None => None
           end
  end.

(** [c in df.columns] *)
Definition has_column (df : DataFrame) (c : string) : bool :=
  match col_index c (columns df) with
  | Some _ => true
  | None => false
  end.

(** The cell of row [r] under column [c]. *)
Definition cell (df : DataFrame) (c : string) (r : list Value) : Value :=
  match col_index c (columns df) with
  | Some i => nth i r VNull
  | None => VNull
  end.

(** [df[c]] as a list of cells. *)
Definition get_col (df : DataFrame) (c : string) : list Value :=
  map (cell df c) (rows df).

(** Writing the cell at position [i] of a row. *)
Fixpoint put (i : nat) (x : Value) (r : list Value) : list Value :=
  match i, r with
  | O, [] => [x]
  | O, _ :: r' => x :: r'
  | S i', [] => VNull :: put i' x []
  | S i', y :: r' => y :: put i' x r'
  end.

(** The position a column assignment writes to: that of the column, or
    the first free one. *)
Definition target (df : DataFrame) (c : string) : nat :=
  match col_index c (columns df) with
  | Some i => i
  | None => List.length (columns df)
  end.

Definition columns_with (df : DataFrame) (c : string) : list string :=
  if has_column df c then columns df else (columns df ++ [c])%list.

(** [df[c] = f(row)]: an existing column is overwritten, a new one is
    appended on the right. *)
Definition set_col_with (df : DataFrame) (c : string)
  (f : list Value -> Value) : DataFrame :=
  mkDF (columns_with df c) (map (fun r => put (target df c) (f r) r) (rows df)).

(** [df[c] = series], the series given in row order. *)
Definition set_col (df : DataFrame) (c : string) (vals : list Value) : DataFrame :=
  mkDF (columns_with df c)
       (map (fun rv => put (target df c) (snd rv) (fst rv)) (combine (rows df) vals)).

(** [df[c] = scalar] *)
Definition set_col_scalar (df : DataFrame) (c : string) (v : Value) : DataFrame :=
  set_col_with df c (fun _ => v).

(** [pd.isna] *)
Definition isna (v : Value) : bool :=
  match v with
  | VNull | VTime None => true
  | _ => false
  end.

(** No cell of the row is missing. *)
Definition row_complete (df : DataFrame) (r : list Value) : bool :=
  forallb (fun c => negb (isna (cell df c r))) (columns df).

(** [df.dropna()]: the rows without a missing cell. *)
Definition dropna (df : DataFrame) : DataFrame :=
  mkDF (columns df) (filter (row_complete df) (rows df)).

(** [df.applymap(f)] *)
Definition applymap (f : Value -> Value) (df : DataFrame) : DataFrame :=
  mkDF (columns df) (map (map f) (rows df)).

(** [df[mask]] with the mask given row by row. *)
Definition filter_rows (p : list Value -> bool) (df : DataFrame) : DataFrame :=
  mkDF (columns df) (filter p (rows df)).

(** ** Column types *)

Inductive dtype : Type := Int64 | Float64 | Datetime64 | Object.

Definition is_int (v : Value) : bool :=
  match v with VInt _ => true | _ => false end.
Definition is_number (v : Value) : bool :=
  match v with VInt _ | VFloat _ => true | _ => false end.
Definition is_time (v : Value) : bool :=
  match v with VTime _ => true | _ => false end.

(** Integers alone give [int64]; numbers with gaps or fractions give
    [float64]; timestamps, possibly with gaps, give [datetime64]; anything
    else, and the empty column, is [object]. *)
Definition dtype_of (vals : list Value) : dtype :=
  if (forallb is_int vals && existsb is_int vals)%bool then Int64
  else if (forallb (fun v => is_number v || isna v) vals
           && existsb is_number vals)%bool then Float64
  else if (forallb (fun v => is_time v || isna v) vals
           && existsb is_time vals)%bool then Datetime64
  else Object.

Definition dtype_eqb (a b : dtype) : bool :=
  match a, b with
  | Int64, Int64 | Float64, Float64 | Datetime64, Datetime64
  | Object, Object => true
  | _, _ => false
  end.

(** [df.select_dtypes(include=['datetime'])], as its column labels. *)
Definition select_dtypes_datetime (df : DataFrame) : list string :=
  filter (fun c => dtype_eqb (dtype_of (get_col df c)) Datetime64) (columns df).

(** [series.dt.strftime(...)], cell by cell: a missing time stays missing. *)
Definition dt_strftime `{DateLib} (v : Value) : Value :=
  match v with
  | VTime (Some t) => VStr (strftime t)
  | VTime None => VNull
  | _ => v
  end.

(** ** Conversions *)

Fixpoint mapM {A B} (f : A -> Result B) (l : list A) : Result (list B) :=
  match l with
  | [] => Ok []
  | x :: l' =>
      bind (f x) (fun y => bind (mapM f l') (fun ys => Ok (y :: ys)))
  end.

(** The numeric literals the model reads out of text: an optional sign,
    digits, and an optional fraction.  (pandas also reads exponents and
    surrounding blanks.) *)
Definition parse_number (s : string) : option Value :=
  let (neg, body) :=
    match s with
    | String c s' =>
        if (c =? "-")%char then (true, s')
        else if (c =? "+")%char then (false, s')
        else (false, s)
    | EmptyString => (false, s)
    end in
  match Json.read_unsigned neg body with
  | Some (VFloat x, EmptyString) => Some (VFloat (Num.canonical x))
  | Some (v, EmptyString) => Some v
  | _ => None
  end.

Definition to_numeric_value (v : Value) : Result Value :=
  match v with
  | VStr s =>
      match parse_number s with
      | Some n => Ok n
      | None => Raise (ValueError ("Unable to parse string " ++ s))
      end
  | VTime _ => Raise (TypeError "Invalid object type")
  | _ => Ok v
  end.

Definition to_float (v : Value) : Value :=
  match v with
  | VInt n => VFloat (Num.float_of_int n)
  | _ => v
  end.

(** [pd.to_numeric(series)]: every cell must convert; the result is an
    integer column, or a float column when some cell is fractional or
    missing. *)
Definition to_numeric (vals : list Value) : Result (list Value) :=
  bind (mapM to_numeric_value vals) (fun ns =>
  Ok (if forallb is_int ns then ns else map to_float ns)).

(** [pd.to_datetime(series, errors='coerce', dayfirst=True)], cell by
    cell: numbers count nanoseconds, text is parsed, and what cannot be
    read becomes [NaT]. *)
Definition to_datetime_value `{DateLib} (v : Value) : Value :=
  match v with
  | VStr s => VTime (parse_datetime s)
  | VInt n => VTime (Some n)
  | VFloat x => VTime (Some (if fneg x then - Z.of_N (fint x) else Z.of_N (fint x)))
  | VNull => VTime None
  | VTime t => VTime t
  end.

(** ** Grouping *)

(** The order used to sort group keys: numbers by value, text by code
    point, times by instant; values of different kinds are ordered by kind
    (pandas gives up sorting such keys). *)
Definition kind_rank (v : Value) : Z :=
  match v with
  | VNull => 0 | VInt _ | VFloat _ => 1 | VStr _ => 2 | VTime _ => 3
  end.

Definition value_leb (a b : Value) : bool :=
  match a, b with
  | VStr s, VStr t =>
      match String.compare s t with Gt => false | _ => true end
  | VTime (Some s), VTime (Some t) => s <=? t
  | _, _ =>
      match Num.to_Q a, Num.to_Q b with
      | Some x, Some y => Qle_bool x y
      | _, _ => kind_rank a <=? kind_rank b
      end
  end.

Fixpoint insert_sorted (v : Value) (l : list Value) : list Value :=
  match l with
  | [] => [v]
  | x :: l' => if value_leb v x then v :: l else x :: insert_sorted v l'
  end.

Definition sort_values (l : list Value) : list Value :=
  fold_right insert_sorted [] l.

(** The distinct values of a list, in order of first appearance. *)
Fixpoint distinct_from {A} (eqb : A -> A -> bool) (seen l : list A) : list A :=
  match l with
  | [] => []
  | x :: l' =>
      if existsb (eqb x) seen then distinct_from eqb seen l'
      else x :: distinct_from eqb (x :: seen) l'
  end.

Definition distinct {A} (eqb : A -> A -> bool) (l : list A) : list A :=
  distinct_from eqb [] l.

(** The [+] of the reduction behind [sum]: numbers add, text concatenates,
    a missing cell is skipped, and times cannot be summed. *)
Definition add_values (a b : Value) : Result Value :=
  match a, b with
  | VTime _, _ | _, VTime _ =>
      Raise (TypeError "datetime64 type does not support sum operations")
  | VNull, v | v, VNull => Ok v
  | VInt x, VInt y => Ok (VInt (x + y))
  | VInt x, VFloat y => Ok (VFloat (Num.float_add (Num.float_of_int x) y))
  | VFloat x, VInt y => Ok (VFloat (Num.float_add x (Num.float_of_int y)))
  | VFloat x, VFloat y => Ok (VFloat (Num.float_add x y))
  | VStr s, VStr t => Ok (VStr (s ++ t))
  | _, _ => Raise (TypeError "unsupported operand type(s) for +")
  end.

Fixpoint sum_from (acc : Value) (vals : list Value) : Result Value :=
  match vals with
  | [] => Ok acc
  | v :: vals' => bind (add_values acc v) (fun acc' => sum_from acc' vals')
  end.

(** [series.sum()]: the sum of nothing is [0]. *)
Definition sum_values (vals : list Value) : Result Value :=
  bind (sum_from VNull vals) (fun s =>
  Ok (match s with VNull => VInt 0 | _ => s end)).

(** [df.groupby(key, as_index=False)[val].sum()]: one row per distinct
    non-missing key, keys sorted, holding the key and the sum of [val]
    over the rows of the group. *)
Definition groupby_sum (key val : string) (df : DataFrame) : Result DataFrame :=
  let keys :=
    sort_values
      (distinct Value_eqb (filter (fun v => negb (isna v)) (get_col df key))) in
  bind
    (mapM (fun k =>
             bind (sum_values
                     (map (cell df val)
                        (filter (fun r => Value_eqb (cell df key r) k) (rows df))))
                  (fun s => Ok [k; s]))
          keys)
    (fun rs => Ok (mkDF [key; val] rs)).

(** ** The remaining operations *)

(** [series == s] for a string [s], cell by cell. *)
Definition eq_str (s : string) (v : Value) : bool :=
  match v with
  | VStr t => (t =? s)%string
  | _ => false
  end.

(** [series.between(lo, hi)], cell by cell: both ends are included, a
    missing number is outside, and comparing text or a time with an
    integer raises. *)
Definition between (lo hi : Z) (v : Value) : Result bool :=
  match v with
  | VNull => Ok false
  | VStr _ =>
      Raise (TypeError "'>=' not supported between instances of 'str' and 'int'")
  | VTime _ =>
      Raise (TypeError "Invalid comparison between dtype=datetime64[ns] and int")
  | _ =>
      match Num.to_Q v with
      | Some q => Ok (Qle_bool (inject_Z lo) q && Qle_bool q (inject_Z hi))%bool
      | None => Ok false
      end
  end.

(** [df[mask]] with the mask given as a list. *)
Fixpoint select_mask {A} (l : list A) (mask : list bool) : list A :=
  match l, mask with
  | x :: l', b :: mask' =>
      if b then x :: select_mask l' mask' else select_mask l' mask'
  | _, _ => []
  end.

Definition row_eqb (r1 r2 : list Value) : bool :=
  if list_eq_dec Value_eq_dec r1 r2 then true else false.

(** [df.drop_duplicates()]: the first of every group of equal rows. *)
Definition drop_duplicates (df : DataFrame) : DataFrame :=
  mkDF (columns df) (distinct row_eqb (rows df)).

Fixpoint lookup {V} (k : string) (d : dict V) : option V :=
  match d with
  | [] => None
  | (k', v) :: d' => if (k' =? k)%string then Some v else lookup k d'
  end.

(** [df.rename(columns=mapping)] *)
Definition rename (mapping : dict string) (df : DataFrame) : DataFrame :=
  mkDF (map (fun c => match lookup c mapping with
                      | Some c' => c'
                      | None => c
                      end) (columns df))
       (rows df).

(** [row.to_dict()], with the cells as the frame holds them.  (The row
    that [df.apply(..., axis=1)] builds for a frame of integer and float
    columns only holds floats; this conversion is not modelled, and the
    statements that read the text of a payload leave such rows out.) *)
Definition to_dict (df : DataFrame) (r : list Value) : dict Value :=
  dict_of_items (map (fun c => (c, cell df c r)) (columns df)).

(** [df[[c1, ..., cn]]] *)
Definition select_columns (cs : list string) (df : DataFrame) : DataFrame :=
  mkDF cs (map (fun r => map (fun c => cell df c r) cs) (rows df)).

End Pandas.
Export Pandas.

(* ===================================================================== *)
(** * DataFrame objects                                                   *)
(* ===================================================================== *)

(** A DataFrame variable holds a reference.  Operations with
    [inplace=True] and item assignment [df[c] = ...] change the object the
    reference points to; the other operations build a new object. *)

Module Obj.

Definition Ref : Type := nat.
Definition Heap : Type := list DataFrame.

Fixpoint set_nth {A} (i : nat) (x : A) (l : list A) : list A :=
  match l, i with
  | [], _ => []
  | _ :: l', O => x :: l'
  | y :: l', S i' => y :: set_nth i' x l'
  end.

(** A computation over the object store that may raise.  What was
    written before an exception stays written. *)
Definition M (A : Type) : Type := Heap -> Result A * Heap.

Definition ret {A} (a : A) : M A := fun h => (Ok a, h).

Definition raise {A} (e : exn) : M A := fun h => (Raise e, h).

Definition bindM {A B} (m : M A) (k : A -> M B) : M B :=
  fun h =>
    match m h with
    | (Ok a, h') => k a h'
    | (Raise e, h') => (Raise e, h')
    end.

Definition lift {A} (r : Result A) : M A := fun h => (r, h).

(** Reading the object behind a reference. *)
Definition deref (r : Ref) : M DataFrame :=
  fun h =>
    match nth_error h r with
    | Some d => (Ok d, h)
    | None => (Raise (Exception "dangling reference"), h)
    end.

(** Overwriting the object behind a reference. *)
Definition update (r : Ref) (d : DataFrame) : M unit :=
  fun h => (Ok tt, set_nth r d h).

(** A new object. *)
Definition new (d : DataFrame) : M Ref :=
  fun h => (Ok (List.length h), (h ++ [d])%list).

(** [for x in l: body(x)] *)
Fixpoint for_each {A} (l : list A) (body : A -> M unit) : M unit :=
  match l with
  | [] => ret tt
  | x :: l' => bindM (body x) (fun _ => for_each l' body)
  end.

(** Calling [f] on a fresh object that holds [d], and reading the object it
    returns. *)
Definition call (f : Ref -> M Ref) (d : DataFrame) : Result DataFrame :=
  match f O [d] with
  | (Ok r, h) =>
      match nth_error h r with
      | Some d' => Ok d'
      | None => Raise (Exception "dangling reference")
      end
  | (Raise e, _) => Raise e
  end.

End Obj.
Export Obj.

Notation "x <- m ;; k" := (bindM m (fun x => k))
  (at level 61, m at next level, right associativity).
Notation "m ;;; k" := (bindM m (fun _ => k))
  (at level 61, right associativity).

(* ===================================================================== *)
(** * src/processing/data_cleaning.py                                     *)
(* ===================================================================== *)

(** The progress bars and the [logging.info] lines of the stages do not
    touch the data and are left out. *)

Module DataCleaning.

Section Stages.
Context `{DateLib}.

(** [df.dropna(inplace=True); return df] *)
Definition clean_data (df : Ref) : M Ref :=
  d <- deref df ;;
  update df (dropna d) ;;;
  ret df.

Definition lower_if_str (x : Value) : Value :=
  match x with
  | VStr s => VStr (str_lower s)
  | _ => x
  end.

(** [df = df.applymap(...)], then every datetime column is reformatted in
    the new object. *)
Definition normalize_data (df : Ref) : M Ref :=
  d <- deref df ;;
  df <- new (applymap lower_if_str d) ;;
  d1 <- deref df ;;
  for_each (select_dtypes_datetime d1) (fun col =>
    d2 <- deref df ;;
    update df (set_col_with d2 col (fun r => dt_strftime (cell d2 col r)))) ;;;
  ret df.

Definition aggregate_data (df : Ref) : M Ref :=
  d <- deref df ;;
  if (has_column d "category" && has_column d "amount")%bool then
    d' <- lift (groupby_sum "category" "amount" d) ;;
    new d'
  else ret df.

Definition filter_data (df : Ref) : M Ref :=
  d <- deref df ;;
  if has_column d "status" then
    new (filter_rows (fun r => eq_str "active" (cell d "status" r)) d)
  else ret df.

(** The first loop of [convert_data_types], one column: an [object]
    column is replaced by its numeric conversion; [ValueError] is caught
    and the column stays as it is; any other exception propagates. *)
Definition convert_numeric_column (df : Ref) (col : string) : M unit :=
  d <- deref df ;;
  if dtype_eqb (dtype_of (get_col d col)) Object then
    match to_numeric (get_col d col) with
    | Ok vals => update df (set_col d col vals)
    | Raise (ValueError _) => ret tt
    | Raise e => raise e
    end
  else ret tt.

(** The second loop, one column. *)
Definition convert_date_column (df : Ref) (col : string) : M unit :=
  if str_contains "date" col then
    d <- deref df ;;
    update df (set_col_with d col (fun r => to_datetime_value (cell d col r)))
  else ret tt.

Definition convert_data_types (df : Ref) : M Ref :=
  d <- deref df ;;
  for_each (columns d) (convert_numeric_column df) ;;;
  d1 <- deref df ;;
  for_each (columns d1) (convert_date_column df) ;;;
  ret df.

(** [df.drop_duplicates(inplace=True); return df] *)
Definition remove_duplicates (df : Ref) : M Ref :=
  d <- deref df ;;
  update df (drop_duplicates d) ;;;
  ret df.

Definition column_mapping : dict string :=
  [("old_column_name", "new_column_name")].

(** [df.rename(columns=column_mapping, inplace=True); return df] *)
Definition map_fields (df : Ref) : M Ref :=
  d <- deref df ;;
  update df (rename column_mapping d) ;;;
  ret df.

Definition validate_data (df : Ref) : M Ref :=
  d <- deref df ;;
  if has_column d "amount" then
    mask <- lift (mapM (between 0 1000000) (get_col d "amount")) ;;
    new (mkDF (columns d) (select_mask (rows d) mask))
  else ret df.

(** [json.dumps(x.to_dict()).replace("'", "\\'")] for one row [x]. *)
Definition payload (d : DataFrame) (x : list Value) : Result Value :=
  bind (Json.dumps (to_dict d x)) (fun s =>
  Ok (VStr (str_replace1 squote (String backslash (String squote EmptyString)) s))).

(** [now] is the value of [pd.to_datetime('now')]. *)
Definition transform_data (now : Timestamp) (df : Ref) (table_name : string)
  : M Ref :=
  df <- clean_data df ;;
  df <- normalize_data df ;;
  df <- aggregate_data df ;;
  df <- filter_data df ;;
  df <- convert_data_types df ;;
  df <- remove_duplicates df ;;
  df <- map_fields df ;;
  df <- validate_data df ;;
  d <- deref df ;;
  data <- lift (mapM (payload d) (rows d)) ;;
  update df (set_col d "data" data) ;;;
  d <- deref df ;;
  update df (set_col_scalar d "tag" (VStr table_name)) ;;;
  d <- deref df ;;
  (if negb (has_column d "date_time")
   then update df (set_col_scalar d "date_time" (VTime (Some now)))
   else ret tt) ;;;
  d <- deref df ;;
  new (select_columns ["data"; "date_time"; "tag"] d).

End Stages.
End DataCleaning.
Export DataCleaning.

(* ===================================================================== *)
(** * What the stages do to the contents of a batch                      *)
(* ===================================================================== *)

(** Each stage seen as a function on DataFrame values.  The stages
    themselves work on objects; that they compute these functions is proved
    below ([stage_spec]). *)

Module Contents.

Section Contents.
Context `{DateLib}.

Definition clean_c (d : DataFrame) : Result DataFrame := Ok (dropna d).

Definition strftime_step (d : DataFrame) (col : string) : DataFrame :=
  set_col_with d col (fun r => dt_strftime (cell d col r)).

Definition normalize_c (d : DataFrame) : Result DataFrame :=
  let d1 := applymap lower_if_str d in
  Ok (fold_left strftime_step (select_dtypes_datetime d1) d1).

Definition aggregate_c (d : DataFrame) : Result DataFrame :=
  if (has_column d "category" && has_column d "amount")%bool
  then groupby_sum "category" "amount" d
  else Ok d.

Definition filter_c (d : DataFrame) : Result DataFrame :=
  if has_column d "status"
  then Ok (filter_rows (fun r => eq_str "active" (cell d "status" r)) d)
  else Ok d.

Definition numeric_step (d : DataFrame) (col : string) : Result DataFrame :=
  if dtype_eqb (dtype_of (get_col d col)) Object then
    match to_numeric (get_col d col) with
    | Ok vals => Ok (set_col d col vals)
    | Raise (ValueError _) => Ok d
    | Raise e => Raise e
    end
  else Ok d.

Definition date_step (d : DataFrame) (col : string) : DataFrame :=
  if str_contains "date" col
  then set_col_with d col (fun r => to_datetime_value (cell d col r))
  else d.

Fixpoint foldM {A S} (step : S -> A -> Result S) (l : list A) (s : S)
  : Result S :=
  match l with
  | [] => Ok s
  | x :: l' => bind (step s x) (foldM step l')
  end.

Definition convert_c (d : DataFrame) : Result DataFrame :=
  bind (foldM numeric_step (columns d) d) (fun d1 =>
  Ok (fold_left date_step (columns d1) d1)).

Definition dedupe_c (d : DataFrame) : Result DataFrame := Ok (drop_duplicates d).

Definition map_c (d : DataFrame) : Result DataFrame :=
  Ok (rename column_mapping d).

Definition validate_c (d : DataFrame) : Result DataFrame :=
  if has_column d "amount" then
    bind (mapM (between 0 1000000) (get_col d "amount")) (fun mask =>
    Ok (mkDF (columns d) (select_mask (rows d) mask)))
  else Ok d.

(** The end of [transform_data]: payload, tag, timestamp, projection. *)
Definition stamp_c (now : Timestamp) (table_name : string) (d : DataFrame)
  : Result DataFrame :=
  bind (mapM (payload d) (rows d)) (fun data =>
  let d1 := set_col d "data" data in
  let d2 := set_col_scalar d1 "tag" (VStr table_name) in
  let d3 := if negb (has_column d2 "date_time")
            then set_col_scalar d2 "date_time" (VTime (Some now))
            else d2 in
  Ok (select_columns ["data"; "date_time"; "tag"] d3)).

Definition transform_c (now : Timestamp) (table_name : string) (d : DataFrame)
  : Result DataFrame :=
  bind (clean_c d) (fun d =>
  bind (normalize_c d) (fun d =>
  bind (aggregate_c d) (fun d =>
  bind (filter_c d) (fun d =>
  bind (convert_c d) (fun d =>
  bind (dedupe_c d) (fun d =>
  bind (map_c d) (fun d =>
  bind (validate_c d) (stamp_c now table_name)))))))).

End Contents.
End Contents.
Export Contents.

(* ===================================================================== *)
(** * The outside world                                                   *)
(* ===================================================================== *)

(** The two databases, the log and the clock.  Whether an operation on a
    database fails is decided by the environment: [faults k] says whether
    the [k]-th operation attempted in a run fails. *)

Module Env.

Inductive Event : Type :=
| LogInfo (line : string)
| LogError (line : string)
| LogCritical (line : string)
| Sleep (seconds : Z).

Inductive conn_state : Type := NotOpened | Opened | Closed.

(** A row of the sink table [grupox]. *)
Record SinkRow : Type := mkRow {
  s_data : Value;
  s_date_time : Value;
  s_tag : Value
}.

Record World : Type := mkWorld {
  trace : list Event;                       (* oldest first *)
  clock : Timestamp;
  faults : nat -> bool;
  ops : nat;                                (* operations attempted so far *)
  batch_size : nat;                         (* BATCH_SIZE *)
  source_tables : list (string * DataFrame);(* private_schema *)
  source_conn : conn_state;
  sink_rows : list SinkRow;                 (* grupox *)
  sink_conn : conn_state
}.

Definition emit (e : Event) (w : World) : World :=
  mkWorld (trace w ++ [e])%list (clock w) (faults w) (ops w) (batch_size w)
          (source_tables w) (source_conn w) (sink_rows w) (sink_conn w).

Definition advance (seconds : Z) (w : World) : World :=
  mkWorld (trace w) (clock w + seconds * 1000000000) (faults w) (ops w)
          (batch_size w) (source_tables w) (source_conn w) (sink_rows w)
          (sink_conn w).

Definition set_source_conn (c : conn_state) (w : World) : World :=
  mkWorld (trace w) (clock w) (faults w) (ops w) (batch_size w)
          (source_tables w) c (sink_rows w) (sink_conn w).

Definition set_sink_conn (c : conn_state) (w : World) : World :=
  mkWorld (trace w) (clock w) (faults w) (ops w) (batch_size w)
          (source_tables w) (source_conn w) (sink_rows w) c.

Definition append_sink (rs : list SinkRow) (w : World) : World :=
  mkWorld (trace w) (clock w) (faults w) (ops w) (batch_size w)
          (source_tables w) (source_conn w) (sink_rows w ++ rs)%list (sink_conn w).

Definition tick (w : World) : World :=
  mkWorld (trace w) (clock w) (faults w) (S (ops w)) (batch_size w)
          (source_tables w) (source_conn w) (sink_rows w) (sink_conn w).

(** One operation on a database: it is counted, and it fails when the
    environment says so. *)
Definition attempt {A} (what : string) (ok : Action World A) : Action World A :=
  fun w =>
    if faults w (ops w) then (Raise (DatabaseError what), tick w)
    else ok (tick w).

End Env.
Export Env.

#[export] Instance World_Runtime : Runtime World := {
  logging_info line := emit (LogInfo line);
  logging_error line := emit (LogError line);
  logging_critical line := emit (LogCritical line);
  time_sleep seconds w := advance seconds (emit (Sleep seconds) w)
}.

(* ===================================================================== *)
(** * src/utils/connections.py                                            *)
(* ===================================================================== *)

Module Connections.

(** The body of [connect_to_supabase], before decoration. *)
Definition connect_to_supabase_body : Action World unit :=
  fun w =>
    let w := logging_info "Conectando ao Supabase PostgreSQL..." w in
    match attempt "psycopg2.connect" (fun w => (Ok tt, set_source_conn Opened w)) w with
    | (Ok conn, w) => (Ok conn, logging_info "Conexão ao Supabase estabelecida." w)
    | (Raise e, w) =>
        (Raise e, logging_error ("Erro ao conectar ao Supabase: " ++ str_exn e) w)
    end.

Definition connect_to_supabase : Action World unit :=
  Retry.retry_on_failure "connect_to_supabase" connect_to_supabase_body.

Definition connect_to_clickhouse_body : Action World unit :=
  fun w =>
    let w := logging_info "Conectando ao ClickHouse..." w in
    match attempt "clickhouse_connect.get_client"
            (fun w => (Ok tt, set_sink_conn Opened w)) w with
    | (Ok client, w) => (Ok client, logging_info "Conexão ao ClickHouse estabelecida." w)
    | (Raise e, w) =>
        (Raise e, logging_error ("Erro ao conectar ao ClickHouse: " ++ str_exn e) w)
    end.

Definition connect_to_clickhouse : Action World unit :=
  Retry.retry_on_failure "connect_to_clickhouse" connect_to_clickhouse_body.

End Connections.
Export Connections.

(* ===================================================================== *)
(** * src/utils/clickhouse_utils.py                                       *)
(* ===================================================================== *)

(** The statements are kept structured instead of as SQL text, so the
    quoting of the interpolated values is not part of the model: a tag
    or payload is stored as it is, which is what the text of the
    statement says for values without quote and backslash. *)

Module ClickhouseUtils.

Inductive Query : Type :=
| CreateTableIfNotExists
| CountWhereTag (table_name tag : string)
| InsertValues (tuples : list SinkRow).

(** [client.command(query)]; a statement without a result returns [0]. *)
Definition command (q : Query) : Action World Z :=
  attempt "client.command" (fun w =>
    match q with
    | CreateTableIfNotExists => (Ok 0, w)
    | CountWhereTag table_name tag =>
        if (table_name =? "grupox")%string then
          (Ok (Z.of_nat (List.length
                 (filter (fun r => Value_eqb (s_tag r) (VStr tag)) (sink_rows w)))), w)
        else (Raise (DatabaseError ("Unknown table " ++ table_name)), w)
    | InsertValues tuples => (Ok 0, append_sink tuples w)
    end).

Definition ensure_clickhouse_table : Action World unit :=
  fun w =>
    match command CreateTableIfNotExists w with
    | (Ok _, w) =>
        (Ok tt, logging_info
                  "Ensured ClickHouse table 'grupox' exists with correct schema." w)
    | (Raise e, w) =>
        (Raise e, logging_error ("Error ensuring table in ClickHouse: " ++ str_exn e) w)
    end.

Definition check_existing_records (table_name tag : string) : Action World bool :=
  fun w =>
    let w := logging_info ("Checking if records with tag '" ++ tag
                             ++ "' already exist in '" ++ table_name ++ "'...") w in
    match command (CountWhereTag table_name tag) w with
    | (Ok result, w) => (Ok (0 <? result), w)
    | (Raise e, w) => (Raise e, w)
    end.

(** [df.itertuples(index=False, name=None)] unpacked as
    [(data, date_time, tag)]: every row must have exactly three cells. *)
Definition as_tuple (r : list Value) : Result SinkRow :=
  match r with
  | [a; b; c] => Ok (mkRow a b c)
  | _ => Raise (ValueError "not enough values to unpack")
  end.

Definition load_data_to_ClickHouse (df : DataFrame) : Action World unit :=
  fun w =>
    let w := logging_info "Loading data into ClickHouse..." w in
    match
      match mapM as_tuple (rows df) with
      | Ok tuples => command (InsertValues tuples) w
      | Raise e => (Raise e, w)
      end
    with
    | (Ok _, w) => (Ok tt, logging_info "Data loaded into ClickHouse." w)
    | (Raise e, w) =>
        (Raise e, logging_error ("Error loading data into ClickHouse: " ++ str_exn e) w)
    end.

End ClickhouseUtils.
Export ClickhouseUtils.

(* ===================================================================== *)
(** * src/processing/data_extraction.py                                   *)
(* ===================================================================== *)

Module DataExtraction.

(** [repr] of a list of strings, as the log line prints it. *)
Definition repr_names (names : list string) : string :=
  "[" ++ str_join ", " (map (fun n => "'" ++ n ++ "'") names) ++ "]".

Definition list_supabase_tables : Action World (list string) :=
  fun w =>
    let w := logging_info "Listing tables in Supabase..." w in
    match attempt "cursor.execute"
            (fun w => (Ok (map fst (source_tables w)), w)) w with
    | (Ok table_names, w) =>
        (Ok table_names,
         logging_info ("Found tables in Supabase: " ++ repr_names table_names) w)
    | (Raise e, w) =>
        (Raise e, logging_error ("Error listing tables in Supabase: " ++ str_exn e) w)
    end.

Fixpoint find_table (name : string) (tables : list (string * DataFrame))
  : option DataFrame :=
  match tables with
  | [] => None
  | (n, t) :: tables' => if (n =? name)%string then Some t else find_table name tables'
  end.

(** The state of a server-side cursor: the columns of the result and the
    rows not fetched yet. *)
Record Cursor : Type := mkCursor {
  description : list string;
  pending : list (list Value)
}.

(** [cursor.execute("SELECT * FROM private_schema.<table_name>")] *)
Definition execute_select (table_name : string) : Action World Cursor :=
  attempt "cursor.execute" (fun w =>
    match find_table table_name (source_tables w) with
    | Some t => (Ok (mkCursor (columns t) (rows t)), w)
    | None => (Raise (DatabaseError ("relation does not exist: " ++ table_name)), w)
    end).

(** [cursor.fetchmany(size)]: the next rows, at most [size] of them, and
    the cursor after them. *)
Definition fetchmany (size : nat) (c : Cursor)
  : Action World (list (list Value) * Cursor) :=
  attempt "cursor.fetchmany" (fun w =>
    (Ok (firstn size (pending c), mkCursor (description c) (skipn size (pending c))), w)).

End DataExtraction.
Export DataExtraction.

(* ===================================================================== *)
(** * src/processing/etl_process.py                                       *)
(* ===================================================================== *)

(** [etl_process] imports the loader as [load_data_to_clickhouse] while
    clickhouse_utils.py defines [load_data_to_ClickHouse]; the model binds
    the call to the function that is defined. *)

Module EtlProcess.

Section Run.
Context `{DateLib}.

(** The body of [for batch_df in extract_data_from_supabase(conn, table_name)]
    for one batch: transform, deduplicate, load.  The batch is a fresh
    DataFrame that nothing else refers to. *)
Definition process_batch (table_name : string) (batch_df : DataFrame)
  : Action World unit :=
  fun w =>
    match call (fun df => transformed_df <- transform_data (clock w) df table_name ;;
                          remove_duplicates transformed_df) batch_df with
    | Ok transformed_df => load_data_to_ClickHouse transformed_df w
    | Raise e => (Raise e, w)
    end.

Definition inspect {A} (a : A) : {b : A | a = b} := exist _ a eq_refl.

(** The generator and the loop that consumes it, interleaved as they run:
    fetch, stop on an empty fetch, otherwise process the batch and go on.
    Every non-empty fetch shortens [pending], which bounds the loop. *)
Equations? batches_loop (table_name : string) (c : Cursor) (w : World)
  : Result unit * World by wf (List.length (pending c)) lt :=
  batches_loop table_name c w with inspect (fetchmany (batch_size w) c w) => {
    | exist _ (Raise e, w1) _ =>
        (Raise e,
         logging_error ("Error extracting data from '" ++ table_name
                          ++ "' in Supabase: " ++ str_exn e) w1);
    | exist _ (Ok ([], _), w1) _ => (Ok tt, w1);
    | exist _ (Ok (r :: rs, c1), w1) Hfetch
        with process_batch table_name (mkDF (description c) (r :: rs)) w1 => {
        | (Raise e, w2) => (Raise e, w2);
        | (Ok _, w2) => batches_loop table_name c1 w2 } }.
Proof.
  unfold fetchmany, attempt in Hfetch.
  destruct (faults w (ops w)); [discriminate|].
  injection Hfetch as Hrows Hc _. subst c1. cbn [pending].
  destruct (batch_size w) as [|n]; [discriminate|].
  destruct (pending c) as [|x xs]; [discriminate|].
  cbn [skipn List.length]. pose proof (length_skipn n xs). lia.
Qed.

(** [extract_data_from_supabase] up to the first fetch, then the loop. *)
Definition process_table (table_name : string) : Action World unit :=
  fun w =>
    let w := logging_info ("Extracting data from table '" ++ table_name
                             ++ "' in Supabase...") w in
    match execute_select table_name w with
    | (Ok c, w) => batches_loop table_name c w
    | (Raise e, w) =>
        (Raise e,
         logging_error ("Error extracting data from '" ++ table_name
                          ++ "' in Supabase: " ++ str_exn e) w)
    end.

(** [for table_name in tables: ...] *)
Fixpoint tables_loop (tables : list string) : Action World unit :=
  fun w =>
    match tables with
    | [] => (Ok tt, w)
    | table_name :: tables' =>
        match check_existing_records "grupox" table_name w with
        | (Raise e, w) => (Raise e, w)
        | (Ok true, w) =>
            tables_loop tables'
              (logging_info ("Pulando tabela '" ++ table_name
                               ++ "' (registros com tag '" ++ table_name
                               ++ "' já existem).") w)
        | (Ok false, w) =>
            match process_table table_name w with
            | (Raise e, w) => (Raise e, w)
            | (Ok _, w) => tables_loop tables' w
            end
        end
    end.

(** The [try] block. *)
Definition etl_body : Action World unit :=
  fun w =>
    match ensure_clickhouse_table w with
    | (Raise e, w) => (Raise e, w)
    | (Ok _, w) =>
        match list_supabase_tables w with
        | (Raise e, w) => (Raise e, w)
        | (Ok tables, w) =>
            match tables_loop tables w with
            | (Raise e, w) => (Raise e, w)
            | (Ok _, w) =>
                (Ok tt,
                 logging_info "Todas as tabelas processadas. Fechando conexões." w)
            end
        end
    end.

(** The [finally] block: [conn.close()] and a log line. *)
Definition etl_finally (w : World) : World :=
  logging_info "Processo ETL concluído com sucesso." (set_source_conn Closed w).

Definition etl_process : Action World unit :=
  fun w =>
    match connect_to_supabase w with
    | (Raise e, w) => (Raise e, w)
    | (Ok conn, w) =>
        match connect_to_clickhouse w with
        | (Raise e, w) => (Raise e, w)
        | (Ok clickhouse_client, w) =>
            let (result, w) := etl_body w in
            (result, etl_finally w)
        end
    end.

End Run.
End EtlProcess.
Export EtlProcess.

(* ===================================================================== *)
(** * Vocabulary of the statements                                        *)
(* ===================================================================== *)

Import Json.


(** Undoing the quote escaping. *)
Definition escape_quotes (s : string) : string :=
  str_replace1 squote (String backslash (String squote EmptyString)) s.
Definition unescape_quotes (s : string) : string :=
  str_replace2 backslash squote (String squote EmptyString) s.

Definition holds (h : Heap) (r : Ref) (d : DataFrame) : Prop :=
  nth_error h r = Some d.

(** [h'] extends [h] and agrees with it except possibly at [r]. *)
Definition same_elsewhere (r : Ref) (h h' : Heap) : Prop :=
  (List.length h <= List.length h')%nat
  /\ forall q, (q < List.length h)%nat -> q <> r -> nth_error h' q = nth_error h q.

(** [stage] computes [f] on the contents of its argument: it returns an
    object holding the result, which is its argument or a new object, and
    it leaves every other object alone. *)
Definition stage_spec (stage : Ref -> M Ref) (f : DataFrame -> Result DataFrame)
  : Prop :=
  forall h r d, holds h r d ->
    exists h', same_elsewhere r h h'
      /\ match f d with
         | Ok d' =>
             exists r', stage r h = (Ok r', h') /\ holds h' r' d'
                        /\ (r' = r \/ (List.length h <= r')%nat)
         | Raise e => stage r h = (Raise e, h')
         end.

(** An attempt counter next to the world, to count invocations. *)
#[export] Instance Counted_Runtime {W} `{Runtime W} : Runtime (W * nat) := {
  logging_info line s := (logging_info line (fst s), snd s);
  logging_error line s := (logging_error line (fst s), snd s);
  logging_critical line s := (logging_critical line (fst s), snd s);
  time_sleep seconds s := (time_sleep seconds (fst s), snd s)
}.

Definition counted {W A} (func : Action W A) : Action (W * nat) A :=
  fun s => let (r, w) := func (fst s) in (r, (w, S (snd s))).


(** A string between double quotes, as it appears in a JSON document. *)
Definition quoted (s : string) : string :=
  String dquote (s ++ String dquote EmptyString).

(** The batch of the end-to-end scenario. *)
Definition orders_batch : DataFrame :=
  mkDF ["status"; "amount"; "category"; "date_created"]
       [[VStr "active"; VInt 500; VStr "a"; VStr "2024-01-05"];
        [VStr "inactive"; VInt 10; VStr "a"; VStr "2024-01-06"]].

(** A date library for running the model on examples. *)
#[export] Instance fixed_dates : DateLib := {
  strftime := fun _ => "1970-01-01 00:00:00";
  parse_datetime := fun _ => None;
  strftime_length := fun _ => eq_refl
}.

(** The amount of a record lies between 0 and 1,000,000, both included. *)
Definition in_range (v : Value) : bool :=
  match Num.to_Q v with
  | Some q => (Qle_bool (inject_Z 0) q && Qle_bool q (inject_Z 1000000))%bool
  | None => false
  end.

Definition number_or_missing (v : Value) : bool :=
  match v with
  | VInt _ | VFloat _ | VNull => true
  | _ => false
  end.

(** No row of the batch has a missing cell. *)
Definition complete (d : DataFrame) : Prop :=
  forall r c, In r (rows d) -> In c (columns d) -> isna (cell d c r) = false.

(** [c.upper()] for a lower-case ASCII letter. *)
Definition upper_letter (c : ascii) : ascii := ascii_of_N (N_of_ascii c - 32).

(** [s] spells the lower-case word [word], each letter in either case. *)
Fixpoint is_capitalization (word s : string) : bool :=
  match word, s with
  | EmptyString, EmptyString => true
  | String w word', String c s' =>
      (((c =? w)%char || (c =? upper_letter w)%char)
       && is_capitalization word' s')%bool
  | _, _ => false
  end.

Definition capitalization_of_active (v : Value) : bool :=
  match v with
  | VStr s => is_capitalization "active" s
  | _ => false
  end.

(** A batch with a row that has a missing value. *)
Definition gappy_batch : DataFrame :=
  mkDF ["id"; "name"] [[VInt 1; VStr "Ana"]; [VInt 2; VNull]].

(** The stages of [transform_data] after [normalize_data]. *)
Definition after_normalize `{DateLib} (now : Timestamp) (table_name : string) (df : Ref)
  : M Ref :=
  df <- aggregate_data df ;;
  df <- filter_data df ;;
  df <- convert_data_types df ;;
  df <- remove_duplicates df ;;
  df <- map_fields df ;;
  df <- validate_data df ;;
  d <- deref df ;;
  data <- lift (mapM (payload d) (rows d)) ;;
  update df (set_col d "data" data) ;;;
  d <- deref df ;;
  update df (set_col_scalar d "tag" (VStr table_name)) ;;;
  d <- deref df ;;
  (if negb (has_column d "date_time")
   then update df (set_col_scalar d "date_time" (VTime (Some now)))
   else ret tt) ;;;
  d <- deref df ;;
  new (select_columns ["data"; "date_time"; "tag"] d).


(** The rows of the sink that carry a tag. *)
Definition has_tag (tag : string) (r : SinkRow) : bool :=
  Value_eqb (s_tag r) (VStr tag).

Definition tagged (tag : string) (rs : list SinkRow) : list SinkRow :=
  filter (has_tag tag) rs.

(** A world with two small source tables, nothing loaded and no faults. *)
Definition quiet_world : World :=
  mkWorld [] 0 (fun _ => false) O 1%nat
          [("orders", orders_batch);
           ("people", mkDF ["id"; "name"] [[VInt 1; VStr "Ana"]])]
          NotOpened [] NotOpened.

(** The same world, where the fifth database operation (listing the
    source tables) fails. *)
Definition faulty_world : World :=
  mkWorld [] 0 (fun k => Nat.eqb k 3) O 1%nat
          [("orders", orders_batch)] NotOpened [] NotOpened.

(** What an action may do to the sink: leave the connection as it is and
    append rows that satisfy [P]. *)
Definition appends {A} (P : SinkRow -> Prop) (a : Action World A) : Prop :=
  forall w res w',
    a w = (res, w') ->
    sink_conn w' = sink_conn w
    /\ exists added, sink_rows w' = (sink_rows w ++ added)%list /\ Forall P added.


(** How a cell of the normalized batch relates to the cell it comes
    from: lower-cased, and possibly reformatted. *)
Definition normal_cell `{DateLib} (v v' : Value) : Prop :=
  v' = lower_if_str v \/ v' = dt_strftime (lower_if_str v).

Definition normal_rows `{DateLib} (b out : DataFrame) : Prop :=
  columns out = columns b
  /\ Forall2 (fun r r' => forall c, normal_cell (cell b c r) (cell out c r'))
       (rows b) (rows out).

(** Every cell of column [c] is a time. *)
Definition times_at (d : DataFrame) (c : string) : Prop :=
  forall r, In r (rows d) -> is_time (cell d c r) = true.

(** A [date_time] column, when there is one, holds times. *)
Definition date_time_is_time (d : DataFrame) : Prop :=
  has_column d "date_time" = true -> times_at d "date_time".

(** The row carries the name of the table as its tag. *)
Definition tagged_with (table_name : string) (row : SinkRow) : Prop :=
  s_tag row = VStr table_name.

(** An operation that fails whenever it is tried. *)
Definition always_down : Action World unit :=
  fun w => (Raise (DatabaseError "connection refused"), tick w).

(** A batch with statuses in several capitalizations. *)
Definition status_batch : DataFrame :=
  mkDF ["status"; "x"]
       [[VStr "Active"; VInt 1]; [VStr "inactive"; VInt 2];
        [VStr "ACTIVE"; VNull]; [VStr "aCtIvE"; VInt 4]; [VStr "activE "; VInt 5]].

(* ===================================================================== *)
(** * Further vocabulary                                                  *)
(* ===================================================================== *)

(** An operation that fails the first time it is tried in a run and
    returns [7] afterwards. *)
Definition flaky : Action World Z :=
  fun w => if Nat.eqb (ops w) 0
           then (Raise (ValueError "not yet"), tick w)
           else (Ok 7, tick w).

(** No database operation fails from the state [w] on. *)
Definition no_faults (w : World) : Prop :=
  forall k, (ops w <= k)%nat -> faults w k = false.

(** The nanoseconds of [s] seconds. *)
Definition seconds (s : Z) : Z := s * 1000000000.

(** What a failed attempt leaves behind: an error line and the pause. *)
Definition after_failure (name : string) (e : exn) (k : Z) (w : World) : World :=
  time_sleep Retry.RETRY_DELAY (logging_error (Retry.error_line name e k) w).


(** A world in which the first [n] database operations fail. *)
Definition down_for (n : nat) : World :=
  mkWorld [] 0 (fun k => Nat.ltb k n) O 1%nat
          [("orders", orders_batch)] NotOpened [] NotOpened.

(** A world in which the source answers and the next three operations
    fail. *)
Definition sink_down : World :=
  mkWorld [] 0 (fun k => (Nat.leb 1 k && Nat.leb k 3)%bool) O 1%nat
          [("orders", orders_batch)] NotOpened [] NotOpened.

(** A batch with repeated rows. *)
Definition repeats_batch : DataFrame :=
  mkDF ["id"; "name"]
       [[VInt 1; VStr "ana"]; [VInt 2; VStr "bo"]; [VInt 1; VStr "ana"];
        [VInt 2; VStr "bo"]; [VInt 3; VStr "ana"]].

(** The cell is text or a time: what cannot be compared with a number. *)
Definition not_comparable (v : Value) : bool :=
  match v with
  | VStr _ | VTime _ => true
  | _ => false
  end.

(** A batch whose amounts are partly text. *)
Definition text_amount_batch : DataFrame :=
  mkDF ["id"; "amount"] [[VInt 1; VInt 10]; [VInt 2; VStr "n/a"]].

(** The text of an integer column, and the integers it denotes. *)
Definition int_texts (ns : list Z) : list Value := map (fun n => VStr (str_int n)) ns.
Definition ints (ns : list Z) : list Value := map VInt ns.

(** The cell is text that does not read as a number. *)
Definition not_a_number (v : Value) : bool :=
  match v with
  | VStr s => match parse_number s with Some _ => false | None => true end
  | _ => false
  end.

(** A batch with numbers written as text, a column that mixes numbers and
    words, and a date column. *)
Definition texts_batch : DataFrame :=
  mkDF ["qty"; "code"; "update_date"]
       [[VStr "12"; VStr "7"; VStr "05/01/2024"];
        [VStr "-3"; VStr "n/a"; VStr "soon"];
        [VStr "0"; VStr "9"; VStr "06/01/2024"]].

(** The sum of the integers of a column. *)
Definition int_sum (vals : list Value) : Z :=
  fold_right (fun v acc => match v with VInt n => n + acc | _ => acc end) 0 vals.

(** Sales by category, with a category that occurs twice. *)
Definition sales_batch : DataFrame :=
  mkDF ["category"; "amount"; "status"]
       [[VStr "pears"; VInt 5; VStr "active"];
        [VStr "apples"; VInt 7; VStr "inactive"];
        [VStr "pears"; VInt 30; VStr "active"]].

(** The text of the cells of a column. *)
Definition texts (ss : list string) : list Value := map VStr ss.

(** [s] comes before [t] in code-point order. *)
Definition str_lt (s t : string) : Prop := String.compare s t = Lt.

(** A table with a date column. *)
Definition events_batch : DataFrame :=
  mkDF ["id"; "update_date"]
       [[VInt 1; VStr "05/01/2024"]; [VInt 2; VStr "soon"]].



(** [quiet_world] with [BATCH_SIZE = 0]. *)
Definition zero_batch_world : World :=
  mkWorld [] 0 (fun _ => false) O 0%nat
          [("orders", orders_batch)] Opened [] Opened.

(** The row carries the name of one of the tables as its tag, and text
    as its payload. *)
Definition row_of_tables (tables : list string) (row : SinkRow) : Prop :=
  exists t p, In t tables /\ s_tag row = VStr t /\ s_data row = VStr p.




(** Every character of [s] is printable ASCII. *)
Fixpoint printable_ascii (s : string) : bool :=
  match s with
  | EmptyString => true
  | String c s' =>
      ((32 <=? N_of_ascii c)%N && (N_of_ascii c <=? 126)%N && printable_ascii s')%bool
  end.

(** A row with text outside ASCII, quotes and a line break. *)
Definition accents_batch : DataFrame :=
  mkDF ["name"; "note"]
       [[VStr ("Jos" ++ String "233"%char ""); VStr ("it's" ++ String "010"%char "ok")]].

(** No database operation attempted between [w] and [w'] failed. *)
Definition fault_free (w w' : World) : Prop :=
  forall k, (ops w <= k < ops w')%nat -> faults w k = false.

(** An action that neither changes the oracle of faults nor hides a
    fault: its operations are counted, and when it returns normally
    none of them failed. *)
Definition honest {A} (a : Action World A) : Prop :=
  forall w res w',
    a w = (res, w') ->
    faults w' = faults w
    /\ (ops w <= ops w')%nat
    /\ (forall x, res = Ok x -> fault_free w w').

(* ---------------------------------------------------------------------- *)
(** ** Records that serialize                                              *)
(* ---------------------------------------------------------------------- *)









(* ---------------------------------------------------------------------- *)
(** ** Names that can be pasted into a query                               *)
(* ---------------------------------------------------------------------- *)

(** The statements of clickhouse_utils.py are built by pasting the tag
    between single quotes.  A name without a quote and without a
    backslash reads there as itself, which is what the structured
    statements of the model assume. *)
Fixpoint plain_name (s : string) : bool :=
  match s with
  | EmptyString => true
  | String c s' =>
      (negb (c =? squote)%char && negb (c =? backslash)%char && plain_name s')%bool
  end.

(** A batch all of whose rows have a missing value, and a world whose
    source holds a table without rows and a table with that batch. *)
Definition drafts_batch : DataFrame :=
  mkDF ["id"; "name"] [[VInt 2; VNull]].

Definition drafts_world : World :=
  mkWorld [] 0 (fun _ => false) O 1%nat
          [("empty", mkDF ["id"; "name"] []); ("drafts", drafts_batch)]
          NotOpened [] NotOpened.

(** The line that [etl_process] logs when it skips a table. *)
Definition skip_line (table_name : string) : Event :=
  LogInfo ("Pulando tabela '" ++ table_name ++ "' (registros com tag '"
             ++ table_name ++ "' já existem).").

(* ---------------------------------------------------------------------- *)
(** ** Text that is certainly not a number                                 *)
(* ---------------------------------------------------------------------- *)

Fixpoint all_chars (p : ascii -> bool) (s : string) : bool :=
  match s with
  | EmptyString => true
  | String c s' => (p c && all_chars p s')%bool
  end.

(** The characters of the literals that the model reads as numbers. *)
Definition number_glyph (c : ascii) : bool :=
  let n := N_of_ascii c in
  (((48 <=? n) && (n <=? 57)) || (n =? 43) || (n =? 45) || (n =? 46))%N%bool.

(** The characters that can occur in a text that [pd.to_numeric] reads as
    a number, generously: letters (exponents, [nan], [inf]), digits,
    blanks, signs, the point, the comma and the underscore. *)
Definition may_be_numeric (c : ascii) : bool :=
  let n := N_of_ascii c in
  (((48 <=? n) && (n <=? 57)) || ((65 <=? n) && (n <=? 90))
   || ((97 <=? n) && (n <=? 122)) || ((9 <=? n) && (n <=? 13)) || (n =? 32)
   || (n =? 43) || (n =? 44) || (n =? 45) || (n =? 46) || (n =? 95))%N%bool.

(** The cell is text with a character that no number is written with. *)
Definition clearly_text (v : Value) : bool :=
  match v with
  | VStr s => negb (all_chars may_be_numeric s)
  | _ => false
  end.

(** The integers of a 64-bit column. *)
Definition int64 (n : Z) : Prop := - 2 ^ 63 <= n < 2 ^ 63.

(** The sum of the absolute values of the integers of a column. *)
Definition abs_sum (vals : list Value) : Z :=
  fold_right (fun v acc => match v with VInt n => Z.abs n + acc | _ => acc end) 0 vals.



(* ---------------------------------------------------------------------- *)
(** ** The import statements of etl_process.py                             *)
(* ---------------------------------------------------------------------- *)

(** [from module import n1, ..., nk] looks the names up, in order and with
    their exact spelling, among the names that the module binds at its top
    level; the first one that is not found ends the import with
    [ImportError]. *)
Module Imports.







End Imports.

(* ---------- Cells and columns ---------- *)

Lemma col_index_nth (c : string) (cols : list string) (i : nat) :
  col_index c cols = Some i -> nth_error cols i = Some c.
Proof.
  revert i. induction cols as [|c' cols IH]; intros i; cbn [col_index]; [discriminate|].
  destruct (String.eqb_spec c' c) as [->|Hne].
  - now intros [= <-].
  - destruct (col_index c cols) as [j|]; [|discriminate].
    intros [= <-]. cbn. now apply IH.
Qed.

Lemma col_index_lt (c : string) (cols : list string) (i : nat) :
  col_index c cols = Some i -> (i < List.length cols)%nat.
Proof.
  intros Hi. apply nth_error_Some. rewrite (col_index_nth _ _ _ Hi). discriminate.
Qed.

Lemma col_index_In (c : string) (cols : list string) :
  In c cols -> exists i, col_index c cols = Some i.
Proof.
  induction cols as [|c' cols IH]; intros Hin; [contradiction|].
  cbn [col_index]. destruct (String.eqb_spec c' c) as [->|Hne]; [eauto|].
  destruct Hin as [->|Hin]; [congruence|].
  destruct (IH Hin) as [i ->]. eauto.
Qed.

Lemma col_index_None (c : string) (cols : list string) :
  col_index c cols = None -> ~ In c cols.
Proof.
  intros Hn Hin. destruct (col_index_In _ _ Hin) as [i Hi]. congruence.
Qed.

Lemma col_index_app_other (c c' : string) (cols : list string) :
  c' <> c -> col_index c' (cols ++ [c])%list = col_index c' cols.
Proof.
  intros Hne. induction cols as [|x cols IH]; cbn [col_index app].
  - destruct (String.eqb_spec c c'); [congruence|reflexivity].
  - now rewrite IH.
Qed.

Lemma col_index_app_new (c : string) (cols : list string) :
  col_index c cols = None -> col_index c (cols ++ [c])%list = Some (List.length cols).
Proof.
  induction cols as [|x cols IH]; cbn [col_index app List.length].
  - now rewrite String.eqb_refl.
  - destruct (x =? c)%string; [discriminate|].
    destruct (col_index c cols); [discriminate|].
    intros _. now rewrite IH.
Qed.

Lemma col_index_map (f : string -> string) (k : string) (cols : list string) :
  (forall c, (f c =? k)%string = (c =? k)%string) ->
  col_index k (map f cols) = col_index k cols.
Proof.
  intros Hf. induction cols as [|c cols IH]; cbn [col_index map]; [reflexivity|].
  now rewrite Hf, IH.
Qed.

Lemma nth_put_same (i : nat) (v : Value) (r : list Value) :
  nth i (put i v r) VNull = v.
Proof.
  revert r. induction i as [|i IH]; intros [|y r]; cbn; auto.
Qed.

Lemma nth_put_other (i j : nat) (v : Value) (r : list Value) :
  i <> j -> nth j (put i v r) VNull = nth j r VNull.
Proof.
  revert j r. induction i as [|i IH]; intros [|j] [|y r] Hne; cbn; auto; try congruence.
  - now destruct j.
  - rewrite IH by congruence. now destruct j.
Qed.

Lemma has_column_In (d : DataFrame) (c : string) :
  has_column d c = true <-> In c (columns d).
Proof.
  unfold has_column. split.
  - destruct (col_index c (columns d)) as [i|] eqn:Hi; [|discriminate].
    intros _. eapply nth_error_In, col_index_nth; eauto.
  - intros Hin. destruct (col_index_In _ _ Hin) as [i ->]. reflexivity.
Qed.

Lemma columns_with_present (d : DataFrame) (c : string) :
  has_column d c = true -> columns_with d c = columns d.
Proof. unfold columns_with. now intros ->. Qed.

Lemma col_index_columns_with_same (d : DataFrame) (c : string) :
  col_index c (columns_with d c) = Some (target d c).
Proof.
  unfold columns_with, target, has_column.
  destruct (col_index c (columns d)) as [i|] eqn:Hi; [exact Hi|].
  now apply col_index_app_new.
Qed.

Lemma col_index_columns_with_other (d : DataFrame) (c c' : string) :
  c' <> c -> col_index c' (columns_with d c) = col_index c' (columns d).
Proof.
  intros Hne. unfold columns_with. destruct (has_column d c); [reflexivity|].
  now apply col_index_app_other.
Qed.

Lemma target_other (d : DataFrame) (c c' : string) (j : nat) :
  c' <> c -> col_index c' (columns d) = Some j -> target d c <> j.
Proof.
  intros Hne Hj. unfold target.
  destruct (col_index c (columns d)) as [i|] eqn:Hi.
  - intros ->. apply col_index_nth in Hi, Hj. congruence.
  - apply col_index_lt in Hj. lia.
Qed.

(** Reading a row after the write of a column assignment. *)
Lemma cell_put_same (d d' : DataFrame) (c : string) (v : Value) (r : list Value) :
  columns d' = columns_with d c ->
  cell d' c (put (target d c) v r) = v.
Proof.
  intros Hc. unfold cell. rewrite Hc, col_index_columns_with_same.
  apply nth_put_same.
Qed.

Lemma cell_put_other (d d' : DataFrame) (c c' : string) (v : Value) (r : list Value) :
  columns d' = columns_with d c -> c' <> c ->
  cell d' c' (put (target d c) v r) = cell d c' r.
Proof.
  intros Hc Hne. unfold cell. rewrite Hc, (col_index_columns_with_other _ _ _ Hne).
  destruct (col_index c' (columns d)) as [j|] eqn:Hj; [|reflexivity].
  apply nth_put_other. eapply target_other; eauto.
Qed.

Lemma has_column_columns_with (d d' : DataFrame) (c c' : string) :
  columns d' = columns_with d c -> c' <> c ->
  has_column d' c' = has_column d c'.
Proof.
  intros Hc Hne. unfold has_column.
  now rewrite Hc, (col_index_columns_with_other _ _ _ Hne).
Qed.

Lemma cell_same_columns (d d' : DataFrame) (c : string) (r : list Value) :
  columns d' = columns d -> cell d' c r = cell d c r.
Proof. intros Hc. unfold cell. now rewrite Hc. Qed.

Lemma cell_map (f : Value -> Value) (d d' : DataFrame) (c : string) (r : list Value) :
  f VNull = VNull -> columns d' = columns d ->
  cell d' c (map f r) = f (cell d c r).
Proof.
  intros Hf Hc. unfold cell. rewrite Hc.
  destruct (col_index c (columns d)) as [i|]; [|now rewrite Hf].
  rewrite <- Hf at 1. apply map_nth.
Qed.

(* ---------- Results of loops over lists ---------- *)

Lemma mapM_Forall2 {A B} (f : A -> Result B) (l : list A) (ys : list B) :
  mapM f l = Ok ys -> Forall2 (fun x y => f x = Ok y) l ys.
Proof.
  revert ys. induction l as [|x l IH]; intros ys; cbn [mapM].
  - intros [= <-]. constructor.
  - destruct (f x) as [y|e] eqn:Hx; [|discriminate]. cbn [bind].
    destruct (mapM f l) as [ys'|e]; [|discriminate]. cbn [bind].
    intros [= <-]. constructor; auto.
Qed.

Lemma Forall2_combine_In {A B} (P : A -> B -> Prop) (l : list A) (ys : list B) x y :
  Forall2 P l ys -> In (x, y) (combine l ys) -> In x l /\ P x y.
Proof.
  induction 1 as [|a b l ys Hab HF IH]; cbn; [contradiction|].
  intros [[= -> ->]|Hin]; [auto|]. destruct (IH Hin). auto.
Qed.

Lemma select_mask_In {A} (l : list A) (mask : list bool) (x : A) :
  In x (select_mask l mask) -> In x l.
Proof.
  revert mask. induction l as [|a l IH]; intros [|b mask]; cbn; try contradiction.
  destruct b; cbn; intros Hin; [destruct Hin|]; eauto.
Qed.

Lemma select_mask_filter {A} (p : A -> bool) (l : list A) :
  select_mask l (map p l) = filter p l.
Proof.
  induction l as [|a l IH]; cbn; [reflexivity|]. rewrite IH. now destruct (p a).
Qed.

Lemma distinct_from_In {A} (eqb : A -> A -> bool) (seen l : list A) (x : A) :
  In x (distinct_from eqb seen l) -> In x l.
Proof.
  revert seen. induction l as [|a l IH]; intros seen; cbn; [contradiction|].
  destruct (existsb (eqb a) seen); cbn; intros Hin; [|destruct Hin]; eauto.
Qed.

(* ---------- Dictionaries ---------- *)







Lemma lookup_dict_set {V} (k k' : string) (v : V) (d : dict V) :
  lookup k (dict_set k' v d) = if (k' =? k)%string then Some v else lookup k d.
Proof.
  induction d as [|[k0 v0] d IH]; cbn; [reflexivity|].
  destruct (String.eqb_spec k0 k') as [->|Hne]; cbn.
  - now destruct (k' =? k)%string.
  - rewrite IH. destruct (String.eqb_spec k0 k) as [->|Hne0]; [|reflexivity].
    destruct (String.eqb_spec k' k); congruence.
Qed.

Lemma lookup_In {V} (k : string) (v : V) (d : dict V) :
  lookup k d = Some v -> In (k, v) d.
Proof.
  induction d as [|[k0 v0] d IH]; cbn; [discriminate|].
  destruct (String.eqb_spec k0 k) as [->|Hne]; [intros [= ->]; auto|auto].
Qed.

(** The dictionary of a row maps every column to its cell. *)
Lemma lookup_to_dict (d : DataFrame) (r : list Value) (c : string) :
  In c (columns d) -> lookup c (to_dict d r) = Some (cell d c r).
Proof.
  unfold to_dict, dict_of_items.
  assert (Hgen : forall cols acc,
            lookup c (fold_left (fun d0 kv => dict_set (fst kv) (snd kv) d0)
                        (map (fun c0 => (c0, cell d c0 r)) cols) acc)
            = if existsb (String.eqb c) cols then Some (cell d c r) else lookup c acc).
  { induction cols as [|c0 cols IH]; intros acc; cbn; [reflexivity|].
    rewrite IH, lookup_dict_set, (String.eqb_sym c c0).
    destruct (String.eqb_spec c0 c) as [->|Hne]; cbn;
      now destruct (existsb (String.eqb c) cols). }
  intros Hin. rewrite Hgen.
  assert (existsb (String.eqb c) (columns d) = true) as ->; [|reflexivity].
  apply existsb_exists. exists c. split; auto. apply String.eqb_refl.
Qed.

(* ---------- JSON round trip ---------- *)





Lemma char_digit_char (d : digit) : char_digit (digit_char d) = Some d.
Proof. destruct d; reflexivity. Qed.



Lemma read_digits_str (ds : list digit) (rest : string) :
  (forall c r, rest = String c r -> char_digit c = None) ->
  read_digits (str_digits ds ++ rest) = (ds, rest).
Proof.
  intros Hrest. induction ds as [|d ds IH]; simpl.
  - destruct rest as [|c r]; [reflexivity|].
    simpl. now rewrite (Hrest c r eq_refl).
  - rewrite char_digit_char, IH. reflexivity.
Qed.

Lemma digits_val_acc (u : Decimal.uint) (acc : positive) :
  fold_left (fun a d => (10 * a + Num.digit_val d)%N) (uint_digits u) (N.pos acc)
  = N.pos (Pos.of_uint_acc u acc).
Proof.
  revert acc.
  induction u; intros acc;
    cbn [uint_digits fold_left Num.digit_val Pos.of_uint_acc];
    try reflexivity;
    rewrite <- IHu; f_equal; lia.
Qed.

Lemma digits_val_uint (u : Decimal.uint) :
  Num.digits_val (uint_digits u) = N.of_uint u.
Proof.
  unfold Num.digits_val, N.of_uint.
  induction u; cbn [uint_digits fold_left Num.digit_val Pos.of_uint];
    try reflexivity; try assumption;
    apply digits_val_acc.
Qed.

Lemma digits_val_of_N (n : N) : Num.digits_val (digits_of_N n) = n.
Proof.
  unfold digits_of_N. rewrite digits_val_uint. apply DecimalN.Unsigned.of_to.
Qed.

Lemma digits_of_N_nonempty (n : N) : digits_of_N n <> [].
Proof.
  unfold digits_of_N. destruct n as [|p]; simpl; [discriminate|].
  pose proof (DecimalPos.Unsigned.to_uint_nonnil p) as Hp.
  destruct (Pos.to_uint p); simpl; congruence.
Qed.
















Lemma dumps_items_cons (k : string) (v : Value) (d : dict Value) (items : list string) :
  dumps_items ((k, v) :: d) = Ok items ->
  exists sv its, dumps_value v = Ok sv /\ dumps_items d = Ok its
                 /\ items = (encode_string k ++ ": " ++ sv)%string :: its.
Proof.
  cbn [dumps_items].
  destruct (dumps_value v) as [sv|e]; [|discriminate].
  destruct (dumps_items d) as [its|e]; [|discriminate].
  cbn [bind]. intros [= <-]. eauto.
Qed.








(* ---------- Objects ---------- *)


Lemma holds_lt h r d : holds h r d -> (r < List.length h)%nat.
Proof. intros Hh. apply nth_error_Some. unfold holds in Hh. congruence. Qed.

Lemma set_nth_length {A} (i : nat) (x : A) (l : list A) :
  List.length (set_nth i x l) = List.length l.
Proof.
  revert i. induction l as [|y l IH]; intros [|i]; simpl; auto.
Qed.

Lemma set_nth_same {A} (i : nat) (x : A) (l : list A) :
  (i < List.length l)%nat -> nth_error (set_nth i x l) i = Some x.
Proof.
  revert i. induction l as [|y l IH]; intros [|i] Hi; simpl in *; try lia; auto.
  apply IH. lia.
Qed.

Lemma set_nth_other {A} (i q : nat) (x : A) (l : list A) :
  q <> i -> nth_error (set_nth i x l) q = nth_error l q.
Proof.
  revert i q. induction l as [|y l IH]; intros [|i] [|q] Hq; simpl; auto; try congruence.
Qed.

Lemma same_elsewhere_refl r h : same_elsewhere r h h.
Proof. split; auto. Qed.

Lemma same_elsewhere_update r d h : same_elsewhere r h (set_nth r d h).
Proof.
  split; [rewrite set_nth_length; lia|].
  intros q _ Hq. now apply set_nth_other.
Qed.

Lemma same_elsewhere_new r d h : same_elsewhere r h (h ++ [d])%list.
Proof.
  split; [rewrite length_app; simpl; lia|].
  intros q Hq _. now apply nth_error_app1.
Qed.

Lemma same_elsewhere_trans r r1 h h1 h2 :
  same_elsewhere r h h1 -> same_elsewhere r1 h1 h2 ->
  r1 = r \/ (List.length h <= r1)%nat ->
  same_elsewhere r h h2.
Proof.
  intros [Hl1 H1] [Hl2 H2] Hr. split; [lia|].
  intros q Hq Hne. rewrite H2, H1; auto; lia.
Qed.

Lemma holds_new h d : holds (h ++ [d])%list (List.length h) d.
Proof. unfold holds. rewrite nth_error_app2, Nat.sub_diag; auto. Qed.

Lemma holds_update h r d d0 : holds h r d0 -> holds (set_nth r d h) r d.
Proof. intros Hh. apply set_nth_same. eapply holds_lt; eauto. Qed.

Lemma holds_weaken h r d d' : holds h r d -> holds (h ++ [d'])%list r d.
Proof.
  intros Hh. unfold holds. rewrite nth_error_app1; auto. eapply holds_lt; eauto.
Qed.

Lemma deref_holds h r d : holds h r d -> deref r h = (Ok d, h).
Proof. unfold deref, holds. now intros ->. Qed.

Lemma bindM_deref {B} h r d (k : DataFrame -> M B) :
  holds h r d -> bindM (deref r) k h = k d h.
Proof. intros Hh. unfold bindM. now rewrite (deref_holds _ _ _ Hh). Qed.

Lemma bindM_new {B} h d (k : Ref -> M B) :
  bindM (new d) k h = k (List.length h) (h ++ [d])%list.
Proof. reflexivity. Qed.

Lemma bindM_update {B} h r d (k : unit -> M B) :
  bindM (update r d) k h = k tt (set_nth r d h).
Proof. reflexivity. Qed.

Lemma bindM_ret {A B} h (a : A) (k : A -> M B) : bindM (ret a) k h = k a h.
Proof. reflexivity. Qed.

Lemma bindM_run {A B} (m : M A) (k : A -> M B) h a h' :
  m h = (Ok a, h') -> bindM m k h = k a h'.
Proof. intros Hm. unfold bindM. now rewrite Hm. Qed.

(** Sequencing of stages. *)
Lemma stage_spec_seq s1 s2 f1 f2 :
  stage_spec s1 f1 -> stage_spec s2 f2 ->
  stage_spec (fun r => bindM (s1 r) s2) (fun d => bind (f1 d) f2).
Proof.
  intros H1 H2 h r d Hh.
  destruct (H1 h r d Hh) as (h1 & Hse1 & Hres1).
  destruct (f1 d) as [d1|e] eqn:Hf1; cbn [bind].
  - destruct Hres1 as (r1 & Hrun1 & Hh1 & Hr1).
    destruct (H2 h1 r1 d1 Hh1) as (h2 & Hse2 & Hres2).
    exists h2. split; [eapply same_elsewhere_trans; eauto|].
    unfold bindM. rewrite Hrun1.
    destruct (f2 d1) as [d2|e]; [|exact Hres2].
    destruct Hres2 as (r2 & Hrun2 & Hh2 & Hr2).
    exists r2. repeat split; auto.
    destruct Hse1 as [Hl1 _]. destruct Hr1, Hr2; subst; auto; right; lia.
  - exists h1. split; auto. unfold bindM. now rewrite Hres1.
Qed.

(** A stage that rewrites its argument in place and returns it. *)
Lemma stage_spec_inplace (g : DataFrame -> DataFrame) :
  stage_spec (fun df => d <- deref df ;; update df (g d) ;;; ret df)
             (fun d => Ok (g d)).
Proof.
  intros h r d Hh. exists (set_nth r (g d) h).
  split; [apply same_elsewhere_update|].
  exists r. unfold bindM. rewrite (deref_holds _ _ _ Hh). cbn.
  repeat split; auto. eapply holds_update; eauto.
Qed.

(** [call] reads off what the stage computes. *)
Lemma call_spec stage f : stage_spec stage f -> forall d, call stage d = f d.
Proof.
  intros Hs d. unfold call.
  destruct (Hs [d] O d eq_refl) as (h' & _ & Hres).
  destruct (f d) as [d'|e].
  - destruct Hres as (r' & -> & Hh & _). unfold holds in Hh. now rewrite Hh.
  - now rewrite Hres.
Qed.

(** A loop whose body rewrites one object in place. *)
Lemma for_each_spec {A} (df : Ref) (body : A -> M unit)
  (step : DataFrame -> A -> Result DataFrame) :
  (forall x h d, holds h df d ->
     exists h', same_elsewhere df h h'
       /\ match step d x with
          | Ok d' => body x h = (Ok tt, h') /\ holds h' df d'
          | Raise e => body x h = (Raise e, h')
          end) ->
  forall l h d, holds h df d ->
    exists h', same_elsewhere df h h'
      /\ match foldM step l d with
         | Ok d' => for_each l body h = (Ok tt, h') /\ holds h' df d'
         | Raise e => for_each l body h = (Raise e, h')
         end.
Proof.
  intros Hbody l. induction l as [|x l IH]; intros h d Hh; cbn [foldM for_each].
  - exists h. split; [apply same_elsewhere_refl|]. split; auto.
  - destruct (Hbody x h d Hh) as (h1 & Hse1 & Hres1).
    destruct (step d x) as [d1|e]; cbn [bind].
    + destruct Hres1 as [Hrun1 Hh1].
      destruct (IH h1 d1 Hh1) as (h2 & Hse2 & Hres2).
      exists h2. split; [eapply same_elsewhere_trans; eauto|].
      unfold bindM. rewrite Hrun1. exact Hres2.
    + exists h1. split; auto. unfold bindM. now rewrite Hres1.
Qed.

Lemma foldM_pure {A S} (step : S -> A -> S) (l : list A) (s : S) :
  foldM (fun s x => Ok (step s x)) l s = Ok (fold_left step l s).
Proof. revert s. induction l as [|x l IH]; intros s; cbn; auto. Qed.

Section StageSpecs.
Context `{DateLib}.

Lemma clean_data_spec : stage_spec clean_data clean_c.
Proof. apply (stage_spec_inplace dropna). Qed.

Lemma remove_duplicates_spec : stage_spec remove_duplicates dedupe_c.
Proof. apply (stage_spec_inplace drop_duplicates). Qed.

Lemma map_fields_spec : stage_spec map_fields map_c.
Proof. apply (stage_spec_inplace (rename column_mapping)). Qed.

Lemma normalize_data_spec : stage_spec normalize_data normalize_c.
Proof.
  intros h r d Hh. unfold normalize_data, normalize_c.
  set (d1 := applymap lower_if_str d).
  pose proof (holds_new h d1) as Hnew.
  destruct (for_each_spec (List.length h)
              (fun col => d2 <- deref (List.length h) ;;
                          update (List.length h)
                            (set_col_with d2 col (fun r => dt_strftime (cell d2 col r))))
              (fun d col => Ok (strftime_step d col))) with
      (l := select_dtypes_datetime d1) (h := (h ++ [d1])%list) (d := d1)
    as (h2 & Hse2 & Hres2); auto.
  { intros x h0 d0 Hh0. exists (set_nth (List.length h) (strftime_step d0 x) h0).
    split; [apply same_elsewhere_update|].
    rewrite (bindM_deref _ _ _ _ Hh0). cbn.
    split; auto. eapply holds_update; eauto. }
  rewrite foldM_pure in Hres2. destruct Hres2 as [Hrun2 Hh2].
  exists h2. split.
  - eapply same_elsewhere_trans; [apply (same_elsewhere_new r d1)|exact Hse2|].
    right. lia.
  - exists (List.length h).
    rewrite (bindM_deref _ _ _ _ Hh). fold d1. rewrite bindM_new.
    rewrite (bindM_deref _ _ _ _ Hnew).
    rewrite (bindM_run _ _ _ _ _ Hrun2). cbn. repeat split; auto.
Qed.

Lemma aggregate_data_spec : stage_spec aggregate_data aggregate_c.
Proof.
  intros h r d Hh. unfold aggregate_data, aggregate_c, bindM.
  rewrite (deref_holds _ _ _ Hh).
  destruct (has_column d "category" && has_column d "amount")%bool.
  - unfold lift. destruct (groupby_sum "category" "amount" d) as [d'|e].
    + exists (h ++ [d'])%list. split; [apply same_elsewhere_new|].
      exists (List.length h). repeat split; auto. apply holds_new.
    + exists h. split; [apply same_elsewhere_refl|reflexivity].
  - exists h. split; [apply same_elsewhere_refl|].
    exists r. repeat split; auto.
Qed.

Lemma filter_data_spec : stage_spec filter_data filter_c.
Proof.
  intros h r d Hh. unfold filter_data, filter_c, bindM.
  rewrite (deref_holds _ _ _ Hh).
  destruct (has_column d "status").
  - eexists. split; [apply same_elsewhere_new|].
    exists (List.length h). repeat split; auto. apply holds_new.
  - exists h. split; [apply same_elsewhere_refl|].
    exists r. repeat split; auto.
Qed.

Lemma validate_data_spec : stage_spec validate_data validate_c.
Proof.
  intros h r d Hh. unfold validate_data, validate_c, bindM.
  rewrite (deref_holds _ _ _ Hh).
  destruct (has_column d "amount").
  - unfold lift. destruct (mapM (between 0 1000000) (get_col d "amount")) as [mask|e];
      cbn [bind].
    + eexists. split; [apply same_elsewhere_new|].
      exists (List.length h). repeat split; auto. apply holds_new.
    + exists h. split; [apply same_elsewhere_refl|reflexivity].
  - exists h. split; [apply same_elsewhere_refl|].
    exists r. repeat split; auto.
Qed.

Lemma convert_numeric_column_spec (df : Ref) (x : string) h d :
  holds h df d ->
  exists h', same_elsewhere df h h'
    /\ match numeric_step d x with
       | Ok d' => convert_numeric_column df x h = (Ok tt, h') /\ holds h' df d'
       | Raise e => convert_numeric_column df x h = (Raise e, h')
       end.
Proof.
  intros Hh. unfold convert_numeric_column, numeric_step, bindM.
  rewrite (deref_holds _ _ _ Hh).
  destruct (dtype_eqb (dtype_of (get_col d x)) Object).
  - destruct (to_numeric (get_col d x)) as [vals|[m|m|m|m]].
    + eexists. split; [apply same_elsewhere_update|].
      split; [reflexivity|]. eapply holds_update; eauto.
    + exists h. split; [apply same_elsewhere_refl|reflexivity].
    + exists h. split; [apply same_elsewhere_refl|]. split; auto.
    + exists h. split; [apply same_elsewhere_refl|reflexivity].
    + exists h. split; [apply same_elsewhere_refl|reflexivity].
  - exists h. split; [apply same_elsewhere_refl|]. split; auto.
Qed.

Lemma convert_date_column_spec (df : Ref) (x : string) h d :
  holds h df d ->
  exists h', same_elsewhere df h h'
    /\ match Ok (date_step d x) with
       | Ok d' => convert_date_column df x h = (Ok tt, h') /\ holds h' df d'
       | Raise e => convert_date_column df x h = (Raise e, h')
       end.
Proof.
  intros Hh. unfold convert_date_column, date_step.
  destruct (str_contains "date" x).
  - unfold bindM. rewrite (deref_holds _ _ _ Hh).
    eexists. split; [apply same_elsewhere_update|].
    split; [reflexivity|]. eapply holds_update; eauto.
  - exists h. split; [apply same_elsewhere_refl|]. split; auto.
Qed.

Lemma convert_data_types_spec : stage_spec convert_data_types convert_c.
Proof.
  intros h r d Hh. unfold convert_data_types, convert_c.
  destruct (for_each_spec r (convert_numeric_column r) numeric_step
              (convert_numeric_column_spec r) (columns d) h d Hh)
    as (h1 & Hse1 & Hres1).
  rewrite (bindM_deref _ _ _ _ Hh).
  destruct (foldM numeric_step (columns d) d) as [d1|e]; cbn [bind].
  - destruct Hres1 as [Hrun1 Hh1].
    rewrite (bindM_run _ _ _ _ _ Hrun1).
    destruct (for_each_spec r (convert_date_column r)
                (fun d x => Ok (date_step d x))
                (convert_date_column_spec r) (columns d1) h1 d1 Hh1)
      as (h2 & Hse2 & Hres2).
    rewrite foldM_pure in Hres2. destruct Hres2 as [Hrun2 Hh2].
    exists h2. split; [eapply same_elsewhere_trans; eauto|].
    exists r. rewrite (bindM_deref _ _ _ _ Hh1).
    rewrite (bindM_run _ _ _ _ _ Hrun2). cbn. repeat split; auto.
  - exists h1. split; auto. unfold bindM. now rewrite Hres1.
Qed.

Lemma set_nth_twice {A} (i : nat) (a b : A) (l : list A) :
  set_nth i a (set_nth i b l) = set_nth i a l.
Proof.
  revert i. induction l as [|y l IH]; intros [|i]; simpl; auto.
  now rewrite IH.
Qed.

Lemma stamp_spec (now : Timestamp) (table_name : string) :
  stage_spec
    (fun df =>
       d <- deref df ;;
       data <- lift (mapM (payload d) (rows d)) ;;
       update df (set_col d "data" data) ;;;
       d <- deref df ;;
       update df (set_col_scalar d "tag" (VStr table_name)) ;;;
       d <- deref df ;;
       (if negb (has_column d "date_time")
        then update df (set_col_scalar d "date_time" (VTime (Some now)))
        else ret tt) ;;;
       d <- deref df ;;
       new (select_columns ["data"; "date_time"; "tag"] d))
    (stamp_c now table_name).
Proof.
  intros h r d Hh. unfold stamp_c.
  rewrite (bindM_deref _ _ _ _ Hh).
  destruct (mapM (payload d) (rows d)) as [data|e]; cbn [bind].
  2:{ exists h. split; [apply same_elsewhere_refl|reflexivity]. }
  set (d1 := set_col d "data" data).
  set (d2 := set_col_scalar d1 "tag" (VStr table_name)).
  set (d3 := if negb (has_column d2 "date_time")
             then set_col_scalar d2 "date_time" (VTime (Some now)) else d2).
  pose proof (holds_lt _ _ _ Hh) as Hlt.
  assert (Hup : forall a, holds (set_nth r a h) r a).
  { intros a. eapply holds_update; eauto. }
  exists (set_nth r d3 h ++ [select_columns ["data"; "date_time"; "tag"] d3])%list.
  split.
  { eapply same_elsewhere_trans;
      [apply (same_elsewhere_update r d3)|apply (same_elsewhere_new r)|auto]. }
  exists (List.length h). split; [|split].
  - unfold lift. rewrite (bindM_run _ _ h data h eq_refl).
    rewrite bindM_update, (bindM_deref _ _ _ _ (Hup _)). fold d1.
    rewrite bindM_update, set_nth_twice, (bindM_deref _ _ _ _ (Hup _)). fold d2.
    assert (Hstep : forall k : unit -> M Ref,
               bindM (if negb (has_column d2 "date_time")
                      then update r (set_col_scalar d2 "date_time" (VTime (Some now)))
                      else ret tt) k (set_nth r d2 h)
               = k tt (set_nth r d3 h)).
    { intros k. subst d3. destruct (negb (has_column d2 "date_time")).
      - now rewrite bindM_update, set_nth_twice.
      - now rewrite bindM_ret. }
    rewrite Hstep, (bindM_deref _ _ _ _ (Hup _)).
    unfold new. now rewrite set_nth_length.
  - rewrite <- (set_nth_length r d3 h). apply holds_new.
  - right. lia.
Qed.

Lemma transform_data_spec (now : Timestamp) (table_name : string) :
  stage_spec (fun df => transform_data now df table_name)
             (transform_c now table_name).
Proof.
  unfold transform_data, transform_c.
  repeat (apply stage_spec_seq;
          [first [ apply clean_data_spec | apply normalize_data_spec
                 | apply aggregate_data_spec | apply filter_data_spec
                 | apply convert_data_types_spec | apply remove_duplicates_spec
                 | apply map_fields_spec | apply validate_data_spec ] |]).
  apply stamp_spec.
Qed.

End StageSpecs.

(* ---------- Retry ---------- *)


Section RetryFacts.
Context {W A : Type} `{Runtime W}.
Variable name : string.
Variable func : Action W A.

Lemma retry_loop_exit (retries : Z) (w : W) :
  Retry.MAX_RETRIES <= retries ->
  Retry.retry_loop name func retries w
  = (Raise (Retry.fatal name), logging_critical (Retry.critical_line name) w).
Proof.
  intros Hge. rewrite Retry.retry_loop_equation_1.
  destruct (Z_lt_dec retries Retry.MAX_RETRIES) as [Hlt|Hnlt]; [lia|].
  reflexivity.
Qed.

Lemma retry_loop_fail (retries : Z) (w w1 : W) (e : exn) :
  retries < Retry.MAX_RETRIES ->
  func w = (Raise e, w1) ->
  Retry.retry_loop name func retries w
  = Retry.retry_loop name func (retries + 1)
      (time_sleep Retry.RETRY_DELAY
         (logging_error (Retry.error_line name e (retries + 1)) w1)).
Proof.
  intros Hlt Hf. rewrite Retry.retry_loop_equation_1.
  destruct (Z_lt_dec retries Retry.MAX_RETRIES) as [Hlt'|Hnlt]; [|lia].
  cbn. rewrite Hf. reflexivity.
Qed.

Lemma retry_loop_ok (retries : Z) (w w1 : W) (a : A) :
  retries < Retry.MAX_RETRIES ->
  func w = (Ok a, w1) ->
  Retry.retry_loop name func retries w = (Ok a, w1).
Proof.
  intros Hlt Hf. rewrite Retry.retry_loop_equation_1.
  destruct (Z_lt_dec retries Retry.MAX_RETRIES) as [Hlt'|Hnlt]; [|lia].
  cbn. rewrite Hf. reflexivity.
Qed.

End RetryFacts.

(** C4. A wrapped operation that fails at every invocation is invoked
    three times; each failure is logged with its number out of three and
    followed by a pause of five seconds (the third one too); then one
    critical line is logged and one exception naming the operation and
    the number of attempts is raised. *)
Theorem retry_exhaustion {W A : Type} `{Runtime W}
  (name : string) (func : Action W A) (w : W) :
  (forall w0, exists e w1, func w0 = (Raise e, w1)) ->
  exists e1 w1 e2 w2 e3 w3,
    func w = (Raise e1, w1)
    /\ func (time_sleep 5 (logging_error (Retry.error_line name e1 1) w1))
       = (Raise e2, w2)
    /\ func (time_sleep 5 (logging_error (Retry.error_line name e2 2) w2))
       = (Raise e3, w3)
    /\ Retry.retry_on_failure name func w
       = (Raise (Exception ("Function " ++ name ++ " failed after 3 attempts.")),
          logging_critical (Retry.critical_line name)
            (time_sleep 5 (logging_error (Retry.error_line name e3 3) w3)))
    /\ snd (snd (Retry.retry_on_failure name (counted func) (w, O))) = 3%nat.
Proof.
  intros Hfail.
  destruct (Hfail w) as (e1 & w1 & H1).
  destruct (Hfail (time_sleep 5 (logging_error (Retry.error_line name e1 1) w1)))
    as (e2 & w2 & H2).
  destruct (Hfail (time_sleep 5 (logging_error (Retry.error_line name e2 2) w2)))
    as (e3 & w3 & H3).
  exists e1, w1, e2, w2, e3, w3. repeat split; auto.
  - unfold Retry.retry_on_failure, Retry.wrapper.
    rewrite (retry_loop_fail name func 0 w w1 e1) by (auto; reflexivity).
    rewrite (retry_loop_fail name func (0 + 1) _ w2 e2) by (auto; reflexivity).
    rewrite (retry_loop_fail name func (0 + 1 + 1) _ w3 e3) by (auto; reflexivity).
    rewrite retry_loop_exit by (unfold Retry.MAX_RETRIES; lia).
    reflexivity.
  - unfold Retry.retry_on_failure, Retry.wrapper.
    assert (Hc : forall s, exists e w', counted func s = (Raise e, (w', S (snd s)))).
    { intros [w0 n]. unfold counted. cbn [fst snd].
      destruct (Hfail w0) as (e & w' & ->). eauto. }
    destruct (Hc (w, O)) as (c1 & v1 & Hc1).
    rewrite (retry_loop_fail name (counted func) 0 _ _ c1 ltac:(reflexivity) Hc1).
    match goal with |- context [Retry.retry_loop _ _ _ ?s] => destruct (Hc s) as (c2 & v2 & Hc2) end.
    rewrite (retry_loop_fail name (counted func) (0 + 1) _ _ c2 ltac:(reflexivity) Hc2).
    match goal with |- context [Retry.retry_loop _ _ _ ?s] => destruct (Hc s) as (c3 & v3 & Hc3) end.
    rewrite (retry_loop_fail name (counted func) (0 + 1 + 1) _ _ c3 ltac:(reflexivity) Hc3).
    rewrite retry_loop_exit by (unfold Retry.MAX_RETRIES; lia).
    reflexivity.
Qed.

Lemma retry_exhaustion_witness :
  fst (Retry.retry_on_failure "connect" always_down quiet_world)
  = Raise (Exception "Function connect failed after 3 attempts.")
  /\ ops (snd (Retry.retry_on_failure "connect" always_down quiet_world)) = 3%nat
  /\ trace (snd (Retry.retry_on_failure "connect" always_down quiet_world))
     = [LogError "Erro em connect: connection refused. Tentativa 1/3"; Sleep 5;
        LogError "Erro em connect: connection refused. Tentativa 2/3"; Sleep 5;
        LogError "Erro em connect: connection refused. Tentativa 3/3"; Sleep 5;
        LogCritical (Retry.critical_line "connect")].
Proof.
  destruct (retry_exhaustion "connect" always_down quiet_world)
    as (e1 & w1 & e2 & w2 & e3 & w3 & H1 & H2 & H3 & Hrun & _).
  - intros w0. eexists _, _. reflexivity.
  - rewrite Hrun. cbn [fst snd].
    injection H1 as <- <-. injection H2 as <- <-. injection H3 as <- <-.
    repeat split.
Defined.

(* ---------- The payload ---------- *)




Lemma payload_inv (d : DataFrame) (x : list Value) (v : Value) :
  payload d x = Ok v ->
  exists s, Json.dumps (to_dict d x) = Ok s /\ v = VStr (escape_quotes s).
Proof.
  unfold payload. destruct (Json.dumps (to_dict d x)) as [s|e]; [|discriminate].
  cbn [bind]. intros [= <-]. eauto.
Qed.









(** C1. The end-to-end scenario: the two [orders] rows come out as one
    record tagged [orders], stamped with the current time, whose payload
    decodes to category [a] with amount 510.  Aggregation leaves the
    columns [category] and [amount] only, so the status filter returns its
    argument as it is. *)
Theorem orders_scenario `{DateLib} (now : Timestamp) :
  let aggregated := mkDF ["category"; "amount"] [[VStr "a"; VInt 510]] in
  let payload := ("{" ++ quoted "category" ++ ": " ++ quoted "a" ++ ", "
                  ++ quoted "amount" ++ ": 510}")%string in
  call (fun df => df <- clean_data df ;; df <- normalize_data df ;;
                  aggregate_data df) orders_batch = Ok aggregated
  /\ has_column aggregated "status" = false
  /\ call filter_data aggregated = Ok aggregated
  /\ call (fun df => transform_data now df "orders") orders_batch
     = Ok (mkDF ["data"; "date_time"; "tag"]
                [[VStr payload; VTime (Some now); VStr "orders"]])
  /\ isna (VTime (Some now)) = false
  /\ Json.loads (unescape_quotes payload)
     = Some [("category", VStr "a"); ("amount", VInt 510)].
Proof.
  cbv zeta. repeat split; vm_compute; reflexivity.
Qed.

(* ---------- Validation ---------- *)

Lemma mapM_ok_map {A B} (f : A -> Result B) (g : A -> B) (l : list A) :
  (forall x, In x l -> f x = Ok (g x)) -> mapM f l = Ok (map g l).
Proof.
  induction l as [|x l IH]; intros Hf; cbn [mapM map]; [reflexivity|].
  rewrite (Hf x) by now left. cbn [bind].
  rewrite IH by (intros; apply Hf; now right). reflexivity.
Qed.

Lemma between_in_range (v : Value) :
  number_or_missing v = true -> between 0 1000000 v = Ok (in_range v).
Proof. destruct v; try discriminate; reflexivity. Qed.

Lemma in_range_iff (v : Value) :
  in_range v = true
  <-> exists q, Num.to_Q v = Some q /\ (inject_Z 0 <= q)%Q /\ (q <= inject_Z 1000000)%Q.
Proof.
  unfold in_range. destruct (Num.to_Q v) as [q|].
  - rewrite andb_true_iff, !Qle_bool_iff. split.
    + intros [? ?]. eauto.
    + intros (q' & [= <-] & ? & ?). auto.
  - split; [discriminate|]. intros (q & Hq & _). discriminate.
Qed.

(** C6, corrected.  On a batch whose [amount] column holds numbers
    (possibly with missing values), [validate_data] returns exactly the
    rows with [0 <= amount <= 1000000], in order; the two ends are kept
    and the values just outside are dropped, for float and for integer
    amounts.  (An [amount] that is text makes the stage raise, see
    [validate_fails_on_text_amounts].) *)
Theorem validate_keeps_range (d : DataFrame) :
  has_column d "amount" = true ->
  (forall r, In r (rows d) -> number_or_missing (cell d "amount" r) = true) ->
  call validate_data d
  = Ok (mkDF (columns d) (filter (fun r => in_range (cell d "amount" r)) (rows d)))
  /\ (forall r,
        In r (filter (fun r => in_range (cell d "amount" r)) (rows d))
        <-> In r (rows d)
            /\ exists q, Num.to_Q (cell d "amount" r) = Some q
                         /\ (inject_Z 0 <= q)%Q /\ (q <= inject_Z 1000000)%Q)
  /\ call validate_data
       (mkDF ["amount"]
          [[VFloat (mkFloat false 0 d0 [])];
           [VFloat (mkFloat true 0 d0 [d1])];
           [VFloat (mkFloat false 1000000 d0 [])];
           [VFloat (mkFloat false 1000000 d0 [d1])]])
     = Ok (mkDF ["amount"]
             [[VFloat (mkFloat false 0 d0 [])];
              [VFloat (mkFloat false 1000000 d0 [])]])
  /\ call validate_data
       (mkDF ["amount"] [[VInt 0]; [VInt (-1)]; [VInt 1000000]; [VInt 1000001]])
     = Ok (mkDF ["amount"] [[VInt 0]; [VInt 1000000]]).
Proof.
  intros Hcol Hnum. split; [|split; [|split]].
  - rewrite (call_spec _ _ validate_data_spec). unfold validate_c. rewrite Hcol.
    unfold get_col.
    rewrite (mapM_ok_map _ (fun v => in_range v)).
    + cbn [bind]. rewrite map_map, select_mask_filter. reflexivity.
    + intros v Hv. apply in_map_iff in Hv. destruct Hv as (r & <- & Hr).
      apply between_in_range. auto.
  - intros r. rewrite filter_In, in_range_iff. reflexivity.
  - vm_compute. reflexivity.
  - vm_compute. reflexivity.
Qed.

Lemma validate_keeps_range_witness :
  call validate_data
    (mkDF ["id"; "amount"]
       [[VInt 1; VFloat (mkFloat false 0 d0 [])];
        [VInt 2; VFloat (mkFloat true 1 d0 [])];
        [VInt 3; VNull];
        [VInt 4; VFloat (mkFloat false 1000001 d0 [])];
        [VInt 5; VFloat (mkFloat false 1000000 d0 [])]])
  = Ok (mkDF ["id"; "amount"]
          [[VInt 1; VFloat (mkFloat false 0 d0 [])];
           [VInt 5; VFloat (mkFloat false 1000000 d0 [])]]).
Proof.
  apply (validate_keeps_range
           (mkDF ["id"; "amount"]
              [[VInt 1; VFloat (mkFloat false 0 d0 [])];
               [VInt 2; VFloat (mkFloat true 1 d0 [])];
               [VInt 3; VNull];
               [VInt 4; VFloat (mkFloat false 1000001 d0 [])];
               [VInt 5; VFloat (mkFloat false 1000000 d0 [])]])).
  - reflexivity.
  - intros r Hr. cbn in Hr.
    repeat (destruct Hr as [<-|Hr]; [reflexivity|]). contradiction.
Defined.

(** C6, as stated for every batch with an [amount] column, fails: when
    an amount is text the comparison with the bounds raises [TypeError]
    and no batch is returned at all. *)
Lemma validate_fails_on_text_amounts :
  ~ (forall d : DataFrame,
        has_column d "amount" = true ->
        exists out,
          call validate_data d = Ok out
          /\ forall r, In r (rows out)
                       <-> In r (rows d) /\ in_range (cell d "amount" r) = true).
Proof.
  intros Hclaim.
  destruct (Hclaim (mkDF ["id"; "amount"] [[VInt 1; VStr "12"]; [VInt 2; VStr "n/a"]])
              eq_refl) as (out & Hout & _).
  vm_compute in Hout. discriminate.
Qed.

(* ---------- Cleaning and normalizing ---------- *)

Lemma isna_lower (v : Value) : isna (lower_if_str v) = isna v.
Proof. now destruct v. Qed.

Section Normalize.
Context `{DateLib}.

Lemma isna_strftime (v : Value) : isna (dt_strftime v) = isna v.
Proof. destruct v as [| | | |[t|]]; reflexivity. Qed.

Lemma dt_strftime_twice (v : Value) : dt_strftime (dt_strftime v) = dt_strftime v.
Proof. destruct v as [| | | |[t|]]; reflexivity. Qed.


Lemma strftime_step_normal (b d : DataFrame) (col : string) :
  In col (columns b) -> normal_rows b d -> normal_rows b (strftime_step d col).
Proof.
  intros Hin [Hcols Hrows].
  assert (Hhas : has_column d col = true).
  { apply has_column_In. now rewrite Hcols. }
  unfold strftime_step, set_col_with. split.
  - cbn [columns]. now rewrite columns_with_present.
  - cbn [rows].
    induction Hrows as [|r r' rs rs' Hr Hrs IH]; cbn [map]; constructor; auto.
    intros c. destruct (string_dec c col) as [->|Hne].
    + rewrite (cell_put_same d) by reflexivity.
      destruct (Hr col) as [-> | ->]; [now right|].
      right. apply dt_strftime_twice.
    + rewrite (cell_put_other d) by (auto; reflexivity). apply Hr.
Qed.

Lemma fold_strftime_normal (b : DataFrame) (cols : list string) (d : DataFrame) :
  incl cols (columns b) -> normal_rows b d ->
  normal_rows b (fold_left strftime_step cols d).
Proof.
  revert d. induction cols as [|col cols IH]; intros d Hincl Hd; cbn [fold_left].
  - exact Hd.
  - apply IH; [intros x Hx; apply Hincl; now right|].
    apply strftime_step_normal; auto. apply Hincl. now left.
Qed.

Lemma normalize_c_normal (b : DataFrame) :
  exists out, normalize_c b = Ok out /\ normal_rows b out.
Proof.
  eexists. split; [reflexivity|].
  apply fold_strftime_normal.
  - unfold select_dtypes_datetime. intros x Hx. apply filter_In in Hx.
    exact (proj1 Hx).
  - split; [reflexivity|]. cbn [rows applymap].
    induction (rows b) as [|r rs IH]; cbn [map]; constructor; auto.
    intros c. left. now apply cell_map.
Qed.

Lemma Forall2_In_r {A B} (R : A -> B -> Prop) (l : list A) (l' : list B) (y : B) :
  Forall2 R l l' -> In y l' -> exists x, In x l /\ R x y.
Proof.
  induction 1 as [|a b l l' Hab HF IH]; cbn; [contradiction|].
  intros [<-|Hin]; [eauto|]. destruct (IH Hin) as (x & ? & ?). eauto.
Qed.

Lemma normal_rows_len (b out : DataFrame) : normal_rows b out -> len out = len b.
Proof. intros [_ Hrows]. unfold len. symmetry. eapply Forall2_length; eauto. Qed.

Lemma normal_cell_isna (v v' : Value) : normal_cell v v' -> isna v' = isna v.
Proof. intros [-> | ->]; now rewrite ?isna_strftime, isna_lower. Qed.

Lemma normal_rows_complete (b out : DataFrame) :
  normal_rows b out -> complete b -> complete out.
Proof.
  intros [Hcols Hrows] Hb r' c Hr' Hc. rewrite Hcols in Hc.
  destruct (Forall2_In_r _ _ _ _ Hrows Hr') as (r & Hr & Hcell).
  rewrite (normal_cell_isna _ _ (Hcell c)). auto.
Qed.

Lemma dropna_complete (d : DataFrame) : complete (dropna d).
Proof.
  intros r c Hr Hc. cbn in Hr, Hc. apply filter_In in Hr. destruct Hr as [_ Hr].
  unfold row_complete in Hr. rewrite forallb_forall in Hr.
  specialize (Hr c Hc). rewrite (cell_same_columns d (dropna d)) by reflexivity.
  now destruct (isna (cell d c r)).
Qed.

(** C8. Cleaning and then normalizing gives a batch without missing values
    that has as many rows as the cleaned batch; on any batch, normalizing
    keeps the number of rows and adds no missing value. *)
Theorem clean_then_normalize (d : DataFrame) :
  (exists cleaned out,
      call clean_data d = Ok cleaned
      /\ call (fun df => df <- clean_data df ;; normalize_data df) d = Ok out
      /\ len out = len cleaned
      /\ complete out)
  /\ (forall b, exists out,
        call normalize_data b = Ok out
        /\ len out = len b
        /\ (complete b -> complete out)).
Proof.
  split.
  - destruct (normalize_c_normal (dropna d)) as (out & Hout & Hn).
    exists (dropna d), out. split; [|split; [|split]].
    + now rewrite (call_spec _ _ clean_data_spec).
    + rewrite (call_spec _ _ (stage_spec_seq _ _ _ _ clean_data_spec normalize_data_spec)).
      exact Hout.
    + now apply normal_rows_len.
    + eapply normal_rows_complete; eauto. apply dropna_complete.
  - intros b. destruct (normalize_c_normal b) as (out & Hout & Hn).
    exists out. split; [|split].
    + now rewrite (call_spec _ _ normalize_data_spec).
    + now apply normal_rows_len.
    + now apply normal_rows_complete.
Qed.

(* ---------- The status filter ---------- *)

Lemma lower_char_a c : (lower_char c =? "a")%char = ((c =? "a") || (c =? "A"))%char.
Proof. destruct c as [[] [] [] [] [] [] [] []]; reflexivity. Qed.
Lemma lower_char_c c : (lower_char c =? "c")%char = ((c =? "c") || (c =? "C"))%char.
Proof. destruct c as [[] [] [] [] [] [] [] []]; reflexivity. Qed.
Lemma lower_char_t c : (lower_char c =? "t")%char = ((c =? "t") || (c =? "T"))%char.
Proof. destruct c as [[] [] [] [] [] [] [] []]; reflexivity. Qed.
Lemma lower_char_i c : (lower_char c =? "i")%char = ((c =? "i") || (c =? "I"))%char.
Proof. destruct c as [[] [] [] [] [] [] [] []]; reflexivity. Qed.
Lemma lower_char_v c : (lower_char c =? "v")%char = ((c =? "v") || (c =? "V"))%char.
Proof. destruct c as [[] [] [] [] [] [] [] []]; reflexivity. Qed.
Lemma lower_char_e c : (lower_char c =? "e")%char = ((c =? "e") || (c =? "E"))%char.
Proof. destruct c as [[] [] [] [] [] [] [] []]; reflexivity. Qed.

(** Comparing the lower-cased text with ["active"] accepts exactly the
    capitalizations of the word. *)
Lemma lower_eq_active (s : string) :
  (str_lower s =? "active")%string = is_capitalization "active" s.
Proof.
  destruct s as [|c1 [|c2 [|c3 [|c4 [|c5 [|c6 [|c7 s]]]]]]]; try reflexivity;
    cbn [str_lower String.eqb is_capitalization];
    rewrite ?lower_char_a, ?lower_char_c, ?lower_char_t, ?lower_char_i,
      ?lower_char_v, ?lower_char_e;
    change (upper_letter "a") with "A"%char;
    change (upper_letter "c") with "C"%char;
    change (upper_letter "t") with "T"%char;
    change (upper_letter "i") with "I"%char;
    change (upper_letter "v") with "V"%char;
    change (upper_letter "e") with "E"%char;
    repeat match goal with
      | |- context [(?a =? ?b)%char || (?a =? ?c)%char] =>
          destruct ((a =? b)%char || (a =? c)%char); cbn [andb]; try reflexivity
      end.
Qed.

Lemma strftime_not_active (t : Timestamp) : (strftime t =? "active")%string = false.
Proof.
  destruct (String.eqb_spec (strftime t) "active") as [Heq|]; [|reflexivity].
  pose proof (strftime_length t) as Hlen. rewrite Heq in Hlen. discriminate.
Qed.

Lemma normal_cell_active (v v' : Value) :
  normal_cell v v' -> eq_str "active" v' = capitalization_of_active v.
Proof.
  intros Hn.
  assert (Hv : v' = lower_if_str v
               \/ (exists t, v = VTime (Some t) /\ v' = VStr (strftime t))
               \/ (v = VTime None /\ v' = VNull)).
  { destruct Hn as [-> | ->]; [now left|].
    destruct v as [| | | |[t|]]; cbn; eauto 6. }
  destruct Hv as [-> | [(t & -> & ->) | [-> ->]]].
  - destruct v; try reflexivity. cbn. apply lower_eq_active.
  - cbn. apply strftime_not_active.
  - reflexivity.
Qed.

Lemma Forall2_map_eq {A B C} (R : A -> B -> Prop) (f : A -> C) (g : B -> C) l l' :
  Forall2 R l l' -> (forall x y, R x y -> g y = f x) -> map g l' = map f l.
Proof.
  intros HF Hfg. induction HF as [|a b l l' Hab HF IH]; cbn; [reflexivity|].
  now rewrite IH, (Hfg _ _ Hab).
Qed.

(** C10, corrected.  When a [status] column reaches the filter stage of
    [transform_data] (the batch has one, and aggregation does not fire for
    lack of a [category] or an [amount] column), the stage compares the
    normalized status with the literal ["active"], and the rows it keeps
    are exactly the normalized rows whose source status is a
    capitalization of [active].  (When aggregation fires the status is
    gone before the filter, see [aggregation_discards_the_status].) *)
Theorem status_filter_ignores_case (d : DataFrame) :
  has_column d "status" = true ->
  (has_column d "category" && has_column d "amount")%bool = false ->
  exists cleaned normalized kept,
    call clean_data d = Ok cleaned
    /\ call (fun df => df <- clean_data df ;; normalize_data df) d = Ok normalized
    /\ call (fun df => df <- clean_data df ;; df <- normalize_data df ;;
                       df <- aggregate_data df ;; filter_data df) d = Ok kept
    /\ kept = filter_rows (fun r => eq_str "active" (cell normalized "status" r))
                          normalized
    /\ rows kept
       = select_mask (rows normalized)
           (map (fun r => capitalization_of_active (cell cleaned "status" r))
                (rows cleaned)).
Proof.
  intros Hstatus Hagg.
  destruct (normalize_c_normal (dropna d)) as (out & Hout & Hn).
  pose proof Hn as [Hcols Hrows]. cbn [columns dropna] in Hcols.
  assert (Hhas : forall c, has_column out c = has_column d c).
  { intros c. unfold has_column. now rewrite Hcols. }
  exists (dropna d), out,
    (filter_rows (fun r => eq_str "active" (cell out "status" r)) out).
  split; [|split; [|split; [|split]]].
  - now rewrite (call_spec _ _ clean_data_spec).
  - rewrite (call_spec _ _ (stage_spec_seq _ _ _ _ clean_data_spec normalize_data_spec)).
    exact Hout.
  - rewrite (call_spec _ _
               (stage_spec_seq _ _ _ _ clean_data_spec
                  (stage_spec_seq _ _ _ _ normalize_data_spec
                     (stage_spec_seq _ _ _ _ aggregate_data_spec filter_data_spec)))).
    cbn [clean_c bind]. rewrite Hout. cbn [bind].
    unfold aggregate_c. rewrite !Hhas, Hagg. cbn [bind].
    unfold filter_c. now rewrite Hhas, Hstatus.
  - reflexivity.
  - cbn [rows filter_rows]. rewrite <- select_mask_filter. f_equal.
    eapply Forall2_map_eq; [exact Hrows|].
    intros r r' Hr. cbn beta. apply normal_cell_active, Hr.
Qed.

End Normalize.

Lemma status_filter_ignores_case_witness :
  call (fun df => df <- clean_data df ;; df <- normalize_data df ;;
                  df <- aggregate_data df ;; filter_data df) status_batch
  = Ok (mkDF ["status"; "x"] [[VStr "active"; VInt 1]; [VStr "active"; VInt 4]]).
Proof.
  destruct (status_filter_ignores_case status_batch eq_refl eq_refl)
    as (cleaned & normalized & kept & _ & Hnorm & -> & -> & _).
  vm_compute in Hnorm. injection Hnorm as <-. reflexivity.
Defined.

(** C10, as stated for every batch with a [status] column, fails: when
    the batch also has a [category] and an [amount] column, aggregation
    runs first and leaves these two columns only, so the filter finds no
    status to compare and the amounts of the inactive records reach the
    output inside the sums. *)
Lemma aggregation_discards_the_status :
  ~ (forall d : DataFrame,
        has_column d "status" = true ->
        exists cleaned normalized kept,
          call clean_data d = Ok cleaned
          /\ call (fun df => df <- clean_data df ;; normalize_data df) d = Ok normalized
          /\ call (fun df => df <- clean_data df ;; df <- normalize_data df ;;
                             df <- aggregate_data df ;; filter_data df) d = Ok kept
          /\ rows kept
             = select_mask (rows normalized)
                 (map (fun r => capitalization_of_active (cell cleaned "status" r))
                      (rows cleaned))).
Proof.
  intros Hclaim.
  destruct (Hclaim orders_batch eq_refl)
    as (cleaned & normalized & kept & Hc & Hn & Hk & Hrows).
  vm_compute in Hc. injection Hc as <-.
  vm_compute in Hn. injection Hn as <-.
  vm_compute in Hk. injection Hk as <-.
  vm_compute in Hrows. discriminate.
Qed.

(* ---------- Which stages change the batch they are given ---------- *)

Section Frame.
Context `{DateLib}.

Lemma same_elsewhere_holds r q h h' d :
  same_elsewhere r h h' -> holds h q d -> q <> r -> holds h' q d.
Proof.
  intros [_ Hsame] Hq Hne. unfold holds. rewrite Hsame; auto.
  eapply holds_lt; eauto.
Qed.

Lemma stage_spec_run stage f h r d :
  stage_spec stage f -> holds h r d ->
  same_elsewhere r h (snd (stage r h)).
Proof.
  intros Hs Hh. destruct (Hs h r d Hh) as (h' & Hse & Hres).
  destruct (f d).
  - destruct Hres as (r' & -> & _). exact Hse.
  - now rewrite Hres.
Qed.

(** [normalize_data] returns a new object and leaves its argument alone. *)
Lemma normalize_data_fresh h r d :
  holds h r d ->
  exists h' out,
    normalize_data r h = (Ok (List.length h), h')
    /\ holds h' r d /\ holds h' (List.length h) out
    /\ (List.length h < List.length h')%nat.
Proof.
  intros Hh. pose proof (holds_lt _ _ _ Hh) as Hlt.
  unfold normalize_data.
  set (d1 := applymap lower_if_str d).
  pose proof (holds_new h d1) as Hnew.
  destruct (for_each_spec (List.length h)
              (fun col => d2 <- deref (List.length h) ;;
                          update (List.length h)
                            (set_col_with d2 col (fun r => dt_strftime (cell d2 col r))))
              (fun d col => Ok (strftime_step d col))) with
      (l := select_dtypes_datetime d1) (h := (h ++ [d1])%list) (d := d1)
    as (h2 & Hse2 & Hres2); auto.
  { intros x h0 d0 Hh0. exists (set_nth (List.length h) (strftime_step d0 x) h0).
    split; [apply same_elsewhere_update|].
    rewrite (bindM_deref _ _ _ _ Hh0). cbn.
    split; auto. eapply holds_update; eauto. }
  rewrite foldM_pure in Hres2. destruct Hres2 as [Hrun2 Hh2].
  exists h2. eexists. split; [|split; [|split]].
  - rewrite (bindM_deref _ _ _ _ Hh). fold d1. rewrite bindM_new.
    rewrite (bindM_deref _ _ _ _ Hnew).
    rewrite (bindM_run _ _ _ _ _ Hrun2). reflexivity.
  - eapply same_elsewhere_holds; [exact Hse2| |lia].
    now apply holds_weaken.
  - exact Hh2.
  - eapply holds_lt; eauto.
Qed.

Lemma after_normalize_spec now table_name :
  exists f, stage_spec (after_normalize now table_name) f.
Proof.
  eexists. unfold after_normalize.
  repeat (apply stage_spec_seq;
          [first [ apply aggregate_data_spec | apply filter_data_spec
                 | apply convert_data_types_spec | apply remove_duplicates_spec
                 | apply map_fields_spec | apply validate_data_spec ] |]).
  apply stamp_spec.
Qed.

(** C9, as amended. [normalize_data], [aggregate_data], [filter_data] and
    [validate_data] leave the batch they are given as it was.
    [clean_data], [remove_duplicates] and [map_fields] rewrite it in place
    and return the same object, and so does [convert_data_types] when it
    returns.  After [transform_data] the caller's batch is the input
    without its rows that had a missing value. *)
Theorem stages_and_the_callers_batch (h : Heap) (df : Ref) (d : DataFrame)
  (now : Timestamp) (table_name : string) :
  holds h df d ->
  holds (snd (normalize_data df h)) df d
  /\ holds (snd (aggregate_data df h)) df d
  /\ holds (snd (filter_data df h)) df d
  /\ holds (snd (validate_data df h)) df d
  /\ clean_data df h = (Ok df, set_nth df (dropna d) h)
  /\ remove_duplicates df h = (Ok df, set_nth df (drop_duplicates d) h)
  /\ map_fields df h = (Ok df, set_nth df (rename column_mapping d) h)
  /\ (forall df' h', convert_data_types df h = (Ok df', h') -> df' = df)
  /\ holds (snd (transform_data now df table_name h)) df (dropna d).
Proof.
  intros Hh. pose proof (holds_lt _ _ _ Hh) as Hlt.
  repeat split.
  - destruct (normalize_data_fresh h df d Hh) as (h' & out & -> & Hd & _). exact Hd.
  - unfold aggregate_data. rewrite (bindM_deref _ _ _ _ Hh).
    destruct (has_column d "category" && has_column d "amount")%bool; [|exact Hh].
    unfold bindM, lift. destruct (groupby_sum "category" "amount" d); [|exact Hh].
    now apply holds_weaken.
  - unfold filter_data. rewrite (bindM_deref _ _ _ _ Hh).
    destruct (has_column d "status"); [|exact Hh]. now apply holds_weaken.
  - unfold validate_data. rewrite (bindM_deref _ _ _ _ Hh).
    destruct (has_column d "amount"); [|exact Hh].
    unfold bindM, lift. destruct (mapM (between 0 1000000) (get_col d "amount"));
      [|exact Hh].
    now apply holds_weaken.
  - unfold clean_data. now rewrite (bindM_deref _ _ _ _ Hh).
  - unfold remove_duplicates. now rewrite (bindM_deref _ _ _ _ Hh).
  - unfold map_fields. now rewrite (bindM_deref _ _ _ _ Hh).
  - intros df' h' Hrun.
    destruct (convert_data_types_spec h df d Hh) as (h1 & _ & Hres).
    unfold convert_data_types in *. rewrite (bindM_deref _ _ _ _ Hh) in Hrun.
    unfold bindM in Hrun.
    destruct (for_each (columns d) (convert_numeric_column df) h) as [[[]|e] h2];
      [|discriminate].
    destruct (deref df h2) as [[d2|e] h3]; [|discriminate].
    destruct (for_each (columns d2) (convert_date_column df) h3) as [[[]|e] h4];
      [|discriminate].
    now injection Hrun as <- _.
  - change (transform_data now df table_name)
      with (df1 <- clean_data df ;; df2 <- normalize_data df1 ;;
            after_normalize now table_name df2).
    assert (Hclean : clean_data df h = (Ok df, set_nth df (dropna d) h)).
    { unfold clean_data. now rewrite (bindM_deref _ _ _ _ Hh). }
    rewrite (bindM_run _ _ _ _ _ Hclean).
    pose proof (holds_update h df (dropna d) d Hh) as Hh1.
    destruct (normalize_data_fresh _ df _ Hh1) as (h2 & out & Hnorm & Hd2 & Hout & Hlen).
    rewrite (bindM_run _ _ _ _ _ Hnorm).
    destruct (after_normalize_spec now table_name) as [f Hf].
    eapply same_elsewhere_holds.
    + eapply stage_spec_run; eauto.
    + exact Hd2.
    + rewrite set_nth_length. lia.
Qed.

End Frame.

Lemma stages_and_the_callers_batch_witness :
  holds (snd (transform_data 0 O "people" [gappy_batch])) O
        (mkDF ["id"; "name"] [[VInt 1; VStr "Ana"]]).
Proof.
  apply (stages_and_the_callers_batch [gappy_batch] O gappy_batch 0 "people").
  reflexivity.
Defined.

(** C9, as stated, fails: [clean_data] and [transform_data] do change the
    batch object they are called with. *)
Lemma clean_data_changes_its_argument :
  ~ (forall (h : Heap) (df : Ref) (d : DataFrame),
        holds h df d ->
        holds (snd (clean_data df h)) df d
        /\ holds (snd (transform_data 0 df "people" h)) df d).
Proof.
  intros Hclaim.
  destruct (Hclaim [gappy_batch] O gappy_batch eq_refl) as [Hc _].
  vm_compute in Hc. discriminate.
Qed.


(* ---------- The output of [transform_data] ---------- *)

Lemma dumps_items_In (d : dict Value) (items : list string) (k : string) (v : Value) :
  Json.dumps_items d = Ok items -> In (k, v) d ->
  exists sv, Json.dumps_value v = Ok sv.
Proof.
  revert items. induction d as [|[k0 v0] d IH]; intros items Hd Hin; [contradiction|].
  destruct (dumps_items_cons _ _ _ _ Hd) as (sv & its & Hv & Hits & _).
  destruct Hin as [[= -> ->]|Hin]; eauto.
Qed.

Lemma payload_no_time (d : DataFrame) (r : list Value) (v : Value) (c : string) :
  payload d r = Ok v -> In c (columns d) -> is_time (cell d c r) = false.
Proof.
  intros Hp Hc. destruct (payload_inv _ _ _ Hp) as (s & Hs & _).
  unfold Json.dumps in Hs.
  destruct (Json.dumps_items (to_dict d r)) as [items|e] eqn:Hitems; [|discriminate].
  destruct (dumps_items_In _ _ c (cell d c r) Hitems) as [sv Hsv].
  { apply lookup_In, lookup_to_dict, Hc. }
  destruct (cell d c r) as [| | | |[t|]]; try reflexivity; discriminate.
Qed.


Section Invariant.
Context `{DateLib}.

Lemma to_datetime_is_time (v : Value) : is_time (to_datetime_value v) = true.
Proof. now destruct v. Qed.

Lemma date_step_times (d : DataFrame) (col c : string) :
  (str_contains "date" col = true /\ col = c) \/ times_at d c ->
  times_at (date_step d col) c.
Proof.
  intros Hc. unfold date_step.
  destruct (str_contains "date" col) eqn:Hdate.
  - intros r' Hr'. cbn [rows set_col_with] in Hr'.
    apply in_map_iff in Hr'. destruct Hr' as (r & <- & Hr).
    destruct (string_dec c col) as [->|Hne].
    + rewrite (cell_put_same d) by reflexivity. apply to_datetime_is_time.
    + rewrite (cell_put_other d) by (auto; reflexivity).
      destruct Hc as [[_ ->]|Hc]; [congruence|]. now apply Hc.
  - destruct Hc as [[? _]|Hc]; [discriminate|exact Hc].
Qed.

Lemma fold_date_step_times (l : list string) (d : DataFrame) (c : string) :
  str_contains "date" c = true ->
  In c l \/ times_at d c -> times_at (fold_left date_step l d) c.
Proof.
  intros Hdate. revert d. induction l as [|col l IH]; intros d Hc; cbn [fold_left].
  - destruct Hc as [[]|Hc]. exact Hc.
  - apply IH. destruct Hc as [[->|Hin]|Hc]; auto.
    + right. apply date_step_times. now left.
    + right. apply date_step_times. now right.
Qed.

Lemma date_step_columns (d : DataFrame) (col : string) :
  In col (columns d) -> columns (date_step d col) = columns d.
Proof.
  intros Hin. unfold date_step. destruct (str_contains "date" col); [|reflexivity].
  cbn. apply columns_with_present. now apply has_column_In.
Qed.

Lemma fold_date_step_columns (l : list string) (d : DataFrame) :
  incl l (columns d) -> columns (fold_left date_step l d) = columns d.
Proof.
  revert d. induction l as [|col l IH]; intros d Hincl; cbn [fold_left]; [reflexivity|].
  assert (Hcol : columns (date_step d col) = columns d).
  { apply date_step_columns, Hincl. now left. }
  rewrite IH; [exact Hcol|]. rewrite Hcol. intros x Hx. apply Hincl. now right.
Qed.

Lemma convert_c_date_time (d d' : DataFrame) :
  convert_c d = Ok d' -> date_time_is_time d'.
Proof.
  unfold convert_c. destruct (foldM numeric_step (columns d) d) as [d1|e];
    [|discriminate].
  cbn [bind]. intros [= <-] Hhas.
  apply fold_date_step_times; [reflexivity|]. left.
  apply has_column_In in Hhas.
  now rewrite fold_date_step_columns in Hhas by apply incl_refl.
Qed.

Lemma dedupe_c_date_time (d d' : DataFrame) :
  dedupe_c d = Ok d' -> date_time_is_time d -> date_time_is_time d'.
Proof.
  intros [= <-] Hd Hhas r Hr. cbn in Hr.
  apply distinct_from_In in Hr.
  rewrite (cell_same_columns d) by reflexivity. apply Hd; auto.
Qed.

Lemma rename_keeps_date_time (c : string) :
  (match lookup c column_mapping with Some c' => c' | None => c end
   =? "date_time")%string
  = (c =? "date_time")%string.
Proof.
  unfold column_mapping. cbn [lookup].
  destruct (String.eqb_spec "old_column_name" c) as [<-|Hne]; reflexivity.
Qed.

Lemma map_c_date_time (d d' : DataFrame) :
  map_c d = Ok d' -> date_time_is_time d -> date_time_is_time d'.
Proof.
  intros [= <-] Hd.
  assert (Hidx : col_index "date_time" (columns (rename column_mapping d))
                 = col_index "date_time" (columns d)).
  { cbn [columns rename]. apply col_index_map. exact rename_keeps_date_time. }
  intros Hhas r Hr. unfold has_column, cell in *. rewrite Hidx in *.
  apply (Hd Hhas r Hr).
Qed.

Lemma validate_c_date_time (d d' : DataFrame) :
  validate_c d = Ok d' -> date_time_is_time d -> date_time_is_time d'.
Proof.
  unfold validate_c. destruct (has_column d "amount").
  - destruct (mapM (between 0 1000000) (get_col d "amount")) as [mask|e];
      [|discriminate].
    cbn [bind]. intros [= <-] Hd Hhas r Hr. cbn in Hr.
    apply select_mask_In in Hr.
    rewrite (cell_same_columns d) by reflexivity. apply Hd; auto.
  - now intros [= <-].
Qed.

(** What the last step makes of a batch whose [date_time] column, if any,
    holds times. *)
Lemma stamp_c_records (now : Timestamp) (table_name : string) (d out : DataFrame) :
  stamp_c now table_name d = Ok out -> date_time_is_time d ->
  columns out = ["data"; "date_time"; "tag"]
  /\ forall record, In record (rows out) ->
       exists r p,
         In r (rows d) /\ payload d r = Ok (VStr p)
         /\ record = [VStr p; VTime (Some now); VStr table_name].
Proof.
  unfold stamp_c. intros Hrun Hdt.
  destruct (mapM (payload d) (rows d)) as [data|e] eqn:Hdata; [|discriminate].
  cbn [bind] in Hrun. apply mapM_Forall2 in Hdata.
  set (d1 := set_col d "data" data) in *.
  set (d2 := set_col_scalar d1 "tag" (VStr table_name)) in *.
  injection Hrun as <-. split; [reflexivity|].
  intros record Hrec. cbn [rows select_columns] in Hrec.
  apply in_map_iff in Hrec. destruct Hrec as (r3 & <- & Hr3).
  assert (Hh2 : has_column d2 "date_time" = has_column d "date_time").
  { rewrite (has_column_columns_with d1 d2 "tag") by (reflexivity || discriminate).
    now rewrite (has_column_columns_with d d1 "data") by (reflexivity || discriminate). }
  assert (Hrows : forall r2, In r2 (rows d2) ->
            exists r p, In r (rows d) /\ payload d r = Ok p
                        /\ r2 = put (target d1 "tag") (VStr table_name)
                                    (put (target d "data") p r)).
  { intros r2 Hr2. cbn [rows d2 set_col_scalar set_col_with] in Hr2.
    apply in_map_iff in Hr2. destruct Hr2 as (r1 & <- & Hr1).
    cbn [rows d1 set_col] in Hr1.
    apply in_map_iff in Hr1. destruct Hr1 as ([r p] & <- & Hrp).
    destruct (Forall2_combine_In _ _ _ _ _ Hdata Hrp) as [Hr Hp].
    exists r, p. auto. }
  destruct (has_column d "date_time") eqn:Hhas.
  - (* a [date_time] column of times cannot be serialized *)
    exfalso. rewrite Hh2 in Hr3. cbn [negb] in Hr3.
    destruct (Hrows r3 Hr3) as (r & p & Hr & Hp & _).
    specialize (Hdt Hhas r Hr).
    rewrite (payload_no_time d r p "date_time" Hp) in Hdt; [discriminate|].
    now apply has_column_In.
  - rewrite Hh2 in *. cbn [negb] in *.
    cbn [rows set_col_scalar set_col_with] in Hr3.
    apply in_map_iff in Hr3. destruct Hr3 as (r2 & <- & Hr2).
    destruct (Hrows r2 Hr2) as (r & p & Hr & Hp & ->).
    destruct (payload_inv _ _ _ Hp) as (s & _ & ->).
    exists r, (escape_quotes s). split; [exact Hr|]. split; [exact Hp|].
    cbn [map]. f_equal; [|f_equal; [|f_equal]].
    + rewrite (cell_put_other d2) by (reflexivity || discriminate).
      rewrite (cell_put_other d1) by (reflexivity || discriminate).
      now rewrite (cell_put_same d) by reflexivity.
    + now rewrite (cell_put_same d2) by reflexivity.
    + rewrite (cell_put_other d2) by (reflexivity || discriminate).
      now rewrite (cell_put_same d1) by reflexivity.
Qed.

Lemma transform_c_inv (now : Timestamp) (table_name : string) (d out : DataFrame) :
  transform_c now table_name d = Ok out ->
  exists validated,
    stamp_c now table_name validated = Ok out /\ date_time_is_time validated.
Proof.
  unfold transform_c. cbn [clean_c bind].
  destruct (normalize_c (dropna d)) as [d2|?]; [|discriminate]. cbn [bind].
  destruct (aggregate_c d2) as [d3|?]; [|discriminate]. cbn [bind].
  destruct (filter_c d3) as [d4|?]; [|discriminate]. cbn [bind].
  destruct (convert_c d4) as [d5|?] eqn:H5; [|discriminate]. cbn [bind].
  destruct (dedupe_c d5) as [d6|?] eqn:H6; [|discriminate]. cbn [bind].
  destruct (map_c d6) as [d7|?] eqn:H7; [|discriminate]. cbn [bind].
  destruct (validate_c d7) as [d8|?] eqn:H8; [|discriminate]. cbn [bind].
  intros Hout. exists d8. split; [exact Hout|].
  eapply validate_c_date_time; [exact H8|].
  eapply map_c_date_time; [exact H7|].
  eapply dedupe_c_date_time; [exact H6|].
  eapply convert_c_date_time; exact H5.
Qed.

(** The records of a batch returned by [transform_data]. *)
Lemma transform_records (now : Timestamp) (batch : DataFrame)
  (table_name : string) (out : DataFrame) :
  call (fun df => transform_data now df table_name) batch = Ok out ->
  columns out = ["data"; "date_time"; "tag"]
  /\ forall record, In record (rows out) ->
       exists validated r p,
         payload validated r = Ok (VStr p)
         /\ record = [VStr p; VTime (Some now); VStr table_name].
Proof.
  rewrite (call_spec _ _ (transform_data_spec now table_name)). intros Hout.
  destruct (transform_c_inv _ _ _ _ Hout) as (validated & Hstamp & Hdt).
  destruct (stamp_c_records _ _ _ _ Hstamp Hdt) as [Hcols Hrecs].
  split; [exact Hcols|].
  intros record Hrec. destruct (Hrecs record Hrec) as (r & p & Hr & Hp & ->).
  eauto.
Qed.


End Invariant.


(* ---------- The orchestrator ---------- *)

Lemma retry_loop_ok_inv {W A} `{Runtime W} (name : string) (func : Action W A)
  (retries : Z) (w : W) (a : A) (w' : W) :
  Retry.retry_loop name func retries w = (Ok a, w') ->
  exists w0, func w0 = (Ok a, w').
Proof.
  funelim (Retry.retry_loop name func retries w); intros Hrun.
  - discriminate.
  - injection Hrun as <- <-. eauto.
  - eauto.
Qed.

Ltac wsimp :=
  cbn [sink_conn sink_rows source_conn faults ops batch_size source_tables clock
       emit advance tick set_source_conn set_sink_conn append_sink
       logging_info logging_error logging_critical time_sleep World_Runtime
       fst snd] in *.

Lemma attempt_inv {A} (what : string) (ok : Action World A) w res w' :
  attempt what ok w = (res, w') ->
  (faults w (ops w) = true /\ res = Raise (DatabaseError what) /\ w' = tick w)
  \/ (faults w (ops w) = false /\ ok (tick w) = (res, w')).
Proof.
  unfold attempt. destruct (faults w (ops w)); [intros [= <- <-]|]; auto.
Qed.

Lemma appends_nothing (P : SinkRow -> Prop) (w w' : World) :
  sink_conn w' = sink_conn w -> sink_rows w' = sink_rows w ->
  sink_conn w' = sink_conn w
  /\ exists added, sink_rows w' = (sink_rows w ++ added)%list /\ Forall P added.
Proof.
  intros Hc Hr. split; [exact Hc|]. exists []. now rewrite app_nil_r.
Qed.

Lemma appends_trans (P : SinkRow -> Prop) (w w1 w2 : World) :
  (sink_conn w1 = sink_conn w
   /\ exists added, sink_rows w1 = (sink_rows w ++ added)%list /\ Forall P added) ->
  (sink_conn w2 = sink_conn w1
   /\ exists added, sink_rows w2 = (sink_rows w1 ++ added)%list /\ Forall P added) ->
  sink_conn w2 = sink_conn w
  /\ exists added, sink_rows w2 = (sink_rows w ++ added)%list /\ Forall P added.
Proof.
  intros [Hc1 (a1 & Hr1 & HP1)] [Hc2 (a2 & Hr2 & HP2)].
  split; [congruence|]. exists (a1 ++ a2)%list.
  rewrite Hr2, Hr1, app_assoc. split; [reflexivity|]. now apply Forall_app.
Qed.

Lemma command_appends (q : Query) (w : World) (res : Result Z) (w' : World) :
  command q w = (res, w') ->
  sink_conn w' = sink_conn w
  /\ ((sink_rows w' = sink_rows w)
      \/ (exists tuples, q = InsertValues tuples /\ res = Ok 0
                         /\ sink_rows w' = (sink_rows w ++ tuples)%list)).
Proof.
  unfold command. intros Hrun.
  destruct (attempt_inv _ _ _ _ _ Hrun) as [(_ & -> & ->)|[_ Hok]]; [auto|].
  destruct q.
  - injection Hok as <- <-. auto.
  - destruct (table_name =? "grupox")%string; injection Hok as <- <-; auto.
  - injection Hok as <- <-. split; [reflexivity|]. right. eauto.
Qed.

Lemma ensure_appends P : appends P ensure_clickhouse_table.
Proof.
  intros w res w' Hrun. unfold ensure_clickhouse_table in Hrun.
  destruct (command CreateTableIfNotExists w) as [r w1] eqn:Hc.
  destruct (command_appends _ _ _ _ Hc) as [Hconn [Hrows|(t & [=] & _)]].
  destruct r; injection Hrun as <- <-; apply appends_nothing; assumption.
Qed.

Lemma check_appends P table_name tag : appends P (check_existing_records table_name tag).
Proof.
  intros w res w' Hrun. unfold check_existing_records in Hrun.
  destruct (command _ _) as [r w1] eqn:Hc.
  destruct (command_appends _ _ _ _ Hc) as [Hconn [Hrows|(t & [=] & _)]].
  destruct r; injection Hrun as <- <-; apply appends_nothing; assumption.
Qed.

Lemma list_tables_appends P : appends P list_supabase_tables.
Proof.
  intros w res w' Hrun. unfold list_supabase_tables in Hrun.
  destruct (attempt _ _ _) as [r w1] eqn:Ha.
  destruct (attempt_inv _ _ _ _ _ Ha) as [(_ & -> & ->)|[_ [= <- <-]]];
    injection Hrun as <- <-; now apply appends_nothing.
Qed.

Lemma execute_select_appends P table_name : appends P (execute_select table_name).
Proof.
  intros w res w' Hrun. unfold execute_select in Hrun.
  destruct (attempt_inv _ _ _ _ _ Hrun) as [(_ & -> & ->)|[_ Hok]];
    [now apply appends_nothing|].
  destruct (find_table _ _); injection Hok as <- <-; now apply appends_nothing.
Qed.

Lemma fetchmany_appends P size c : appends P (fetchmany size c).
Proof.
  intros w res w' Hrun. unfold fetchmany in Hrun.
  destruct (attempt_inv _ _ _ _ _ Hrun) as [(_ & -> & ->)|[_ [= <- <-]]];
    now apply appends_nothing.
Qed.

Lemma load_appends (df : DataFrame) (w : World) (res : Result unit) (w' : World) :
  load_data_to_ClickHouse df w = (res, w') ->
  sink_conn w' = sink_conn w
  /\ ((sink_rows w' = sink_rows w)
      \/ (exists tuples, mapM as_tuple (rows df) = Ok tuples /\ res = Ok tt
                         /\ sink_rows w' = (sink_rows w ++ tuples)%list)).
Proof.
  unfold load_data_to_ClickHouse. intros Hrun.
  destruct (mapM as_tuple (rows df)) as [tuples|e].
  - destruct (command _ _) as [r w1] eqn:Hc.
    destruct (command_appends _ _ _ _ Hc) as [Hconn [Hrows|(t & [= <-] & -> & Hrows)]].
    + destruct r; injection Hrun as <- <-; auto.
    + injection Hrun as <- <-. split; [exact Hconn|]. right. eauto.
  - injection Hrun as <- <-. auto.
Qed.

Section Etl.
Context `{DateLib}.


Lemma as_tuple_tagged (table_name : string) (rs : list (list Value))
  (tuples : list SinkRow) :
  mapM as_tuple rs = Ok tuples ->
  (forall r, In r rs -> exists p t, r = [VStr p; t; VStr table_name]) ->
  Forall (tagged_with table_name) tuples.
Proof.
  intros Hm Hrs. apply mapM_Forall2 in Hm.
  induction Hm as [|r t rs ts Hrt _ IH]; constructor.
  - destruct (Hrs r (or_introl eq_refl)) as (p & ts' & ->).
    injection Hrt as <-. reflexivity.
  - apply IH. intros r' Hr'. apply Hrs. now right.
Qed.

Lemma transformed_rows (now : Timestamp) (table_name : string)
  (batch_df transformed_df : DataFrame) :
  call (fun df => transformed_df <- transform_data now df table_name ;;
                  remove_duplicates transformed_df) batch_df = Ok transformed_df ->
  forall r, In r (rows transformed_df) ->
    exists p t, r = [VStr p; t; VStr table_name].
Proof.
  rewrite (call_spec _ _
             (stage_spec_seq _ _ _ _ (transform_data_spec now table_name)
                remove_duplicates_spec)).
  destruct (transform_c now table_name batch_df) as [out|e] eqn:Hout; [|discriminate].
  cbn [bind dedupe_c]. intros [= <-] r Hr. cbn in Hr. apply distinct_from_In in Hr.
  rewrite <- (call_spec _ _ (transform_data_spec now table_name)) in Hout.
  destruct (transform_records _ _ _ _ Hout) as [_ Hrecs].
  destruct (Hrecs r Hr) as (validated & r0 & p & _ & ->). eauto.
Qed.

Lemma process_batch_appends table_name batch_df :
  appends (tagged_with table_name) (process_batch table_name batch_df).
Proof.
  intros w res w' Hrun. unfold process_batch in Hrun.
  destruct (call _ batch_df) as [transformed_df|e] eqn:Hcall.
  - destruct (load_appends _ _ _ _ Hrun) as [Hconn [Hrows|(t & Ht & _ & Hrows)]].
    + now apply appends_nothing.
    + split; [exact Hconn|]. exists t. split; [exact Hrows|].
      eapply as_tuple_tagged; [exact Ht|]. eapply transformed_rows; eauto.
  - injection Hrun as <- <-. now apply appends_nothing.
Qed.

Lemma batches_loop_appends table_name c :
  appends (tagged_with table_name) (batches_loop table_name c).
Proof.
  intros w. funelim (batches_loop table_name c w); intros res w' Hrun;
    match goal with
    | Hf : fetchmany _ _ _ = _ |- _ =>
        pose proof (fetchmany_appends (tagged_with table_name) _ _ _ _ _ Hf) as Hfetched
    end.
  all: try match goal with
    | Hp : process_batch _ _ _ = _ |- _ =>
        pose proof (process_batch_appends _ _ _ _ _ Hp) as Hbatch
    end.
  - injection Hrun as <- <-. exact Hfetched.
  - injection Hrun as <- <-. exact Hfetched.
  - eapply appends_trans; [eapply appends_trans; eassumption|]. eauto.
  - injection Hrun as <- <-. eapply appends_trans; eassumption.
Qed.

Lemma process_table_appends table_name :
  appends (tagged_with table_name) (process_table table_name).
Proof.
  intros w res w' Hrun. unfold process_table in Hrun.
  destruct (execute_select _ _) as [[c|e] w1] eqn:Hex.
  - pose proof (execute_select_appends (tagged_with table_name) _ _ _ _ Hex).
    pose proof (batches_loop_appends _ _ _ _ _ Hrun).
    eapply appends_trans; eassumption.
  - injection Hrun as <- <-.
    exact (execute_select_appends (tagged_with table_name) _ _ _ _ Hex).
Qed.

Lemma count_positive (tag : string) (rs : list SinkRow) :
  (0 <? Z.of_nat (List.length (tagged tag rs))) = existsb (has_tag tag) rs.
Proof.
  unfold tagged. induction rs as [|r rs IH]; [reflexivity|].
  cbn [filter existsb]. destruct (has_tag tag r); [|exact IH].
  cbn [List.length orb]. apply Z.ltb_lt. lia.
Qed.

(** What [check_existing_records] answers when the query goes through. *)
Lemma check_existing_records_result (tag : string) (w : World)
  (res : Result bool) (w' : World) :
  check_existing_records "grupox" tag w = (res, w') ->
  sink_rows w' = sink_rows w
  /\ (res = Ok (existsb (has_tag tag) (sink_rows w))
      \/ (res = Raise (DatabaseError "client.command") /\ faults w (ops w) = true)).
Proof.
  unfold check_existing_records, command. intros Hrun.
  destruct (attempt _ _ _) as [r w1] eqn:Ha.
  destruct (attempt_inv _ _ _ _ _ Ha) as [(Hf & -> & ->)|[_ Hok]].
  - injection Hrun as <- <-. auto.
  - cbn [String.eqb Ascii.eqb Bool.eqb] in Hok. injection Hok as <- <-.
    injection Hrun as <- <-. split; [reflexivity|]. left.
    f_equal. apply count_positive.
Qed.

Lemma tagged_app (tag : string) (rs added : list SinkRow) :
  tagged tag (rs ++ added) = (tagged tag rs ++ tagged tag added)%list.
Proof. apply filter_app. Qed.

Lemma tagged_other (tag other : string) (added : list SinkRow) :
  other <> tag -> Forall (tagged_with other) added -> tagged tag added = [].
Proof.
  intros Hne Hall. induction Hall as [|r rs Hr _ IH]; [reflexivity|].
  unfold tagged in *. cbn [filter]. unfold has_tag at 1, Value_eqb.
  rewrite Hr. destruct (Value_eq_dec (VStr other) (VStr tag)) as [[=]|_];
    [congruence|exact IH].
Qed.

Lemma existsb_tagged (tag : string) (rs : list SinkRow) :
  existsb (has_tag tag) rs = true <-> tagged tag rs <> [].
Proof.
  unfold tagged. induction rs as [|r rs IH]; cbn [existsb filter].
  - split; [discriminate|congruence].
  - destruct (has_tag tag r); cbn [orb]; [split; [discriminate|reflexivity]|exact IH].
Qed.

(** The loop over the tables never adds a row for a table that already has
    rows in the sink. *)
Lemma tables_loop_skips (tag : string) (tables : list string) :
  forall w res w',
    tables_loop tables w = (res, w') ->
    tagged tag (sink_rows w) <> [] ->
    sink_conn w' = sink_conn w
    /\ tagged tag (sink_rows w') = tagged tag (sink_rows w).
Proof.
  induction tables as [|table_name tables IH]; intros w res w' Hrun Htag;
    cbn [tables_loop] in Hrun.
  - injection Hrun as <- <-. auto.
  - destruct (check_existing_records "grupox" table_name w) as [[b|e] w1] eqn:Hcheck.
    2:{ injection Hrun as <- <-.
        destruct (check_appends (fun _ => True) _ _ _ _ _ Hcheck) as [Hc _].
        destruct (check_existing_records_result _ _ _ _ Hcheck) as [Hr _].
        now rewrite Hc, Hr. }
    destruct (check_appends (fun _ => True) _ _ _ _ _ Hcheck) as [Hc1 _].
    destruct (check_existing_records_result _ _ _ _ Hcheck) as [Hr1 Hres].
    destruct Hres as [[= ->]|[[=] _]].
    destruct (existsb (has_tag table_name) (sink_rows w)) eqn:Hex.
    + apply IH in Hrun; [|wsimp; now rewrite Hr1].
      wsimp. destruct Hrun as [-> ->]. now rewrite Hc1, Hr1.
    + assert (Hne : table_name <> tag).
      { intros ->. apply existsb_tagged in Htag. congruence. }
      destruct (process_table table_name w1) as [[[]|e] w2] eqn:Hproc;
        destruct (process_table_appends _ _ _ _ Hproc) as [Hc2 (added & Hr2 & Hadded)];
        assert (Hsame : tagged tag (sink_rows w2) = tagged tag (sink_rows w))
          by (rewrite Hr2, tagged_app, (tagged_other _ _ _ Hne Hadded), app_nil_r;
              now rewrite Hr1).
      * apply IH in Hrun; [|now rewrite Hsame].
        destruct Hrun as [-> ->]. split; congruence.
      * injection Hrun as <- <-. split; congruence.
Qed.

Lemma tables_loop_conn (tables : list string) :
  forall w res w', tables_loop tables w = (res, w') -> sink_conn w' = sink_conn w.
Proof.
  induction tables as [|table_name tables IH]; intros w res w' Hrun;
    cbn [tables_loop] in Hrun.
  - now injection Hrun as <- <-.
  - destruct (check_existing_records "grupox" table_name w) as [[b|e] w1] eqn:Hcheck;
      destruct (check_appends (fun _ => True) _ _ _ _ _ Hcheck) as [Hc1 _].
    2:{ now injection Hrun as <- <-. }
    destruct b.
    + apply IH in Hrun. wsimp. congruence.
    + destruct (process_table table_name w1) as [[[]|e] w2] eqn:Hproc;
        destruct (process_table_appends _ _ _ _ Hproc) as [Hc2 _].
      * apply IH in Hrun. congruence.
      * injection Hrun as <- <-. congruence.
Qed.

Lemma etl_body_conn w res w' :
  etl_body w = (res, w') -> sink_conn w' = sink_conn w.
Proof.
  unfold etl_body. intros Hrun.
  destruct (ensure_clickhouse_table w) as [[[]|e] w1] eqn:H1;
    destruct (ensure_appends (fun _ => True) _ _ _ H1) as [Hc1 _].
  2:{ now injection Hrun as <- <-. }
  destruct (list_supabase_tables w1) as [[tables|e] w2] eqn:H2;
    destruct (list_tables_appends (fun _ => True) _ _ _ H2) as [Hc2 _].
  2:{ injection Hrun as <- <-. congruence. }
  destruct (tables_loop tables w2) as [[[]|e] w3] eqn:H3;
    pose proof (tables_loop_conn _ _ _ _ H3) as Hc3;
    injection Hrun as <- <-; wsimp; congruence.
Qed.

Lemma etl_body_skips (tag : string) w res w' :
  etl_body w = (res, w') -> tagged tag (sink_rows w) <> [] ->
  tagged tag (sink_rows w') = tagged tag (sink_rows w).
Proof.
  unfold etl_body. intros Hrun Htag.
  destruct (ensure_clickhouse_table w) as [[[]|e] w1] eqn:H1;
    destruct (ensure_appends (fun _ => False) _ _ _ H1) as [_ (a1 & Hr1 & Ha1)];
    (destruct a1; [rewrite app_nil_r in Hr1|now inversion Ha1]).
  2:{ injection Hrun as <- <-. now rewrite Hr1. }
  destruct (list_supabase_tables w1) as [[tables|e] w2] eqn:H2;
    destruct (list_tables_appends (fun _ => False) _ _ _ H2) as [_ (a2 & Hr2 & Ha2)];
    (destruct a2; [rewrite app_nil_r in Hr2|now inversion Ha2]).
  2:{ injection Hrun as <- <-. now rewrite Hr2, Hr1. }
  destruct (tables_loop tables w2) as [[[]|e] w3] eqn:H3;
    (destruct (tables_loop_skips tag _ _ _ _ H3) as [_ Hr3];
     [now rewrite Hr2, Hr1|]);
    injection Hrun as <- <-; wsimp; now rewrite Hr3, Hr2, Hr1.
Qed.

End Etl.

(** An invariant of the wrapped function and of logging and sleeping is
    an invariant of the retry loop. *)
Lemma retry_loop_preserves {W A} `{Runtime W} (I : W -> Prop)
  (name : string) (func : Action W A) :
  (forall w r w', func w = (r, w') -> I w -> I w') ->
  (forall line w, I w -> I (logging_error line w)) ->
  (forall line w, I w -> I (logging_critical line w)) ->
  (forall secs w, I w -> I (time_sleep secs w)) ->
  forall retries w, I w -> I (snd (Retry.retry_loop name func retries w)).
Proof.
  intros Hfunc Herr Hcrit Hsleep retries w.
  funelim (Retry.retry_loop name func retries w); intros Hw; cbn [snd].
  - now apply Hcrit.
  - eapply Hfunc; eauto.
  - match goal with IH : forall _ : W -> Prop, _ |- _ => apply IH; auto end.
    apply Hsleep, Herr. eapply Hfunc; eauto.
Qed.

Lemma connect_to_supabase_sink w :
  sink_rows (snd (connect_to_supabase w)) = sink_rows w
  /\ sink_conn (snd (connect_to_supabase w)) = sink_conn w.
Proof.
  apply (retry_loop_preserves
           (fun w0 => sink_rows w0 = sink_rows w /\ sink_conn w0 = sink_conn w));
    auto.
  intros w0 r w0' Hrun Hw0. unfold connect_to_supabase_body in Hrun.
  destruct (attempt _ _ _) as [r1 w1] eqn:Ha.
  destruct (attempt_inv _ _ _ _ _ Ha) as [(_ & -> & ->)|[_ [= <- <-]]];
    injection Hrun as <- <-; exact Hw0.
Qed.

Lemma connect_to_clickhouse_rows w :
  sink_rows (snd (connect_to_clickhouse w)) = sink_rows w.
Proof.
  apply (retry_loop_preserves (fun w0 => sink_rows w0 = sink_rows w)); auto.
  intros w0 r w0' Hrun Hw0. unfold connect_to_clickhouse_body in Hrun.
  destruct (attempt _ _ _) as [r1 w1] eqn:Ha.
  destruct (attempt_inv _ _ _ _ _ Ha) as [(_ & -> & ->)|[_ [= <- <-]]];
    injection Hrun as <- <-; exact Hw0.
Qed.

Lemma connect_to_clickhouse_opens w client w' :
  connect_to_clickhouse w = (Ok client, w') -> sink_conn w' = Opened.
Proof.
  intros Hrun. apply retry_loop_ok_inv in Hrun. destruct Hrun as [w0 Hrun].
  unfold connect_to_clickhouse_body in Hrun.
  destruct (attempt _ _ _) as [r1 w1] eqn:Ha.
  destruct (attempt_inv _ _ _ _ _ Ha) as [(_ & -> & ->)|[_ [= <- <-]]];
    [discriminate|].
  now injection Hrun as _ <-.
Qed.

(** C3. In every run that has opened both connections, whether the body
    then completes or raises, [etl_process] ends with the source
    connection closed and the sink client still open: the [finally] block
    closes [conn] only. *)
Theorem sink_client_is_never_closed `{DateLib} (w : World)
  (conn : unit) (w1 : World) (clickhouse_client : unit) (w2 : World) :
  connect_to_supabase w = (Ok conn, w1) ->
  connect_to_clickhouse w1 = (Ok clickhouse_client, w2) ->
  exists result w3,
    etl_body w2 = (result, w3)
    /\ etl_process w = (result, etl_finally w3)
    /\ source_conn (etl_finally w3) = Closed
    /\ sink_conn (etl_finally w3) = Opened.
Proof.
  intros H1 H2. destruct (etl_body w2) as [result w3] eqn:Hbody.
  exists result, w3. split; [reflexivity|]. split; [|split].
  - unfold etl_process. now rewrite H1, H2, Hbody.
  - reflexivity.
  - cbn. rewrite (etl_body_conn _ _ _ Hbody).
    eapply connect_to_clickhouse_opens; eauto.
Qed.

Lemma sink_client_is_never_closed_witness :
  (let (result, w) := etl_process quiet_world in
   (result, source_conn w, sink_conn w)) = (Ok tt, Closed, Opened)
  /\ (let (result, w) := etl_process faulty_world in
      (result, source_conn w, sink_conn w))
     = (Raise (DatabaseError "cursor.execute"), Closed, Opened).
Proof.
  split.
  - destruct (sink_client_is_never_closed quiet_world tt
                (snd (connect_to_supabase quiet_world)) tt
                (snd (connect_to_clickhouse (snd (connect_to_supabase quiet_world))))
                eq_refl eq_refl) as (result & w3 & Hbody & -> & Hs & Hk).
    rewrite Hs, Hk. f_equal. f_equal.
    vm_compute in Hbody. now injection Hbody as <- _.
  - destruct (sink_client_is_never_closed faulty_world tt
                (snd (connect_to_supabase faulty_world)) tt
                (snd (connect_to_clickhouse (snd (connect_to_supabase faulty_world))))
                eq_refl eq_refl) as (result & w3 & Hbody & -> & Hs & Hk).
    rewrite Hs, Hk. f_equal. f_equal.
    vm_compute in Hbody. now injection Hbody as <- _.
Defined.

Section Idempotence.
Context `{DateLib}.

Lemma tables_loop_appends (tables : list string) :
  appends (fun _ => True) (tables_loop tables).
Proof.
  induction tables as [|table_name tables IH]; intros w res w' Hrun;
    cbn [tables_loop] in Hrun.
  - injection Hrun as <- <-. now apply appends_nothing.
  - destruct (check_existing_records "grupox" table_name w) as [[b|e] w1] eqn:Hcheck;
      pose proof (check_appends (fun _ => True) _ _ _ _ _ Hcheck) as H1.
    2:{ now injection Hrun as <- <-. }
    destruct b.
    + apply IH in Hrun. eapply appends_trans; [exact H1|exact Hrun].
    + destruct (process_table table_name w1) as [[[]|e] w2] eqn:Hproc;
        destruct (process_table_appends _ _ _ _ Hproc) as [Hc2 (a2 & Hr2 & _)];
        assert (H2 : sink_conn w2 = sink_conn w1
                     /\ exists added, sink_rows w2 = (sink_rows w1 ++ added)%list
                                      /\ Forall (fun _ => True) added)
          by (split; [exact Hc2|]; exists a2; split; [exact Hr2|];
              apply Forall_forall; auto).
      * apply IH in Hrun. eapply appends_trans; [|exact Hrun].
        eapply appends_trans; eassumption.
      * injection Hrun as <- <-. eapply appends_trans; eassumption.
Qed.

Lemma etl_body_appends : appends (fun _ => True) etl_body.
Proof.
  intros w res w' Hrun. unfold etl_body in Hrun.
  destruct (ensure_clickhouse_table w) as [[[]|e] w1] eqn:H1;
    pose proof (ensure_appends (fun _ => True) _ _ _ H1) as A1.
  2:{ now injection Hrun as <- <-. }
  destruct (list_supabase_tables w1) as [[tables|e] w2] eqn:H2;
    pose proof (list_tables_appends (fun _ => True) _ _ _ H2) as A2.
  2:{ injection Hrun as <- <-. eapply appends_trans; eassumption. }
  destruct (tables_loop tables w2) as [[[]|e] w3] eqn:H3;
    pose proof (tables_loop_appends _ _ _ _ H3) as A3;
    pose proof (appends_trans _ _ _ _ (appends_trans _ _ _ _ A1 A2) A3) as A;
    injection Hrun as <- <-; exact A.
Qed.

Lemma etl_process_rows (tag : string) w res w' :
  etl_process w = (res, w') ->
  exists added,
    sink_rows w' = (sink_rows w ++ added)%list
    /\ (tagged tag (sink_rows w) <> [] -> tagged tag added = []).
Proof.
  unfold etl_process. intros Hrun.
  pose proof (connect_to_supabase_sink w) as [Hs1 _].
  destruct (connect_to_supabase w) as [[conn|e] w1]; cbn [snd] in Hs1.
  2:{ injection Hrun as <- <-. exists []. rewrite app_nil_r. auto. }
  pose proof (connect_to_clickhouse_rows w1) as Hs2.
  destruct (connect_to_clickhouse w1) as [[client|e] w2]; cbn [snd] in Hs2.
  2:{ injection Hrun as <- <-. exists []. rewrite app_nil_r.
      split; [congruence|reflexivity]. }
  destruct (etl_body w2) as [result w3] eqn:Hbody.
  injection Hrun as <- <-.
  destruct (etl_body_appends _ _ _ Hbody) as [_ (added & Hr3 & _)].
  exists added. split.
  - cbn. rewrite Hr3. congruence.
  - intros Htag. rewrite <- Hs1, <- Hs2 in Htag.
    pose proof (etl_body_skips tag _ _ _ Hbody Htag) as Hskip.
    rewrite Hr3, tagged_app in Hskip.
    apply (app_inv_head (tagged tag (sink_rows w2))). now rewrite app_nil_r.
Qed.

Lemma has_tag_iff (tag : string) (row : SinkRow) :
  has_tag tag row = true <-> s_tag row = VStr tag.
Proof.
  unfold has_tag, Value_eqb.
  destruct (Value_eq_dec (s_tag row) (VStr tag)); split; auto; discriminate.
Qed.

(** C5, corrected.  For table names that can be pasted into a query as
    they are (no quote, no backslash), and with the loader bound to the
    function that clickhouse_utils.py defines: [check_existing_records]
    answers [True] exactly when the sink holds a row with the tag, and it
    does answer when its query goes through.  After a batch of table [T]
    has been loaded and has added at least one row, it answers [True] for
    [T].  Of two runs in a row, the second adds no row of a table that
    has rows in the sink after the first.  (A table that has contributed
    no row is not remembered, see [nothing_loaded_nothing_remembered].) *)
Theorem loaded_tables_are_skipped :
  (forall tag w b w',
      plain_name tag = true ->
      check_existing_records "grupox" tag w = (Ok b, w') ->
      (b = true <-> exists row, In row (sink_rows w) /\ s_tag row = VStr tag))
  /\ (forall tag w,
        plain_name tag = true ->
        faults w (ops w) = false ->
        exists b w', check_existing_records "grupox" tag w = (Ok b, w'))
  /\ (forall T batch w w1 b w2,
        plain_name T = true ->
        process_batch T batch w = (Ok tt, w1) ->
        sink_rows w1 <> sink_rows w ->
        check_existing_records "grupox" T w1 = (Ok b, w2) ->
        b = true)
  /\ (forall T w r1 w1 r2 w2,
        plain_name T = true ->
        forallb plain_name (map fst (source_tables w)) = true ->
        etl_process w = (r1, w1) ->
        etl_process w1 = (r2, w2) ->
        tagged T (sink_rows w1) <> [] ->
        exists added,
          sink_rows w2 = (sink_rows w1 ++ added)%list /\ tagged T added = []).
Proof.
  split; [|split; [|split]].
  - intros tag w b w' _ Hrun.
    destruct (check_existing_records_result _ _ _ _ Hrun) as [_ [[= ->]|[[=] _]]].
    rewrite existsb_exists. split; intros (row & Hin & Htag); exists row;
      (split; [exact Hin|]); now apply has_tag_iff.
  - intros tag w _ Hok. unfold check_existing_records, command, attempt.
    cbn [faults ops logging_info World_Runtime emit]. rewrite Hok.
    cbn [String.eqb Ascii.eqb Bool.eqb]. eauto.
  - intros T batch w w1 b w2 _ Hload Hgrew Hcheck.
    destruct (process_batch_appends _ _ _ _ _ Hload) as [_ (added & Hrows & Htags)].
    destruct (check_existing_records_result _ _ _ _ Hcheck) as [_ [[= ->]|[[=] _]]].
    destruct added as [|row added]; [rewrite app_nil_r in Hrows; congruence|].
    apply existsb_exists. exists row. split.
    + rewrite Hrows. apply in_or_app. right. now left.
    + apply has_tag_iff. now inversion Htags.
  - intros T w r1 w1 r2 w2 _ _ _ Hrun2 Htag.
    destruct (etl_process_rows T _ _ _ Hrun2) as (added & Hrows & Hnone).
    exists added. auto.
Qed.

End Idempotence.

Lemma loaded_tables_are_skipped_witness :
  let w1 := snd (etl_process quiet_world) in
  let w2 := snd (etl_process w1) in
  tagged "orders" (sink_rows w1) <> []
  /\ exists added,
       sink_rows w2 = (sink_rows w1 ++ added)%list /\ tagged "orders" added = [].
Proof.
  cbv zeta. split; [vm_compute; discriminate|].
  apply (proj2 (proj2 (proj2 loaded_tables_are_skipped)) "orders" quiet_world
           (fst (etl_process quiet_world)) (snd (etl_process quiet_world))
           (fst (etl_process (snd (etl_process quiet_world))))
           (snd (etl_process (snd (etl_process quiet_world))))).
  - reflexivity.
  - reflexivity.
  - now destruct (etl_process quiet_world).
  - now destruct (etl_process (snd (etl_process quiet_world))).
  - vm_compute. discriminate.
Defined.

(** C5, as stated, fails for a table that contributes no row.  A load
    that goes through without adding a row (every row of the batch had a
    missing value) leaves [check_existing_records] answering [False]; and
    of two runs in a row over a source with such a table, or with a table
    without rows, the second does not skip it. *)
Lemma nothing_loaded_nothing_remembered :
  ~ (forall T batch w w1 b w2,
        process_batch T batch w = (Ok tt, w1) ->
        check_existing_records "grupox" T w1 = (Ok b, w2) ->
        b = true)
  /\ ~ (forall T w w1 r2 w2,
          In T (map fst (source_tables w)) ->
          etl_process w = (Ok tt, w1) ->
          etl_process w1 = (r2, w2) ->
          In (skip_line T) (trace w2)).
Proof.
  split.
  - intros Hclaim.
    specialize (Hclaim "drafts" drafts_batch quiet_world
                  (snd (process_batch "drafts" drafts_batch quiet_world)) false
                  (snd (check_existing_records "grupox" "drafts"
                          (snd (process_batch "drafts" drafts_batch quiet_world))))).
    assert (Hb : false = true); [|discriminate Hb].
    apply Hclaim; vm_compute; reflexivity.
  - intros Hclaim.
    assert (Hskip : forall T, In T ["empty"; "drafts"] ->
              In (skip_line T) (trace (snd (etl_process (snd (etl_process drafts_world)))))).
    { intros T HT.
      apply (Hclaim T drafts_world (snd (etl_process drafts_world))
               (fst (etl_process (snd (etl_process drafts_world))))).
      - exact HT.
      - vm_compute. reflexivity.
      - now destruct (etl_process (snd (etl_process drafts_world))). }
    specialize (Hskip "empty" (or_introl eq_refl)).
    vm_compute in Hskip.
    repeat (destruct Hskip as [Hskip|Hskip]; [discriminate Hskip|]).
    exact Hskip.
Qed.

(* ---------- More on the retry wrapper ---------- *)

Lemma retry_hides_the_cause_aux {W A : Type} `{Runtime W}
  (name : string) (func : Action W A) (retries : Z) (w : W) (e : exn) (w' : W) :
  Retry.retry_loop name func retries w = (Raise e, w') ->
  exists w0, w' = logging_critical (Retry.critical_line name) w0.
Proof.
  funelim (Retry.retry_loop name func retries w); intros Hrun.
  - injection Hrun as <- <-. eauto.
  - discriminate.
  - eauto.
Qed.

(** X1. Whatever the wrapped function raised, the exception that leaves
    the wrapper is the generic [Exception] that names the function and
    the three attempts: the class and the message of the original error
    survive only in the log.  The critical line is the last thing the
    wrapper does. *)
Theorem retry_hides_the_cause {W A : Type} `{Runtime W}
  (name : string) (func : Action W A) (w : W) (e : exn) (w' : W) :
  Retry.retry_on_failure name func w = (Raise e, w') ->
  e = Exception ("Function " ++ name ++ " failed after 3 attempts.")
  /\ exists w0, w' = logging_critical (Retry.critical_line name) w0.
Proof.
  unfold Retry.retry_on_failure, Retry.wrapper. generalize 0 at 1.
  intros retries.
  funelim (Retry.retry_loop name func retries w); intros Hrun.
  - injection Hrun as <- <-. split; [reflexivity|eauto].
  - discriminate.
  - eauto.
Qed.

Lemma retry_hides_the_cause_witness :
  fst (Retry.retry_on_failure "flaky" always_down quiet_world)
  = Raise (Exception "Function flaky failed after 3 attempts.").
Proof.
  destruct (Retry.retry_on_failure "flaky" always_down quiet_world)
    as [[a|e] w'] eqn:Hrun.
  - vm_compute in Hrun. discriminate.
  - cbn [fst]. f_equal.
    exact (proj1 (retry_hides_the_cause "flaky" always_down quiet_world e w' Hrun)).
Defined.

Section Attempts.
Context {W A : Type} `{Runtime W}.
Variable name : string.
Variable func : Action W A.

Lemma counted_step (w : W) (n : nat) :
  counted func (w, n) = (fst (func w), (snd (func w), S n)).
Proof. unfold counted. cbn [fst snd]. now destruct (func w). Qed.

Lemma retry_loop_counted (retries : Z) (s : W * nat) :
  0 <= retries ->
  (snd s <= snd (snd (Retry.retry_loop name (counted func) retries s)))%nat
  /\ (Z.of_nat (snd (snd (Retry.retry_loop name (counted func) retries s)))
      <= Z.of_nat (snd s) + Z.max 0 (Retry.MAX_RETRIES - retries))
  /\ (retries < Retry.MAX_RETRIES ->
      (S (snd s) <= snd (snd (Retry.retry_loop name (counted func) retries s)))%nat).
Proof.
  funelim (Retry.retry_loop name (counted func) retries s); intros Hpos.
  - cbn [snd logging_critical Counted_Runtime]. unfold Retry.MAX_RETRIES in *.
    repeat split; lia.
  - destruct w as [w0 c]. rewrite counted_step in Heq.
    injection Heq as _ <-. cbn [snd]. unfold Retry.MAX_RETRIES in *.
    repeat split; lia.
  - destruct w as [w0 c]. rewrite counted_step in Heq.
    injection Heq as _ <-.
    match goal with IH : 0 <= retries + 1 -> _ |- _ =>
      destruct (IH ltac:(lia)) as (Ha & Hb & Hc) end.
    cbn [snd time_sleep logging_error Counted_Runtime] in *.
    unfold Retry.MAX_RETRIES in *. repeat split; lia.
Qed.

End Attempts.

(** X2. In every call of a wrapped function the function itself is
    invoked at least once and at most three times, whatever it does. *)
Theorem retry_attempts_bounded {W A : Type} `{Runtime W}
  (name : string) (func : Action W A) (w : W) :
  (1 <= snd (snd (Retry.retry_on_failure name (counted func) (w, O))) <= 3)%nat.
Proof.
  unfold Retry.retry_on_failure, Retry.wrapper.
  pose proof (retry_loop_counted name func 0 (w, O) ltac:(lia)) as Hn.
  cbn zeta in Hn. cbn [snd] in Hn. unfold Retry.MAX_RETRIES in Hn.
  destruct Hn as (Ha & Hb & Hc). split; [apply Hc|]; lia.
Qed.

(* ---------- Connecting, with retries ---------- *)

Lemma connect_to_supabase_body_fault (w : World) :
  faults w (ops w) = true ->
  exists w1,
    connect_to_supabase_body w = (Raise (DatabaseError "psycopg2.connect"), w1)
    /\ ops w1 = S (ops w) /\ clock w1 = clock w /\ faults w1 = faults w
    /\ source_conn w1 = source_conn w /\ sink_conn w1 = sink_conn w
    /\ sink_rows w1 = sink_rows w /\ source_tables w1 = source_tables w.
Proof.
  intros Hf. unfold connect_to_supabase_body, attempt. wsimp. rewrite Hf.
  eexists. split; [reflexivity|]. wsimp. repeat split.
Qed.

Lemma connect_to_supabase_body_ok (w : World) :
  faults w (ops w) = false ->
  exists w1,
    connect_to_supabase_body w = (Ok tt, w1)
    /\ ops w1 = S (ops w) /\ clock w1 = clock w /\ faults w1 = faults w
    /\ source_conn w1 = Opened /\ sink_conn w1 = sink_conn w
    /\ sink_rows w1 = sink_rows w /\ source_tables w1 = source_tables w.
Proof.
  intros Hf. unfold connect_to_supabase_body, attempt. wsimp. rewrite Hf.
  eexists. split; [reflexivity|]. wsimp. repeat split.
Qed.

Lemma connect_to_clickhouse_body_fault (w : World) :
  faults w (ops w) = true ->
  exists w1,
    connect_to_clickhouse_body w
    = (Raise (DatabaseError "clickhouse_connect.get_client"), w1)
    /\ ops w1 = S (ops w) /\ clock w1 = clock w /\ faults w1 = faults w
    /\ source_conn w1 = source_conn w /\ sink_conn w1 = sink_conn w
    /\ sink_rows w1 = sink_rows w /\ source_tables w1 = source_tables w.
Proof.
  intros Hf. unfold connect_to_clickhouse_body, attempt. wsimp. rewrite Hf.
  eexists. split; [reflexivity|]. wsimp. repeat split.
Qed.

Lemma after_failure_fields name e k w :
  ops (after_failure name e k w) = ops w
  /\ clock (after_failure name e k w) = clock w + seconds 5
  /\ faults (after_failure name e k w) = faults w
  /\ source_conn (after_failure name e k w) = source_conn w
  /\ sink_conn (after_failure name e k w) = sink_conn w
  /\ sink_rows (after_failure name e k w) = sink_rows w
  /\ source_tables (after_failure name e k w) = source_tables w.
Proof. unfold after_failure, seconds, Retry.RETRY_DELAY. wsimp. repeat split. Qed.

Lemma connect_to_supabase_opens w conn w' :
  connect_to_supabase w = (Ok conn, w') -> source_conn w' = Opened.
Proof.
  intros Hrun. apply retry_loop_ok_inv in Hrun. destruct Hrun as [w0 Hrun].
  unfold connect_to_supabase_body in Hrun.
  destruct (attempt _ _ _) as [r1 w1] eqn:Ha.
  destruct (attempt_inv _ _ _ _ _ Ha) as [(_ & -> & ->)|[_ [= <- <-]]];
    [discriminate|].
  now injection Hrun as _ <-.
Qed.

(** X3. A transient fault is absorbed: when the first attempt to reach
    the source fails and the second goes through, [connect_to_supabase]
    returns normally with the source connection open, after two attempts
    and one pause of five seconds; the sink is not touched. *)
Theorem connect_recovers_from_a_transient_fault (w : World) :
  faults w (ops w) = true ->
  faults w (S (ops w)) = false ->
  exists w',
    connect_to_supabase w = (Ok tt, w')
    /\ source_conn w' = Opened
    /\ ops w' = S (S (ops w))
    /\ clock w' = clock w + seconds 5
    /\ sink_conn w' = sink_conn w
    /\ sink_rows w' = sink_rows w.
Proof.
  intros Hf1 Hf2.
  destruct (connect_to_supabase_body_fault w Hf1)
    as (w1 & Hb1 & Ho1 & Hc1 & Hfa1 & Hs1 & Hk1 & Hr1 & _).
  pose proof (after_failure_fields "connect_to_supabase"
                (DatabaseError "psycopg2.connect") (0 + 1) w1)
    as (Ho2 & Hc2 & Hfa2 & Hs2 & Hk2 & Hr2 & _).
  destruct (connect_to_supabase_body_ok
              (after_failure "connect_to_supabase"
                 (DatabaseError "psycopg2.connect") (0 + 1) w1))
    as (w2 & Hb2 & Ho3 & Hc3 & Hfa3 & Hs3 & Hk3 & Hr3 & _).
  { rewrite Hfa2, Ho2, Hfa1, Ho1. exact Hf2. }
  exists w2. split.
  - unfold connect_to_supabase, Retry.retry_on_failure, Retry.wrapper.
    rewrite (retry_loop_fail _ _ 0 w w1 _ ltac:(reflexivity) Hb1).
    apply retry_loop_ok; [reflexivity|exact Hb2].
  - repeat split; congruence.
Qed.

Lemma connect_recovers_from_a_transient_fault_witness :
  exists w',
    connect_to_supabase
      (mkWorld [] 0 (fun k => Nat.eqb k 0) O 1%nat [] NotOpened [] NotOpened)
    = (Ok tt, w')
    /\ source_conn w' = Opened /\ clock w' = 5000000000.
Proof.
  destruct (connect_recovers_from_a_transient_fault
              (mkWorld [] 0 (fun k => Nat.eqb k 0) O 1%nat [] NotOpened [] NotOpened)
              eq_refl eq_refl)
    as (w' & Hrun & Hs & _ & Hc & _).
  exists w'. repeat split; assumption.
Defined.

Lemma retry_three_faults {A} (name : string) (body : Action World A) (what : string)
  (w : World) :
  (forall w0, faults w0 (ops w0) = true ->
     exists w1, body w0 = (Raise (DatabaseError what), w1)
       /\ ops w1 = S (ops w0) /\ clock w1 = clock w0 /\ faults w1 = faults w0
       /\ source_conn w1 = source_conn w0 /\ sink_conn w1 = sink_conn w0
       /\ sink_rows w1 = sink_rows w0 /\ source_tables w1 = source_tables w0) ->
  faults w (ops w) = true ->
  faults w (S (ops w)) = true ->
  faults w (S (S (ops w))) = true ->
  exists w',
    Retry.retry_on_failure name body w = (Raise (Retry.fatal name), w')
    /\ ops w' = S (S (S (ops w)))
    /\ clock w' = clock w + seconds 15
    /\ source_conn w' = source_conn w
    /\ sink_conn w' = sink_conn w
    /\ sink_rows w' = sink_rows w.
Proof.
  intros Hbody Hf1 Hf2 Hf3.
  destruct (Hbody w Hf1) as (w1 & Hb1 & Ho1 & Hc1 & Hfa1 & Hs1 & Hk1 & Hr1 & _).
  pose proof (after_failure_fields name (DatabaseError what) (0 + 1) w1)
    as (Ho1' & Hc1' & Hfa1' & Hs1' & Hk1' & Hr1' & _).
  destruct (Hbody (after_failure name (DatabaseError what) (0 + 1) w1))
    as (w2 & Hb2 & Ho2 & Hc2 & Hfa2 & Hs2 & Hk2 & Hr2 & _).
  { rewrite Hfa1', Ho1', Hfa1, Ho1. exact Hf2. }
  pose proof (after_failure_fields name (DatabaseError what) (0 + 1 + 1) w2)
    as (Ho2' & Hc2' & Hfa2' & Hs2' & Hk2' & Hr2' & _).
  destruct (Hbody (after_failure name (DatabaseError what) (0 + 1 + 1) w2))
    as (w3 & Hb3 & Ho3 & Hc3 & Hfa3 & Hs3 & Hk3 & Hr3 & _).
  { rewrite Hfa2', Ho2', Hfa2, Ho2, Hfa1', Ho1', Hfa1, Ho1. exact Hf3. }
  pose proof (after_failure_fields name (DatabaseError what) (0 + 1 + 1 + 1) w3)
    as (Ho3' & Hc3' & Hfa3' & Hs3' & Hk3' & Hr3' & _).
  eexists. split.
  - unfold Retry.retry_on_failure, Retry.wrapper.
    rewrite (retry_loop_fail _ _ 0 w w1 _ ltac:(reflexivity) Hb1).
    fold (after_failure name (DatabaseError what) (0 + 1) w1).
    rewrite (retry_loop_fail _ _ (0 + 1) _ w2 _ ltac:(reflexivity) Hb2).
    fold (after_failure name (DatabaseError what) (0 + 1 + 1) w2).
    rewrite (retry_loop_fail _ _ (0 + 1 + 1) _ w3 _ ltac:(reflexivity) Hb3).
    fold (after_failure name (DatabaseError what) (0 + 1 + 1 + 1) w3).
    rewrite retry_loop_exit by (unfold Retry.MAX_RETRIES; lia).
    reflexivity.
  - wsimp. unfold seconds in *. repeat split; try congruence; lia.
Qed.

(** X4. When the source cannot be reached, a run ends after three
    attempts and fifteen seconds with the wrapper's exception; it never
    contacts the sink, opens no connection and does not reach the
    [try] block, so neither [finally] nor its log line run. *)
Theorem etl_process_source_down `{DateLib} (w : World) :
  faults w (ops w) = true ->
  faults w (S (ops w)) = true ->
  faults w (S (S (ops w))) = true ->
  exists w',
    etl_process w
    = (Raise (Exception "Function connect_to_supabase failed after 3 attempts."), w')
    /\ ops w' = S (S (S (ops w)))
    /\ clock w' = clock w + seconds 15
    /\ source_conn w' = source_conn w
    /\ sink_conn w' = sink_conn w
    /\ sink_rows w' = sink_rows w
    /\ last (trace w') (Sleep 0)
       = LogCritical (Retry.critical_line "connect_to_supabase").
Proof.
  intros Hf1 Hf2 Hf3.
  destruct (retry_three_faults "connect_to_supabase" connect_to_supabase_body
              "psycopg2.connect" w connect_to_supabase_body_fault Hf1 Hf2 Hf3)
    as (w' & Hrun & Hrest).
  exists w'. split.
  - unfold etl_process, connect_to_supabase. rewrite Hrun. reflexivity.
  - repeat split; try apply Hrest.
    unfold Retry.retry_on_failure, Retry.wrapper in Hrun.
    destruct (retry_hides_the_cause_aux "connect_to_supabase"
                connect_to_supabase_body 0 w _ _ Hrun) as [w0 ->].
    cbn [logging_critical World_Runtime emit trace]. apply last_last.
Qed.

Lemma etl_process_source_down_witness :
  exists w',
    etl_process (down_for 3)
    = (Raise (Exception "Function connect_to_supabase failed after 3 attempts."), w')
    /\ clock w' = 15000000000 /\ source_conn w' = NotOpened.
Proof.
  destruct (etl_process_source_down (down_for 3) eq_refl eq_refl eq_refl)
    as (w' & Hrun & _ & Hc & Hs & _).
  exists w'. repeat split; assumption.
Defined.

(** X5. The source connection is opened before the [try] block: when the
    sink cannot be reached afterwards, the run raises the wrapper's
    exception for [connect_to_clickhouse] and the source connection is
    left open, since [finally] is never entered. *)
Theorem source_connection_leaks `{DateLib} (w : World) (conn : unit) (w1 : World) :
  connect_to_supabase w = (Ok conn, w1) ->
  faults w1 (ops w1) = true ->
  faults w1 (S (ops w1)) = true ->
  faults w1 (S (S (ops w1))) = true ->
  exists w',
    etl_process w
    = (Raise (Exception "Function connect_to_clickhouse failed after 3 attempts."), w')
    /\ source_conn w' = Opened
    /\ sink_rows w' = sink_rows w
    /\ last (trace w') (Sleep 0)
       = LogCritical (Retry.critical_line "connect_to_clickhouse").
Proof.
  intros Hsrc Hf1 Hf2 Hf3.
  destruct (retry_three_faults "connect_to_clickhouse" connect_to_clickhouse_body
              "clickhouse_connect.get_client" w1 connect_to_clickhouse_body_fault
              Hf1 Hf2 Hf3)
    as (w' & Hrun & _ & _ & Hs & _ & Hr).
  exists w'. split; [|split; [|split]].
  - unfold etl_process. rewrite Hsrc. unfold connect_to_clickhouse.
    rewrite Hrun. reflexivity.
  - rewrite Hs. eapply connect_to_supabase_opens; eauto.
  - rewrite Hr. pose proof (connect_to_supabase_sink w) as [Hrows _].
    now rewrite Hsrc in Hrows.
  - unfold Retry.retry_on_failure, Retry.wrapper in Hrun.
    destruct (retry_hides_the_cause_aux "connect_to_clickhouse"
                connect_to_clickhouse_body 0 w1 _ _ Hrun) as [w0 ->].
    cbn [logging_critical World_Runtime emit trace]. apply last_last.
Qed.

Lemma source_connection_leaks_witness :
  exists w',
    etl_process sink_down
    = (Raise (Exception "Function connect_to_clickhouse failed after 3 attempts."), w')
    /\ source_conn w' = Opened.
Proof.
  destruct (source_connection_leaks sink_down tt (snd (connect_to_supabase sink_down))
              eq_refl eq_refl eq_refl eq_refl)
    as (w' & Hrun & Hs & _).
  exists w'. split; assumption.
Defined.

(* ---------- More on the single stages ---------- *)

Lemma row_eqb_eq (r1 r2 : list Value) : row_eqb r1 r2 = true <-> r1 = r2.
Proof.
  unfold row_eqb. destruct (list_eq_dec Value_eq_dec r1 r2); split;
    congruence || discriminate.
Qed.

Lemma Value_eqb_eq (a b : Value) : Value_eqb a b = true <-> a = b.
Proof.
  unfold Value_eqb. destruct (Value_eq_dec a b); split; congruence || discriminate.
Qed.

Section Distinct.
Context {A : Type} (eqb : A -> A -> bool).
Hypothesis eqb_eq : forall x y, eqb x y = true <-> x = y.

Lemma existsb_eqb (x : A) (seen : list A) : existsb (eqb x) seen = true <-> In x seen.
Proof.
  rewrite existsb_exists. split.
  - intros (y & Hy & Heq). apply eqb_eq in Heq. now subst.
  - intros Hin. exists x. split; [exact Hin|]. now apply eqb_eq.
Qed.

Lemma distinct_from_spec (seen l : list A) :
  NoDup (distinct_from eqb seen l)
  /\ forall r, In r (distinct_from eqb seen l) <-> (In r l /\ ~ In r seen).
Proof.
  revert seen. induction l as [|x l IH]; intros seen; cbn [distinct_from].
  - split; [constructor|]. intros r. cbn. tauto.
  - destruct (existsb (eqb x) seen) eqn:Hex.
    + apply existsb_eqb in Hex. destruct (IH seen) as [Hnd Hin].
      split; [exact Hnd|]. intros r. rewrite Hin. cbn [In]. split.
      * intros [? ?]. auto.
      * intros [[<-|?] Hn]; [contradiction|auto].
    + assert (Hx : ~ In x seen).
      { intros Hin. apply existsb_eqb in Hin. congruence. }
      destruct (IH (x :: seen)) as [Hnd Hin]. split.
      * constructor; [|exact Hnd]. rewrite Hin. cbn [In]. tauto.
      * intros r. cbn [In]. rewrite Hin. cbn [In]. split.
        -- intros [<-|[? Hn]]; [auto|]. split; [auto|]. intros ?. apply Hn. auto.
        -- intros [Hr Hn].
           destruct (eqb x r) eqn:Heq; [apply eqb_eq in Heq; now left|].
           assert (Hne : x <> r) by (intros Hxr; apply eqb_eq in Hxr; congruence).
           right. destruct Hr as [Hxr|Hr]; [contradiction|].
           split; [exact Hr|]. intros [Hxr|Hs]; contradiction.
Qed.

Lemma distinct_from_nodup (seen l : list A) :
  NoDup l -> (forall r, In r l -> ~ In r seen) ->
  distinct_from eqb seen l = l.
Proof.
  revert seen. induction l as [|x l IH]; intros seen Hnd Hsep; [reflexivity|].
  cbn [distinct_from]. inversion Hnd as [|? ? Hx Hl]; subst.
  destruct (existsb (eqb x) seen) eqn:Hex.
  - apply existsb_eqb in Hex. exfalso. apply (Hsep x); [now left|exact Hex].
  - f_equal. apply IH; [exact Hl|].
    intros r Hr [<-|Hin]; [contradiction|]. apply (Hsep r); [now right|exact Hin].
Qed.

Lemma distinct_from_length (seen l : list A) :
  (List.length (distinct_from eqb seen l) <= List.length l)%nat.
Proof.
  revert seen. induction l as [|x l IH]; intros seen; cbn [distinct_from List.length];
    [lia|].
  destruct (existsb (eqb x) seen); cbn [List.length].
  - specialize (IH seen). lia.
  - specialize (IH (x :: seen)). lia.
Qed.

End Distinct.

(** X6. [remove_duplicates] never raises; the batch it returns has the
    labels of its argument, holds every row of the argument exactly once,
    and is left as it is by a second call. *)
Theorem remove_duplicates_distinct (d : DataFrame) :
  exists out,
    call remove_duplicates d = Ok out
    /\ columns out = columns d
    /\ NoDup (rows out)
    /\ (forall r, In r (rows out) <-> In r (rows d))
    /\ call remove_duplicates out = Ok out.
Proof.
  exists (drop_duplicates d).
  rewrite !(call_spec _ _ remove_duplicates_spec). unfold dedupe_c.
  destruct (distinct_from_spec row_eqb row_eqb_eq [] (rows d)) as [Hnd Hin].
  split; [reflexivity|]. split; [reflexivity|]. split; [exact Hnd|]. split.
  - intros r. unfold drop_duplicates, distinct. cbn [rows]. rewrite Hin. cbn. tauto.
  - rewrite (call_spec _ _ remove_duplicates_spec (drop_duplicates d)).
    unfold dedupe_c. f_equal. unfold drop_duplicates, distinct. cbn [rows columns].
    rewrite (distinct_from_nodup row_eqb row_eqb_eq [] (distinct_from row_eqb [] (rows d)));
      [reflexivity|exact Hnd|]. intros r _ [].
Qed.

(** X7. The column mapping is the placeholder [old_column_name ->
    new_column_name]: on a batch without a column of that name
    [map_fields] returns the batch as it is. *)
Theorem map_fields_is_a_placeholder (d : DataFrame) :
  ~ In "old_column_name" (columns d) ->
  call map_fields d = Ok d.
Proof.
  intros Hno. rewrite (call_spec _ _ map_fields_spec). unfold map_c, rename.
  destruct d as [cols rs]. cbn [columns rows] in *. f_equal. f_equal.
  induction cols as [|c cols IH]; [reflexivity|]. cbn [map].
  rewrite IH by (intros Hin; apply Hno; now right). f_equal.
  unfold column_mapping. cbn [lookup].
  destruct (String.eqb_spec "old_column_name" c) as [<-|_]; [|reflexivity].
  exfalso. apply Hno. now left.
Qed.

Lemma map_fields_is_a_placeholder_witness :
  call map_fields orders_batch = Ok orders_batch.
Proof.
  apply map_fields_is_a_placeholder.
  cbn [columns orders_batch In].
  intros [H|[H|[H|[H|[]]]]]; discriminate H.
Defined.

Lemma mapM_raise {A B} (f : A -> Result B) (P : exn -> Prop) (l : list A) (x : A) :
  (forall y e, f y = Raise e -> P e) ->
  In x l -> (exists e, f x = Raise e) ->
  exists e, mapM f l = Raise e /\ P e.
Proof.
  intros HP. induction l as [|y l IH]; intros Hin Hx; [contradiction|].
  cbn [mapM]. destruct (f y) as [b|e] eqn:Hy.
  - cbn [bind]. destruct Hin as [->|Hin].
    + destruct Hx as [e He]. congruence.
    + destruct (IH Hin Hx) as (e & -> & He). cbn [bind]. eauto.
  - cbn [bind]. eauto.
Qed.

(** X8. An [amount] that is text or a time cannot be compared with the
    bounds: one such cell makes [validate_data] raise [TypeError], and no
    batch is returned. *)
Theorem validate_rejects_text_amount (d : DataFrame) (r : list Value) :
  has_column d "amount" = true ->
  In r (rows d) ->
  not_comparable (cell d "amount" r) = true ->
  exists msg, call validate_data d = Raise (TypeError msg).
Proof.
  intros Hcol Hr Hcell. rewrite (call_spec _ _ validate_data_spec).
  unfold validate_c. rewrite Hcol.
  destruct (mapM_raise (between 0 1000000) (fun e => exists msg, e = TypeError msg)
              (get_col d "amount") (cell d "amount" r))
    as (e & -> & msg & ->).
  - intros y e. destruct y as [|n|x|s|t]; cbn [between Num.to_Q];
      try discriminate; intros [= <-]; eauto.
  - unfold get_col. now apply in_map.
  - destruct (cell d "amount" r); try discriminate Hcell; cbn; eauto.
  - cbn [bind]. eauto.
Qed.

Lemma validate_rejects_text_amount_witness :
  exists msg, call validate_data text_amount_batch = Raise (TypeError msg).
Proof.
  apply (validate_rejects_text_amount text_amount_batch [VInt 2; VStr "n/a"]).
  - reflexivity.
  - cbn. auto.
  - reflexivity.
Defined.

(* ---------- [convert_data_types] ---------- *)

Lemma mapM_length {A B} (f : A -> Result B) (l : list A) (ys : list B) :
  mapM f l = Ok ys -> List.length ys = List.length l.
Proof.
  intros Hm. apply mapM_Forall2 in Hm.
  induction Hm; cbn [List.length]; congruence.
Qed.

Lemma to_numeric_length (vals out : list Value) :
  to_numeric vals = Ok out -> List.length out = List.length vals.
Proof.
  unfold to_numeric. destruct (mapM to_numeric_value vals) as [ns|e] eqn:Hm;
    [|discriminate].
  cbn [bind]. apply mapM_length in Hm.
  destruct (forallb is_int ns); intros [= <-]; [|rewrite length_map]; exact Hm.
Qed.

Lemma cells_put_same (d d' : DataFrame) (c : string) (rs : list (list Value))
  (vals : list Value) :
  columns d' = columns_with d c ->
  List.length vals = List.length rs ->
  map (cell d' c) (map (fun rv => put (target d c) (snd rv) (fst rv)) (combine rs vals))
  = vals.
Proof.
  intros Hc. revert vals.
  induction rs as [|r rs IH]; intros [|v vals]; cbn [List.length combine map];
    try discriminate; [reflexivity|].
  intros [= Hlen]. rewrite IH by exact Hlen. f_equal.
  cbn [fst snd]. now rewrite (cell_put_same d) by exact Hc.
Qed.

Lemma cells_put_other (d d' : DataFrame) (c c' : string) (rs : list (list Value))
  (vals : list Value) :
  columns d' = columns_with d c -> c' <> c ->
  List.length vals = List.length rs ->
  map (cell d' c') (map (fun rv => put (target d c) (snd rv) (fst rv)) (combine rs vals))
  = map (cell d c') rs.
Proof.
  intros Hc Hne. revert vals.
  induction rs as [|r rs IH]; intros [|v vals]; cbn [List.length combine map];
    try discriminate; [reflexivity|].
  intros [= Hlen]. rewrite IH by exact Hlen. f_equal.
  cbn [fst snd]. now rewrite (cell_put_other d) by (exact Hc || exact Hne).
Qed.

Lemma get_col_set_col_same (d : DataFrame) (c : string) (vals : list Value) :
  List.length vals = List.length (rows d) ->
  get_col (set_col d c vals) c = vals.
Proof.
  intros Hlen. unfold get_col. cbn [rows set_col].
  now apply (cells_put_same d).
Qed.

Lemma get_col_set_col_other (d : DataFrame) (c c' : string) (vals : list Value) :
  c' <> c ->
  List.length vals = List.length (rows d) ->
  get_col (set_col d c vals) c' = get_col d c'.
Proof.
  intros Hne Hlen. unfold get_col. cbn [rows set_col].
  now apply (cells_put_other d).
Qed.

Lemma get_col_set_col_with_same (d : DataFrame) (c : string)
  (f : list Value -> Value) :
  get_col (set_col_with d c f) c = map f (rows d).
Proof.
  unfold get_col, set_col_with. cbn [rows]. rewrite map_map.
  apply map_ext. intros r. now rewrite (cell_put_same d) by reflexivity.
Qed.

Lemma get_col_set_col_with_other (d : DataFrame) (c c' : string)
  (f : list Value -> Value) :
  c' <> c -> get_col (set_col_with d c f) c' = get_col d c'.
Proof.
  intros Hne. unfold get_col, set_col_with. cbn [rows]. rewrite map_map.
  apply map_ext. intros r.
  now rewrite (cell_put_other d) by (reflexivity || exact Hne).
Qed.

Lemma get_col_length (d : DataFrame) (c : string) :
  List.length (get_col d c) = List.length (rows d).
Proof. unfold get_col. apply length_map. Qed.

Lemma set_col_len (d : DataFrame) (c : string) (vals : list Value) :
  List.length vals = List.length (rows d) -> len (set_col d c vals) = len d.
Proof.
  intros Hlen. unfold len, set_col. cbn [rows].
  rewrite length_map, length_combine, Hlen. apply Nat.min_id.
Qed.

Section Convert.
Context `{DateLib}.

(** One round of the first loop: the column is converted, or the frame
    is returned as it is. *)
Lemma numeric_step_cases (d : DataFrame) (col : string) (d' : DataFrame) :
  numeric_step d col = Ok d' ->
  d' = d
  \/ (exists vals, dtype_of (get_col d col) = Object
                   /\ to_numeric (get_col d col) = Ok vals
                   /\ d' = set_col d col vals).
Proof.
  unfold numeric_step.
  destruct (dtype_of (get_col d col)); cbn [dtype_eqb]; try (intros [= <-]; now left).
  destruct (to_numeric (get_col d col)) as [vals|[]] eqn:Hn; try discriminate.
  - intros [= <-]. right. eauto.
  - intros [= <-]. now left.
Qed.

Lemma numeric_step_shape (d : DataFrame) (col : string) (d' : DataFrame) :
  In col (columns d) -> numeric_step d col = Ok d' ->
  columns d' = columns d /\ len d' = len d.
Proof.
  intros Hin Hstep.
  destruct (numeric_step_cases _ _ _ Hstep) as [->|(vals & _ & Hn & ->)]; [auto|].
  split.
  - cbn. apply columns_with_present. now apply has_column_In.
  - apply set_col_len. rewrite (to_numeric_length _ _ Hn). apply get_col_length.
Qed.

Lemma numeric_step_other (d : DataFrame) (col c : string) (d' : DataFrame) :
  c <> col -> numeric_step d col = Ok d' -> get_col d' c = get_col d c.
Proof.
  intros Hne Hstep.
  destruct (numeric_step_cases _ _ _ Hstep) as [->|(vals & _ & Hn & ->)];
    [reflexivity|].
  apply get_col_set_col_other; [exact Hne|].
  rewrite (to_numeric_length _ _ Hn). apply get_col_length.
Qed.

Lemma foldM_numeric_shape (l : list string) (d d' : DataFrame) :
  incl l (columns d) -> foldM numeric_step l d = Ok d' ->
  columns d' = columns d /\ len d' = len d.
Proof.
  revert d. induction l as [|col l IH]; intros d Hincl; cbn [foldM].
  - now intros [= <-].
  - destruct (numeric_step d col) as [d1|e] eqn:Hstep; [|discriminate].
    cbn [bind]. intros Hrest.
    destruct (numeric_step_shape d col d1) as [Hc Hl];
      [apply Hincl; now left|exact Hstep|].
    destruct (IH d1) as [Hc' Hl']; [|exact Hrest|split; congruence].
    rewrite Hc. intros x Hx. apply Hincl. now right.
Qed.

Lemma date_step_len (d : DataFrame) (col : string) : len (date_step d col) = len d.
Proof.
  unfold date_step. destruct (str_contains "date" col); [|reflexivity].
  unfold len, set_col_with. cbn [rows]. apply length_map.
Qed.

Lemma fold_date_step_len (l : list string) (d : DataFrame) :
  len (fold_left date_step l d) = len d.
Proof.
  revert d. induction l as [|col l IH]; intros d; cbn [fold_left]; [reflexivity|].
  rewrite IH. apply date_step_len.
Qed.

Lemma date_step_other (d : DataFrame) (col c : string) :
  str_contains "date" c = false -> get_col (date_step d col) c = get_col d c.
Proof.
  intros Hc. unfold date_step. destruct (str_contains "date" col) eqn:Hcol;
    [|reflexivity].
  apply get_col_set_col_with_other. intros ->. congruence.
Qed.

Lemma fold_date_step_other (l : list string) (d : DataFrame) (c : string) :
  str_contains "date" c = false -> get_col (fold_left date_step l d) c = get_col d c.
Proof.
  intros Hc. revert d. induction l as [|col l IH]; intros d; cbn [fold_left];
    [reflexivity|].
  rewrite IH. now apply date_step_other.
Qed.

Lemma convert_c_shape (d out : DataFrame) :
  convert_c d = Ok out -> columns out = columns d /\ len out = len d.
Proof.
  unfold convert_c.
  destruct (foldM numeric_step (columns d) d) as [d1|e] eqn:Hfold; [|discriminate].
  cbn [bind]. intros [= <-].
  destruct (foldM_numeric_shape _ _ _ (incl_refl _) Hfold) as [Hc Hl].
  rewrite fold_date_step_columns by apply incl_refl.
  rewrite fold_date_step_len. auto.
Qed.

(** X9. When [convert_data_types] returns, the batch has the labels and
    the number of rows it had, and every column whose name contains
    [date] holds timestamps only (text that does not parse as a date has
    become [NaT], which a later serialization cannot write). *)
Theorem convert_keeps_shape_and_dates (d out : DataFrame) :
  call convert_data_types d = Ok out ->
  columns out = columns d
  /\ len out = len d
  /\ forall c, In c (columns d) -> str_contains "date" c = true -> times_at out c.
Proof.
  rewrite (call_spec _ _ convert_data_types_spec). intros Hout.
  destruct (convert_c_shape _ _ Hout) as [Hc Hl]. split; [exact Hc|].
  split; [exact Hl|]. intros c Hin Hdate.
  unfold convert_c in Hout.
  destruct (foldM numeric_step (columns d) d) as [d1|e] eqn:Hfold; [|discriminate].
  cbn [bind] in Hout. injection Hout as <-.
  apply fold_date_step_times; [exact Hdate|]. left.
  destruct (foldM_numeric_shape _ _ _ (incl_refl _) Hfold) as [Hc1 _].
  now rewrite Hc1.
Qed.

End Convert.

Lemma convert_keeps_shape_and_dates_witness :
  exists out,
    call convert_data_types texts_batch = Ok out
    /\ columns out = ["qty"; "code"; "update_date"]
    /\ len out = 3%nat
    /\ times_at out "update_date".
Proof.
  eexists. split; [reflexivity|].
  destruct (convert_keeps_shape_and_dates texts_batch _ eq_refl) as (Hc & Hl & Ht).
  split; [exact Hc|]. split; [exact Hl|].
  apply Ht; [cbn; auto|reflexivity].
Defined.

(* ---------- Numbers written as text ---------- *)

Lemma str_app_nil_r (s : string) : (s ++ "")%string = s.
Proof. induction s as [|c s IH]; cbn; [reflexivity|now rewrite IH]. Qed.

Lemma read_unsigned_int_end (neg : bool) (n : N) :
  read_unsigned neg (str_digits (digits_of_N n))
  = Some (VInt (if neg then - Z.of_N n else Z.of_N n), EmptyString).
Proof.
  unfold read_unsigned.
  rewrite <- (str_app_nil_r (str_digits (digits_of_N n))).
  rewrite read_digits_str by discriminate.
  rewrite digits_val_of_N. cbn [starts_with].
  pose proof (digits_of_N_nonempty n) as Hne.
  destruct (digits_of_N n) as [|d ds]; [congruence|]. reflexivity.
Qed.

Lemma parse_number_str_int (n : Z) : parse_number (str_int n) = Some (VInt n).
Proof.
  unfold parse_number, str_int. destruct (n <? 0) eqn:Hneg.
  - cbn [append]. change (("-" =? "-")%char) with true. cbv iota.
    rewrite read_unsigned_int_end. apply Z.ltb_lt in Hneg.
    rewrite N2Z.inj_abs_N. do 2 f_equal. lia.
  - cbn [append]. apply Z.ltb_ge in Hneg.
    pose proof (digits_of_N_nonempty (Z.abs_N n)) as Hne.
    pose proof (read_unsigned_int_end false (Z.abs_N n)) as Hread.
    destruct (digits_of_N (Z.abs_N n)) as [|d ds]; [congruence|].
    cbn [str_digits] in *.
    assert (Hd : (digit_char d =? "-")%char = false /\ (digit_char d =? "+")%char = false)
      by (destruct d; split; reflexivity).
    destruct Hd as [-> ->]. rewrite Hread.
    rewrite N2Z.inj_abs_N. do 2 f_equal. lia.
Qed.

Lemma to_numeric_int_texts (ns : list Z) : to_numeric (int_texts ns) = Ok (ints ns).
Proof.
  unfold to_numeric, int_texts, ints.
  assert (Hm : mapM to_numeric_value (map (fun n => VStr (str_int n)) ns)
               = Ok (map VInt ns)).
  { induction ns as [|n ns IH]; [reflexivity|].
    cbn [map mapM to_numeric_value].
    rewrite parse_number_str_int. cbn [bind]. now rewrite IH. }
  rewrite Hm. cbn [bind].
  assert (Hall : forallb is_int (map VInt ns) = true)
    by (clear; induction ns as [|n ns IH]; [reflexivity|exact IH]).
  now rewrite Hall.
Qed.

Lemma to_numeric_ints (ns : list Z) : to_numeric (ints ns) = Ok (ints ns).
Proof.
  unfold to_numeric, ints.
  assert (Hm : mapM to_numeric_value (map VInt ns) = Ok (map VInt ns)).
  { induction ns as [|n ns IH]; [reflexivity|].
    cbn [map mapM to_numeric_value bind]. now rewrite IH. }
  rewrite Hm. cbn [bind].
  assert (Hall : forallb is_int (map VInt ns) = true)
    by (clear; induction ns as [|n ns IH]; [reflexivity|exact IH]).
  now rewrite Hall.
Qed.

Lemma dtype_of_int_texts (ns : list Z) : dtype_of (int_texts ns) = Object.
Proof. destruct ns; reflexivity. Qed.

Section Numbers.
Context `{DateLib}.

Lemma foldM_numeric_ints (c : string) (ns : list Z) (l : list string) :
  forall d d1,
    incl l (columns d) ->
    get_col d c = ints ns \/ (get_col d c = int_texts ns /\ In c l) ->
    foldM numeric_step l d = Ok d1 ->
    get_col d1 c = ints ns.
Proof.
  induction l as [|col l IH]; intros d d1 Hincl Hcol; cbn [foldM].
  - intros [= <-]. destruct Hcol as [Hc|[_ []]]. exact Hc.
  - destruct (numeric_step d col) as [d2|e] eqn:Hstep; [|discriminate].
    cbn [bind]. intros Hrest.
    assert (Hin : In col (columns d)) by (apply Hincl; now left).
    destruct (numeric_step_shape d col d2 Hin Hstep) as [Hc2 _].
    apply (IH d2 d1); [|clear Hrest|exact Hrest].
    { rewrite Hc2. intros x Hx. apply Hincl. now right. }
    destruct (string_dec c col) as [->|Hne].
    + left. unfold numeric_step in Hstep.
      destruct Hcol as [Hc|[Hc _]]; rewrite Hc in Hstep.
      * rewrite to_numeric_ints in Hstep.
        destruct (dtype_eqb (dtype_of (ints ns)) Object); injection Hstep as <-;
          [|exact Hc].
        apply get_col_set_col_same. rewrite <- Hc. apply get_col_length.
      * rewrite dtype_of_int_texts, to_numeric_int_texts in Hstep.
        cbn [dtype_eqb] in Hstep. injection Hstep as <-.
        apply get_col_set_col_same.
        rewrite <- (get_col_length d col), Hc.
        unfold ints, int_texts. now rewrite !length_map.
    + rewrite (numeric_step_other d col c d2 Hne Hstep).
      destruct Hcol as [Hc|[Hc [Heq|Hl]]]; auto. congruence.
Qed.

(** X10. Integers written as text are read back: when every cell of a
    column, whose name does not contain [date], is the decimal text of a
    64-bit integer, the column holds those integers once
    [convert_data_types] returns. *)
Theorem convert_reads_integers (d out : DataFrame) (c : string) (ns : list Z) :
  In c (columns d) ->
  str_contains "date" c = false ->
  (forall n, In n ns -> int64 n) ->
  get_col d c = int_texts ns ->
  call convert_data_types d = Ok out ->
  get_col out c = ints ns.
Proof.
  intros Hin Hdate _ Hcol. rewrite (call_spec _ _ convert_data_types_spec).
  unfold convert_c.
  destruct (foldM numeric_step (columns d) d) as [d1|e] eqn:Hfold; [|discriminate].
  cbn [bind]. intros [= <-].
  rewrite fold_date_step_other by exact Hdate.
  apply (foldM_numeric_ints c ns (columns d) d d1); auto. apply incl_refl.
Qed.

(* ---------- Text that is not a number ---------- *)

Lemma read_digits_split (s : string) (ds : list digit) (rest : string) :
  Json.read_digits s = (ds, rest) -> s = (str_digits ds ++ rest)%string.
Proof.
  revert ds rest. induction s as [|ch s IH]; intros ds rest; cbn [Json.read_digits].
  - now intros [= <- <-].
  - destruct (char_digit ch) as [dg|] eqn:Hch.
    + destruct (Json.read_digits s) as [ds' rest'] eqn:Hs. intros [= <- <-].
      cbn [str_digits append]. rewrite <- (IH ds' rest' eq_refl). f_equal.
      destruct ch as [[] [] [] [] [] [] [] []]; cbn in Hch; try discriminate;
        injection Hch as <-; reflexivity.
    + now intros [= <- <-].
Qed.

Lemma all_chars_app (p : ascii -> bool) (a b : string) :
  all_chars p (a ++ b) = (all_chars p a && all_chars p b)%bool.
Proof.
  induction a as [|ch a IH]; [reflexivity|]. cbn [append all_chars].
  now rewrite IH, andb_assoc.
Qed.

Lemma all_chars_digits (ds : list digit) : all_chars number_glyph (str_digits ds) = true.
Proof.
  induction ds as [|dg ds IH]; [reflexivity|]. cbn [str_digits all_chars].
  rewrite IH. now destruct dg.
Qed.

Lemma read_unsigned_glyphs (neg : bool) (s : string) (v : Value) :
  Json.read_unsigned neg s = Some (v, EmptyString) ->
  all_chars number_glyph s = true.
Proof.
  unfold Json.read_unsigned.
  destruct (Json.read_digits s) as [ds rest] eqn:Hs.
  apply read_digits_split in Hs. subst s.
  destruct ds as [|dg ds]; [discriminate|].
  rewrite all_chars_app, all_chars_digits. cbn [andb].
  destruct rest as [|ch rest]; [reflexivity|].
  cbn [Json.starts_with Json.tail].
  destruct (ch =? ".")%char eqn:Hdot.
  - apply Ascii.eqb_eq in Hdot. subst ch.
    destruct (Json.read_digits rest) as [fs rest'] eqn:Hr.
    apply read_digits_split in Hr. subst rest.
    destruct fs as [|f fs]; [discriminate|]. intros [= _ ->].
    cbn [all_chars]. rewrite str_app_nil_r, all_chars_digits. reflexivity.
  - discriminate.
Qed.

Lemma parse_number_glyphs (s : string) (v : Value) :
  parse_number s = Some v -> all_chars number_glyph s = true.
Proof.
  unfold parse_number.
  destruct s as [|ch s].
  - intros _. reflexivity.
  - destruct (ch =? "-")%char eqn:Hminus.
    + apply Ascii.eqb_eq in Hminus. subst ch.
      destruct (Json.read_unsigned true s) as [[v0 [|? ?]]|] eqn:Hr;
        try discriminate; [|destruct v0; discriminate].
      intros _. cbn [all_chars]. now rewrite (read_unsigned_glyphs _ _ _ Hr).
    + destruct (ch =? "+")%char eqn:Hplus.
      * apply Ascii.eqb_eq in Hplus. subst ch.
        destruct (Json.read_unsigned false s) as [[v0 [|? ?]]|] eqn:Hr;
          try discriminate; [|destruct v0; discriminate].
        intros _. cbn [all_chars]. now rewrite (read_unsigned_glyphs _ _ _ Hr).
      * destruct (Json.read_unsigned false (String ch s)) as [[v0 [|? ?]]|] eqn:Hr;
          try discriminate; [|destruct v0; discriminate].
        intros _. exact (read_unsigned_glyphs _ _ _ Hr).
Qed.

Lemma glyphs_may_be_numeric (s : string) :
  all_chars number_glyph s = true -> all_chars may_be_numeric s = true.
Proof.
  induction s as [|ch s IH]; [reflexivity|]. cbn [all_chars].
  intros Hs. apply andb_prop in Hs. destruct Hs as [Hch Hs].
  rewrite (IH Hs), andb_true_r. clear - Hch.
  destruct ch as [[] [] [] [] [] [] [] []]; try reflexivity; discriminate Hch.
Qed.

Lemma clearly_text_not_a_number (v : Value) :
  clearly_text v = true -> not_a_number v = true.
Proof.
  destruct v as [|n|x|s|t]; try discriminate. cbn [clearly_text not_a_number].
  intros Hs. destruct (parse_number s) as [v|] eqn:Hp; [|reflexivity].
  apply parse_number_glyphs, glyphs_may_be_numeric in Hp. now rewrite Hp in Hs.
Qed.

Lemma to_numeric_not_a_number (vals : list Value) (v : Value) :
  In v vals -> not_a_number v = true ->
  exists e, to_numeric vals = Raise e /\ forall msg, e <> DatabaseError msg.
Proof.
  intros Hin Hv. unfold to_numeric.
  destruct (mapM_raise to_numeric_value (fun e => forall msg, e <> DatabaseError msg)
              vals v) as (e & -> & He).
  - intros y e. destruct y as [|n|x|s|t]; cbn [to_numeric_value]; try discriminate.
    + destruct (parse_number s); [discriminate|]. intros [= <-]. discriminate.
    + intros [= <-]. discriminate.
  - exact Hin.
  - destruct v as [|n|x|s|t]; try discriminate Hv. cbn in *.
    destruct (parse_number s); [discriminate|eauto].
  - cbn [bind]. eauto.
Qed.

Lemma foldM_numeric_untouched (c : string) (v : Value) (l : list string) :
  not_a_number v = true ->
  forall d d1,
    incl l (columns d) ->
    In v (get_col d c) ->
    foldM numeric_step l d = Ok d1 ->
    get_col d1 c = get_col d c.
Proof.
  intros Hv. induction l as [|col l IH]; intros d d1 Hincl Hin; cbn [foldM].
  - now intros [= <-].
  - destruct (numeric_step d col) as [d2|e] eqn:Hstep; [|discriminate].
    cbn [bind]. intros Hrest.
    assert (Hcol : In col (columns d)) by (apply Hincl; now left).
    destruct (numeric_step_shape d col d2 Hcol Hstep) as [Hc2 _].
    assert (Hsame : get_col d2 c = get_col d c).
    { destruct (string_dec c col) as [->|Hne];
        [|exact (numeric_step_other d col c d2 Hne Hstep)].
      destruct (numeric_step_cases _ _ _ Hstep) as [->|(vals & _ & Hn & _)];
        [reflexivity|].
      destruct (to_numeric_not_a_number _ _ Hin Hv) as (e & He & _). congruence. }
    rewrite <- Hsame. apply (IH d2 d1); [|now rewrite Hsame|exact Hrest].
    rewrite Hc2. intros x Hx. apply Hincl. now right.
Qed.

(** X11. The numeric conversion of a column is all or nothing: one cell
    that is clearly text (it has a character that no number is written
    with, such as a slash or a colon) leaves every cell of the column as
    it was, the numeric-looking ones included (for a column whose name
    does not contain [date]). *)
Theorem convert_is_all_or_nothing (d out : DataFrame) (c : string) (v : Value) :
  In c (columns d) ->
  str_contains "date" c = false ->
  In v (get_col d c) ->
  clearly_text v = true ->
  call convert_data_types d = Ok out ->
  get_col out c = get_col d c.
Proof.
  intros Hin Hdate Hv Htext. rewrite (call_spec _ _ convert_data_types_spec).
  pose proof (clearly_text_not_a_number v Htext) as Hnan.
  unfold convert_c.
  destruct (foldM numeric_step (columns d) d) as [d1|e] eqn:Hfold; [|discriminate].
  cbn [bind]. intros [= <-].
  rewrite fold_date_step_other by exact Hdate.
  apply (foldM_numeric_untouched c v (columns d) Hnan d d1); auto. apply incl_refl.
Qed.

End Numbers.

Lemma convert_reads_integers_witness :
  exists out,
    call convert_data_types texts_batch = Ok out
    /\ get_col out "qty" = [VInt 12; VInt (-3); VInt 0].
Proof.
  eexists. split; [reflexivity|].
  apply (convert_reads_integers texts_batch _ "qty" [12; -3; 0]).
  - cbn; auto.
  - reflexivity.
  - unfold int64. cbn. intros n [<-|[<-|[<-|[]]]]; lia.
  - reflexivity.
  - reflexivity.
Defined.

Lemma convert_is_all_or_nothing_witness :
  exists out,
    call convert_data_types texts_batch = Ok out
    /\ get_col out "code" = [VStr "7"; VStr "n/a"; VStr "9"].
Proof.
  eexists. split; [reflexivity|].
  apply (convert_is_all_or_nothing texts_batch _ "code" (VStr "n/a")).
  - cbn; auto.
  - reflexivity.
  - cbn; auto.
  - reflexivity.
  - reflexivity.
Defined.

(* ---------- [aggregate_data] ---------- *)

Lemma insert_sorted_In (v x : Value) (l : list Value) :
  In x (insert_sorted v l) <-> x = v \/ In x l.
Proof.
  induction l as [|y l IH]; cbn [insert_sorted In].
  - intuition.
  - destruct (value_leb v y); cbn [In]; [intuition|]. rewrite IH. intuition.
Qed.

Lemma insert_sorted_NoDup (v : Value) (l : list Value) :
  ~ In v l -> NoDup l -> NoDup (insert_sorted v l).
Proof.
  induction l as [|y l IH]; intros Hv Hnd; cbn [insert_sorted].
  - constructor; [exact Hv|constructor].
  - destruct (value_leb v y); [now constructor|].
    inversion Hnd as [|? ? Hy Hl]; subst. constructor.
    + rewrite insert_sorted_In. intros [->|Hin]; [|contradiction].
      apply Hv. now left.
    + apply IH; [|exact Hl]. intros Hin. apply Hv. now right.
Qed.

Lemma sort_values_In (x : Value) (l : list Value) :
  In x (sort_values l) <-> In x l.
Proof.
  unfold sort_values. induction l as [|y l IH]; cbn [fold_right In]; [tauto|].
  rewrite insert_sorted_In, IH. intuition.
Qed.

Lemma sort_values_NoDup (l : list Value) : NoDup l -> NoDup (sort_values l).
Proof.
  unfold sort_values. induction 1 as [|y l Hy Hl IH]; cbn [fold_right];
    [constructor|].
  apply insert_sorted_NoDup; [|exact IH].
  intros Hin. apply Hy. now apply (sort_values_In y l).
Qed.

Lemma sort_values_length (l : list Value) :
  List.length (sort_values l) = List.length l.
Proof.
  unfold sort_values. induction l as [|y l IH]; cbn [fold_right List.length];
    [reflexivity|].
  rewrite <- IH. generalize (fold_right insert_sorted [] l) as s. intros s.
  induction s as [|z s IHs]; cbn [insert_sorted List.length]; [reflexivity|].
  destruct (value_leb y z); cbn [List.length]; [reflexivity|]. now rewrite IHs.
Qed.

(** The keys of the groups: the distinct values of the key column that
    are not missing. *)
Lemma group_keys_spec (d : DataFrame) (key : string) :
  let keys := sort_values
                (distinct Value_eqb
                   (filter (fun v => negb (isna v)) (get_col d key))) in
  NoDup keys
  /\ (forall k, In k keys <-> (In k (get_col d key) /\ isna k = false))
  /\ (List.length keys <= len d)%nat.
Proof.
  cbn zeta. unfold distinct.
  destruct (distinct_from_spec Value_eqb Value_eqb_eq []
              (filter (fun v => negb (isna v)) (get_col d key))) as [Hnd Hin].
  split; [now apply sort_values_NoDup|]. split.
  - intros k. rewrite sort_values_In, Hin, filter_In.
    destruct (isna k); cbn [negb In]; intuition discriminate.
  - rewrite sort_values_length.
    etransitivity; [apply distinct_from_length|].
    etransitivity; [apply filter_length_le|].
    unfold len. now rewrite get_col_length.
Qed.

Lemma mapM_groups (f : Value -> Result Value) (keys : list Value)
  (rs : list (list Value)) :
  mapM (fun k => bind (f k) (fun s => Ok [k; s])) keys = Ok rs ->
  Forall2 (fun k r => exists s, f k = Ok s /\ r = [k; s]) keys rs.
Proof.
  intros Hm. apply mapM_Forall2 in Hm.
  induction Hm as [|k r keys rs Hk _ IH]; constructor; [|exact IH].
  destruct (f k) as [s|e]; [|discriminate]. injection Hk as <-. eauto.
Qed.

Lemma groups_keys (f : Value -> Result Value) (keys : list Value)
  (rs : list (list Value)) :
  Forall2 (fun k r => exists s, f k = Ok s /\ r = [k; s]) keys rs ->
  map (fun r => nth 0 r VNull) rs = keys.
Proof.
  induction 1 as [|k r keys rs (s & _ & ->) _ IH]; [reflexivity|].
  cbn [map nth]. now rewrite IH.
Qed.

Lemma get_col_category (rs : list (list Value)) :
  get_col (mkDF ["category"; "amount"] rs) "category"
  = map (fun r => nth 0 r VNull) rs.
Proof. reflexivity. Qed.

Lemma get_col_amount (rs : list (list Value)) :
  get_col (mkDF ["category"; "amount"] rs) "amount"
  = map (fun r => nth 1 r VNull) rs.
Proof. reflexivity. Qed.

(* ---------- The order of the groups ---------- *)

Lemma value_leb_texts_total (s t : string) :
  value_leb (VStr s) (VStr t) = false -> value_leb (VStr t) (VStr s) = true.
Proof.
  cbn [value_leb]. rewrite (String.compare_antisym t s).
  destruct (String.compare s t); cbn [CompOpp]; congruence.
Qed.

Lemma HdRel_insert_sorted (y v : Value) (l : list Value) :
  HdRel (fun a b => value_leb a b = true) y l ->
  value_leb y v = true ->
  HdRel (fun a b => value_leb a b = true) y (insert_sorted v l).
Proof.
  intros Hhd Hyv. destruct l as [|z l]; cbn [insert_sorted].
  - now constructor.
  - destruct (value_leb v z); constructor; [exact Hyv|].
    now inversion Hhd.
Qed.

Lemma insert_sorted_Sorted (s : string) (l : list Value) :
  (forall v, In v l -> exists t, v = VStr t) ->
  Sorted (fun a b => value_leb a b = true) l ->
  Sorted (fun a b => value_leb a b = true) (insert_sorted (VStr s) l).
Proof.
  induction l as [|y l IH]; intros Htexts Hsorted; cbn [insert_sorted].
  - repeat constructor.
  - destruct (value_leb (VStr s) y) eqn:Hle.
    + constructor; [exact Hsorted|]. now constructor.
    + inversion Hsorted as [|? ? Hl Hhd]; subst. constructor.
      * apply IH; [|exact Hl]. intros v Hv. apply Htexts. now right.
      * apply HdRel_insert_sorted; [exact Hhd|].
        destruct (Htexts y (or_introl eq_refl)) as [t ->].
        now apply value_leb_texts_total.
Qed.

Lemma sort_values_Sorted (l : list Value) :
  (forall v, In v l -> exists t, v = VStr t) ->
  Sorted (fun a b => value_leb a b = true) (sort_values l).
Proof.
  unfold sort_values. induction l as [|y l IH]; intros Htexts; cbn [fold_right];
    [constructor|].
  destruct (Htexts y (or_introl eq_refl)) as [s ->].
  apply insert_sorted_Sorted.
  - intros v Hv. apply (sort_values_In v l) in Hv. apply Htexts. now right.
  - apply IH. intros v Hv. apply Htexts. now right.
Qed.

Lemma Sorted_texts (ss : list string) :
  Sorted (fun a b => value_leb a b = true) (texts ss) ->
  Sorted (fun a b => value_leb (VStr a) (VStr b) = true) ss.
Proof.
  induction ss as [|s ss IH]; intros Hs; [constructor|].
  cbn [texts map] in Hs. inversion Hs as [|? ? Hl Hhd]; subst.
  constructor; [now apply IH|].
  destruct ss as [|t ss]; constructor. cbn [map] in Hhd. now inversion Hhd.
Qed.

Lemma texts_inj (ss ss' : list string) : texts ss = texts ss' -> ss = ss'.
Proof.
  revert ss'. induction ss as [|s ss IH]; intros [|s' ss']; cbn; try discriminate;
    [reflexivity|].
  intros [= -> Heq]. f_equal. now apply IH.
Qed.

Lemma all_texts (l : list Value) :
  (forall v, In v l -> exists s, v = VStr s) -> exists ss, l = texts ss.
Proof.
  induction l as [|v l IH]; intros Hall.
  - now exists [].
  - destruct (Hall v (or_introl eq_refl)) as [s ->].
    destruct IH as [ss ->]; [intros x Hx; apply Hall; now right|].
    now exists (s :: ss).
Qed.

Lemma sorted_nodup_strict (ss : list string) :
  Sorted (fun a b => value_leb (VStr a) (VStr b) = true) ss -> NoDup ss ->
  Sorted str_lt ss.
Proof.
  induction 1 as [|s ss Hs IH Hhd]; intros Hnd; [constructor|].
  inversion Hnd as [|? ? Hnotin Hnd']; subst.
  constructor; [now apply IH|].
  destruct Hhd as [|t ss Hle]; constructor.
  unfold str_lt. cbn [value_leb] in Hle.
  destruct (String.compare s t) eqn:Hcmp; [|reflexivity|discriminate].
  apply String.compare_eq_iff in Hcmp. subst. exfalso. apply Hnotin. now left.
Qed.

Lemma NoDup_texts (ss : list string) : NoDup (texts ss) -> NoDup ss.
Proof.
  induction ss as [|s ss IH]; intros Hnd; [constructor|].
  inversion Hnd as [|? ? Hnotin Hnd']; subst. constructor; [|now apply IH].
  intros Hin. apply Hnotin. unfold texts. now apply in_map.
Qed.

(** X12. With a [category] and an [amount] column, [aggregate_data]
    returns a batch of exactly these two columns (every other column is
    gone, [status] included) with one row per category: for text
    categories the rows come in strictly increasing code-point order of
    the category, and the categories are those of the argument. *)
Theorem aggregate_groups_by_category (d out : DataFrame) :
  has_column d "category" = true ->
  has_column d "amount" = true ->
  (forall v, In v (get_col d "category") -> exists s, v = VStr s) ->
  call aggregate_data d = Ok out ->
  columns out = ["category"; "amount"]
  /\ (len out <= len d)%nat
  /\ exists ks,
       get_col out "category" = texts ks
       /\ Sorted str_lt ks
       /\ forall s, In s ks <-> In (VStr s) (get_col d "category").
Proof.
  intros Hc Ha Htexts. rewrite (call_spec _ _ aggregate_data_spec).
  unfold aggregate_c. rewrite Hc, Ha. cbn [andb]. unfold groupby_sum.
  destruct (group_keys_spec d "category") as (Hnd & Hin & Hlen). cbn zeta in *.
  set (keys := sort_values _) in *.
  destruct (mapM _ keys) as [rs|e] eqn:Hm; [|discriminate].
  cbn [bind]. intros [= <-]. apply mapM_groups in Hm.
  split; [reflexivity|]. split.
  { unfold len at 1. cbn [rows]. rewrite <- (Forall2_length Hm). exact Hlen. }
  rewrite get_col_category, (groups_keys _ _ _ Hm).
  destruct (all_texts keys) as [ks Hks].
  { intros v Hv. apply Hin in Hv. now apply Htexts. }
  exists ks. split; [exact Hks|]. split.
  - apply sorted_nodup_strict; [|apply NoDup_texts; now rewrite <- Hks].
    apply Sorted_texts. rewrite <- Hks. apply sort_values_Sorted.
    intros v Hv. apply (sort_values_In v) in Hv. apply Hin in Hv.
    now apply Htexts.
  - intros s. split.
    + intros Hs. apply (in_map VStr) in Hs. fold (texts ks) in Hs.
      rewrite <- Hks in Hs. now apply Hin in Hs.
    + intros Hs. assert (Hk : In (VStr s) keys) by (apply Hin; auto).
      rewrite Hks in Hk. unfold texts in Hk. apply in_map_iff in Hk.
      destruct Hk as (x & [= ->] & Hx). exact Hx.
Qed.

Lemma aggregate_groups_by_category_witness :
  exists out,
    call aggregate_data sales_batch = Ok out
    /\ columns out = ["category"; "amount"]
    /\ get_col out "category" = [VStr "apples"; VStr "pears"].
Proof.
  destruct (call aggregate_data sales_batch) as [out|e] eqn:Hcall;
    [|vm_compute in Hcall; discriminate].
  exists out. split; [reflexivity|].
  destruct (aggregate_groups_by_category sales_batch out eq_refl eq_refl)
    as (Hc & _ & _).
  - cbn. intros v [<-|[<-|[<-|[]]]]; eauto.
  - exact Hcall.
  - split; [exact Hc|]. vm_compute in Hcall. now injection Hcall as <-.
Defined.

(* ---------- The sums of the groups ---------- *)

Lemma sum_from_ints (a : Z) (vals : list Value) :
  (forall v, In v vals -> exists n, v = VInt n) ->
  sum_from (VInt a) vals = Ok (VInt (a + int_sum vals)).
Proof.
  revert a. induction vals as [|v vals IH]; intros a Hall; cbn [sum_from int_sum fold_right].
  - now rewrite Z.add_0_r.
  - destruct (Hall v (or_introl eq_refl)) as [n ->].
    cbn [add_values bind]. rewrite IH by (intros x Hx; apply Hall; now right).
    fold (int_sum vals). now rewrite Z.add_assoc.
Qed.

Lemma sum_values_ints (vals : list Value) :
  (forall v, In v vals -> exists n, v = VInt n) ->
  sum_values vals = Ok (VInt (int_sum vals)).
Proof.
  intros Hall. unfold sum_values. destruct vals as [|v vals]; [reflexivity|].
  destruct (Hall v (or_introl eq_refl)) as [n ->].
  cbn [sum_from add_values bind].
  rewrite sum_from_ints by (intros x Hx; apply Hall; now right).
  reflexivity.
Qed.

Lemma int_sum_app (l1 l2 : list Value) : int_sum (l1 ++ l2) = int_sum l1 + int_sum l2.
Proof.
  induction l1 as [|v l1 IH]; cbn [app int_sum fold_right]; [reflexivity|].
  fold (int_sum (l1 ++ l2)). fold (int_sum l1). rewrite IH.
  destruct v; lia.
Qed.

(** The sums of the groups of [keys] add up to the sum over the rows
    whose key is one of [keys]. *)
Lemma group_sums_total (f : list Value -> Value) (g : list Value -> Value)
  (keys : list Value) :
  NoDup keys ->
  forall rs,
    (forall r, In r rs -> In (f r) keys) ->
    int_sum (map (fun k => VInt (int_sum (map g (filter (fun r => Value_eqb (f r) k) rs))))
               keys)
    = int_sum (map g rs).
Proof.
  induction 1 as [|k keys Hk Hnd IH]; intros rs Hrs.
  - destruct rs as [|r rs]; [reflexivity|]. destruct (Hrs r (or_introl eq_refl)).
  - cbn [map int_sum fold_right].
    fold (int_sum (map (fun k0 => VInt (int_sum (map g
            (filter (fun r => Value_eqb (f r) k0) rs)))) keys)).
    assert (Hother : forall k0, In k0 keys ->
              filter (fun r => Value_eqb (f r) k0) rs
              = filter (fun r => Value_eqb (f r) k0)
                  (filter (fun r => negb (Value_eqb (f r) k)) rs)).
    { intros k0 Hk0. induction rs as [|r rs IHrs]; [reflexivity|].
      cbn [filter]. destruct (Value_eqb (f r) k) eqn:Hrk; cbn [negb].
      - apply Value_eqb_eq in Hrk.
        destruct (Value_eqb (f r) k0) eqn:Hrk0.
        + apply Value_eqb_eq in Hrk0. exfalso. apply Hk. congruence.
        + apply IHrs. intros x Hx. apply Hrs. now right.
      - cbn [filter]. destruct (Value_eqb (f r) k0);
          [f_equal|]; apply IHrs; intros x Hx; apply Hrs; now right. }
    rewrite (map_ext_in _
               (fun k0 => VInt (int_sum (map g
                  (filter (fun r => Value_eqb (f r) k0)
                     (filter (fun r => negb (Value_eqb (f r) k)) rs)))))).
    2:{ intros k0 Hk0. now rewrite <- Hother. }
    rewrite IH.
    + clear. induction rs as [|r rs IHrs]; [reflexivity|].
      cbn [filter map]. destruct (Value_eqb (f r) k); cbn [negb map int_sum fold_right];
        fold (int_sum (map g rs));
        fold (int_sum (map g (filter (fun r0 => Value_eqb (f r0) k) rs)));
        fold (int_sum (map g (filter (fun r0 => negb (Value_eqb (f r0) k)) rs)));
        destruct (g r); lia.
    + intros r Hr. apply filter_In in Hr. destruct Hr as [Hr Hne].
      destruct (Hrs r Hr) as [Heq|Hin]; [|exact Hin].
      exfalso. assert (Htrue : Value_eqb (f r) k = true) by now apply Value_eqb_eq.
      rewrite Htrue in Hne. discriminate.
Qed.

Lemma mapM_ok_ext {A B} (f : A -> Result B) (g : A -> B) (l : list A) :
  (forall x, In x l -> f x = Ok (g x)) -> mapM f l = Ok (map g l).
Proof.
  induction l as [|x l IH]; intros Hall; [reflexivity|].
  cbn [mapM map]. rewrite (Hall x (or_introl eq_refl)). cbn [bind].
  rewrite IH by (intros y Hy; apply Hall; now right). reflexivity.
Qed.

(** X13. Aggregation keeps the total: when no category is missing and
    the amounts are integers whose sums stay within 64 bits, then
    [aggregate_data] returns normally, the amounts of the groups are
    integers, and they add up to the sum of the amounts of the
    argument. *)
Theorem aggregate_conserves_total (d : DataFrame) :
  has_column d "category" = true ->
  has_column d "amount" = true ->
  (forall v, In v (get_col d "category") -> isna v = false) ->
  (forall v, In v (get_col d "amount") -> exists n, v = VInt n) ->
  abs_sum (get_col d "amount") < 2 ^ 63 ->
  exists out,
    call aggregate_data d = Ok out
    /\ (forall v, In v (get_col out "amount") -> exists n, v = VInt n)
    /\ int_sum (get_col out "amount") = int_sum (get_col d "amount").
Proof.
  intros Hc Ha Hkeys Hints _. rewrite (call_spec _ _ aggregate_data_spec).
  unfold aggregate_c. rewrite Hc, Ha. cbn [andb]. unfold groupby_sum.
  destruct (group_keys_spec d "category") as (Hnd & Hin & _). cbn zeta in *.
  set (keys := sort_values _) in *.
  set (total := fun k : Value =>
         int_sum (map (cell d "amount")
                    (filter (fun r => Value_eqb (cell d "category" r) k) (rows d)))).
  rewrite (mapM_ok_ext _ (fun k => [k; VInt (total k)])).
  2:{ intros k _. rewrite sum_values_ints; [reflexivity|].
      intros v Hv. apply in_map_iff in Hv. destruct Hv as (r & <- & Hr).
      apply filter_In in Hr. apply Hints. unfold get_col. apply in_map, Hr. }
  cbn [bind]. eexists. split; [reflexivity|].
  rewrite get_col_amount, map_map. cbn [nth]. split.
  - intros v Hv. apply in_map_iff in Hv. destruct Hv as (k & <- & _). eauto.
  - unfold total. unfold get_col at 1.
    apply (group_sums_total (cell d "category") (cell d "amount") keys Hnd).
    intros r Hr. apply Hin. split; [unfold get_col; now apply in_map|].
    apply Hkeys. unfold get_col. now apply in_map.
Qed.

Lemma aggregate_conserves_total_witness :
  exists out,
    call aggregate_data sales_batch = Ok out
    /\ int_sum (get_col out "amount") = 42.
Proof.
  destruct (aggregate_conserves_total sales_batch eq_refl eq_refl)
    as (out & Hcall & _ & Hsum).
  - cbn. intros v [<-|[<-|[<-|[]]]]; reflexivity.
  - cbn. intros v [<-|[<-|[<-|[]]]]; eauto.
  - reflexivity.
  - exists out. split; [exact Hcall|]. rewrite Hsum. reflexivity.
Defined.

(* ---------- [normalize_data] and the datetime columns ---------- *)

Lemma dtype_datetime_has_time (vals : list Value) :
  dtype_eqb (dtype_of vals) Datetime64 = true -> existsb is_time vals = true.
Proof.
  unfold dtype_of.
  destruct (forallb is_int vals && existsb is_int vals)%bool; [discriminate|].
  destruct (forallb (fun v => is_number v || isna v) vals && existsb is_number vals)%bool;
    [discriminate|].
  destruct (forallb (fun v => is_time v || isna v) vals) ; cbn [andb];
    [|discriminate].
  now destruct (existsb is_time vals).
Qed.

Section NoDatetime.
Context `{DateLib}.

Lemma no_time_after_strftime (vals : list Value) :
  existsb is_time (map dt_strftime vals) = false.
Proof.
  induction vals as [|v vals IH]; [reflexivity|]. cbn [map existsb].
  rewrite IH. destruct v as [| | | |[t|]]; reflexivity.
Qed.

Lemma get_col_strftime_step (d : DataFrame) (col c : string) :
  get_col (strftime_step d col) c
  = if string_dec c col then map dt_strftime (get_col d col) else get_col d c.
Proof.
  unfold strftime_step. destruct (string_dec c col) as [->|Hne].
  - rewrite get_col_set_col_with_same. unfold get_col. now rewrite map_map.
  - now apply get_col_set_col_with_other.
Qed.

Lemma map_strftime_twice (vals : list Value) :
  map dt_strftime (map dt_strftime vals) = map dt_strftime vals.
Proof. rewrite map_map. apply map_ext. apply dt_strftime_twice. Qed.

Lemma get_col_fold_strftime (l : list string) (c : string) :
  forall d,
    get_col (fold_left strftime_step l d) c = get_col d c
    \/ get_col (fold_left strftime_step l d) c = map dt_strftime (get_col d c).
Proof.
  induction l as [|col l IH]; intros d; cbn [fold_left]; [now left|].
  destruct (IH (strftime_step d col)) as [-> | ->];
    rewrite get_col_strftime_step; destruct (string_dec c col) as [->|Hne]; auto.
  right. apply map_strftime_twice.
Qed.

Lemma get_col_fold_strftime_in (l : list string) (c : string) :
  In c l ->
  forall d, get_col (fold_left strftime_step l d) c = map dt_strftime (get_col d c).
Proof.
  induction l as [|col l IH]; intros Hin d; [contradiction|]. cbn [fold_left].
  destruct (string_dec c col) as [->|Hne].
  - destruct (get_col_fold_strftime l col (strftime_step d col)) as [-> | ->];
      rewrite get_col_strftime_step; destruct (string_dec col col); try congruence.
    apply map_strftime_twice.
  - destruct Hin as [->|Hin]; [congruence|]. rewrite (IH Hin).
    rewrite get_col_strftime_step. now destruct (string_dec c col).
Qed.

Lemma get_col_fold_strftime_out (l : list string) (c : string) :
  ~ In c l ->
  forall d, get_col (fold_left strftime_step l d) c = get_col d c.
Proof.
  induction l as [|col l IH]; intros Hin d; [reflexivity|]. cbn [fold_left].
  rewrite IH by (intros Hc; apply Hin; now right).
  rewrite get_col_strftime_step. destruct (string_dec c col) as [->|Hne];
    [|reflexivity].
  exfalso. apply Hin. now left.
Qed.

Lemma strftime_step_columns (d : DataFrame) (col : string) :
  In col (columns d) -> columns (strftime_step d col) = columns d.
Proof.
  intros Hin. cbn. apply columns_with_present. now apply has_column_In.
Qed.

Lemma fold_strftime_columns (l : list string) :
  forall d, incl l (columns d) -> columns (fold_left strftime_step l d) = columns d.
Proof.
  induction l as [|col l IH]; intros d Hincl; cbn [fold_left]; [reflexivity|].
  assert (Hc : columns (strftime_step d col) = columns d)
    by (apply strftime_step_columns, Hincl; now left).
  rewrite IH; [exact Hc|]. rewrite Hc. intros x Hx. apply Hincl. now right.
Qed.

Lemma filter_nil {A} (p : A -> bool) (l : list A) :
  (forall x, In x l -> p x = false) -> filter p l = [].
Proof.
  induction l as [|x l IH]; intros Hall; [reflexivity|]. cbn [filter].
  rewrite (Hall x (or_introl eq_refl)). apply IH. intros y Hy. apply Hall. now right.
Qed.

Lemma get_col_applymap (f : Value -> Value) (d : DataFrame) (c : string) :
  f VNull = VNull -> get_col (applymap f d) c = map f (get_col d c).
Proof.
  intros Hf. unfold get_col. cbn [rows applymap]. rewrite !map_map.
  apply map_ext. intros r. now apply cell_map.
Qed.

Lemma lower_datetime_column (vals : list Value) :
  dtype_eqb (dtype_of vals) Datetime64 = true -> map lower_if_str vals = vals.
Proof.
  unfold dtype_of.
  destruct (forallb is_int vals && existsb is_int vals)%bool; [discriminate|].
  destruct (forallb (fun v => is_number v || isna v) vals && existsb is_number vals)%bool;
    [discriminate|].
  destruct (forallb (fun v => is_time v || isna v) vals) eqn:Hall; cbn [andb];
    [|discriminate].
  intros _. rewrite forallb_forall in Hall.
  rewrite <- (map_id vals) at 2. apply map_ext_in. intros v Hv.
  specialize (Hall v Hv). now destruct v.
Qed.

(** X14. [normalize_data] never raises and keeps the labels (they are
    not lower-cased); in the batch it returns no column has the datetime
    type any more: the timestamps of such a column have become text and
    its [NaT] cells missing values. *)
Theorem normalize_leaves_no_datetime_column (d : DataFrame) :
  exists out,
    call normalize_data d = Ok out
    /\ columns out = columns d
    /\ select_dtypes_datetime out = []
    /\ forall c, In c (select_dtypes_datetime d) ->
         get_col out c = map dt_strftime (get_col d c).
Proof.
  rewrite (call_spec _ _ normalize_data_spec). unfold normalize_c.
  set (d1 := applymap lower_if_str d).
  set (l := select_dtypes_datetime d1).
  assert (Hincl : incl l (columns d1)).
  { intros x Hx. apply filter_In in Hx. exact (proj1 Hx). }
  eexists. split; [reflexivity|]. split; [|split].
  - rewrite fold_strftime_columns by exact Hincl. reflexivity.
  - unfold select_dtypes_datetime.
    rewrite fold_strftime_columns by exact Hincl.
    apply filter_nil. intros c Hc.
    destruct (in_dec string_dec c l) as [Hin|Hout].
    + rewrite (get_col_fold_strftime_in l c Hin).
      destruct (dtype_eqb (dtype_of (map dt_strftime (get_col d1 c))) Datetime64)
        eqn:Hdt; [|reflexivity].
      apply dtype_datetime_has_time in Hdt.
      now rewrite no_time_after_strftime in Hdt.
    + rewrite (get_col_fold_strftime_out l c Hout).
      destruct (dtype_eqb (dtype_of (get_col d1 c)) Datetime64) eqn:Hd1;
        [|reflexivity].
      exfalso. apply Hout. apply filter_In. auto.
  - intros c Hc. apply filter_In in Hc. destruct Hc as [Hc Hdt].
    assert (Hd1 : get_col d1 c = get_col d c).
    { unfold d1. rewrite get_col_applymap by reflexivity.
      now apply lower_datetime_column. }
    rewrite get_col_fold_strftime_in, Hd1; [reflexivity|].
    apply filter_In. split; [exact Hc|]. now rewrite Hd1.
Qed.

End NoDatetime.

(* ---------- More on [transform_data] as a whole ---------- *)

Lemma select_mask_length {A} (l : list A) (mask : list bool) :
  (List.length (select_mask l mask) <= List.length l)%nat.
Proof.
  revert mask. induction l as [|x l IH]; intros [|b mask]; cbn [select_mask List.length];
    try lia.
  specialize (IH mask). destruct b; cbn [List.length]; lia.
Qed.

Lemma groupby_sum_len (key val : string) (d out : DataFrame) :
  groupby_sum key val d = Ok out -> (len out <= len d)%nat.
Proof.
  unfold groupby_sum.
  destruct (group_keys_spec d key) as (_ & _ & Hlen). cbn zeta in Hlen.
  destruct (mapM _ _) as [rs|e] eqn:Hm; [|discriminate].
  cbn [bind]. intros [= <-]. apply mapM_length in Hm.
  unfold len at 1. cbn [rows]. now rewrite Hm.
Qed.

Section Rows.
Context `{DateLib}.

Lemma normalize_c_len (d out : DataFrame) : normalize_c d = Ok out -> len out = len d.
Proof.
  intros Hout. destruct (normalize_c_normal d) as (out' & Hout' & Hn).
  rewrite Hout in Hout'. injection Hout' as <-. now apply normal_rows_len.
Qed.

Lemma aggregate_c_len (d out : DataFrame) :
  aggregate_c d = Ok out -> (len out <= len d)%nat.
Proof.
  unfold aggregate_c. destruct (has_column d "category" && has_column d "amount")%bool.
  - apply groupby_sum_len.
  - intros [= <-]. lia.
Qed.

Lemma filter_c_len (d out : DataFrame) : filter_c d = Ok out -> (len out <= len d)%nat.
Proof.
  unfold filter_c. destruct (has_column d "status"); intros [= <-]; [|lia].
  apply filter_length_le.
Qed.

Lemma validate_c_len (d out : DataFrame) :
  validate_c d = Ok out -> (len out <= len d)%nat.
Proof.
  unfold validate_c. destruct (has_column d "amount"); [|intros [= <-]; lia].
  destruct (mapM _ _) as [mask|e]; [|discriminate]. cbn [bind]. intros [= <-].
  apply select_mask_length.
Qed.

Lemma stamp_c_len (now : Timestamp) (table_name : string) (d out : DataFrame) :
  stamp_c now table_name d = Ok out -> len out = len d.
Proof.
  unfold stamp_c. destruct (mapM (payload d) (rows d)) as [data|e] eqn:Hm;
    [|discriminate].
  cbn [bind]. intros [= <-]. apply mapM_length in Hm.
  pose proof (set_col_len d "data" data Hm) as Hlen.
  unfold len in *. cbn [rows select_columns]. rewrite length_map.
  destruct (negb _); cbn [rows set_col_scalar set_col_with];
    rewrite ?length_map; exact Hlen.
Qed.

(** X15. [transform_data] never adds a record: the batch it returns has
    at most as many rows as the batch it was given. *)
Theorem transform_never_adds_rows (now : Timestamp) (table_name : string)
  (batch out : DataFrame) :
  call (fun df => transform_data now df table_name) batch = Ok out ->
  (len out <= len batch)%nat.
Proof.
  rewrite (call_spec _ _ (transform_data_spec now table_name)).
  unfold transform_c. cbn [clean_c bind].
  destruct (normalize_c (dropna batch)) as [d2|?] eqn:H2; [|discriminate]. cbn [bind].
  destruct (aggregate_c d2) as [d3|?] eqn:H3; [|discriminate]. cbn [bind].
  destruct (filter_c d3) as [d4|?] eqn:H4; [|discriminate]. cbn [bind].
  destruct (convert_c d4) as [d5|?] eqn:H5; [|discriminate]. cbn [bind].
  unfold dedupe_c, map_c. cbn [bind].
  destruct (validate_c _) as [d8|?] eqn:H8; [|discriminate]. cbn [bind].
  intros H9.
  apply stamp_c_len in H9. apply validate_c_len in H8.
  apply convert_c_shape in H5. destruct H5 as [_ H5].
  apply filter_c_len in H4. apply aggregate_c_len in H3. apply normalize_c_len in H2.
  assert (H1 : (len (dropna batch) <= len batch)%nat) by apply filter_length_le.
  assert (H6 : (len (rename column_mapping (drop_duplicates d5)) <= len d5)%nat).
  { unfold len. cbn [rows rename drop_duplicates]. apply distinct_from_length. }
  lia.
Qed.

End Rows.

Lemma transform_never_adds_rows_witness :
  exists out,
    call (fun df => transform_data 0 df "sales") sales_batch = Ok out
    /\ (len out <= 3)%nat.
Proof.
  destruct (call (fun df => transform_data 0 df "sales") sales_batch) as [out|e] eqn:Hcall;
    [|vm_compute in Hcall; discriminate].
  exists out. split; [reflexivity|].
  exact (transform_never_adds_rows 0 "sales" sales_batch out Hcall).
Defined.

(* ---------- The empty batch ---------- *)

Section Empty.
Context `{DateLib}.

Lemma numeric_step_empty (d : DataFrame) (col : string) :
  rows d = [] -> exists d', numeric_step d col = Ok d' /\ rows d' = [].
Proof.
  intros Hrows. unfold numeric_step, get_col. rewrite Hrows. cbn.
  eexists. split; [reflexivity|]. cbn. now rewrite Hrows.
Qed.

Lemma foldM_numeric_empty (l : list string) :
  forall d, rows d = [] -> exists d', foldM numeric_step l d = Ok d' /\ rows d' = [].
Proof.
  induction l as [|col l IH]; intros d Hrows; cbn [foldM]; [eauto|].
  destruct (numeric_step_empty d col Hrows) as (d1 & -> & H1). cbn [bind]. auto.
Qed.

Lemma fold_date_step_empty (l : list string) :
  forall d, rows d = [] -> rows (fold_left date_step l d) = [].
Proof.
  induction l as [|col l IH]; intros d Hrows; cbn [fold_left]; [exact Hrows|].
  apply IH. unfold date_step. destruct (str_contains "date" col); [|exact Hrows].
  cbn. now rewrite Hrows.
Qed.

Lemma fold_strftime_empty (l : list string) :
  forall d, rows d = [] -> rows (fold_left strftime_step l d) = [].
Proof.
  induction l as [|col l IH]; intros d Hrows; cbn [fold_left]; [exact Hrows|].
  apply IH. cbn. now rewrite Hrows.
Qed.

(** X16. A batch without rows goes through: [transform_data] returns
    the empty batch with the three output columns, whatever the columns
    of its argument are. *)
Theorem transform_empty_batch (now : Timestamp) (table_name : string)
  (batch : DataFrame) :
  rows batch = [] ->
  call (fun df => transform_data now df table_name) batch
  = Ok (mkDF ["data"; "date_time"; "tag"] []).
Proof.
  intros Hrows. rewrite (call_spec _ _ (transform_data_spec now table_name)).
  unfold transform_c. cbn [clean_c bind].
  assert (H1 : rows (dropna batch) = []) by (cbn; now rewrite Hrows).
  unfold normalize_c. cbn [bind].
  set (d2 := fold_left strftime_step _ _).
  assert (H2 : rows d2 = []).
  { apply fold_strftime_empty. cbn. now rewrite Hrows. }
  assert (H3 : exists d3, aggregate_c d2 = Ok d3 /\ rows d3 = []).
  { unfold aggregate_c.
    destruct (has_column d2 "category" && has_column d2 "amount")%bool; [|eauto].
    unfold groupby_sum, get_col. rewrite H2. cbn. eauto. }
  destruct H3 as (d3 & -> & H3). cbn [bind].
  assert (H4 : exists d4, filter_c d3 = Ok d4 /\ rows d4 = []).
  { unfold filter_c. destruct (has_column d3 "status"); [|eauto].
    eexists. split; [reflexivity|]. cbn. now rewrite H3. }
  destruct H4 as (d4 & -> & H4). cbn [bind].
  unfold convert_c.
  destruct (foldM_numeric_empty (columns d4) d4 H4) as (d5 & -> & H5). cbn [bind].
  set (d6 := fold_left date_step _ d5).
  assert (H6 : rows d6 = []) by now apply fold_date_step_empty.
  unfold dedupe_c, map_c. cbn [bind].
  set (d7 := rename column_mapping (drop_duplicates d6)).
  assert (H7 : rows d7 = []) by (cbn; now rewrite H6).
  assert (H8 : exists d8, validate_c d7 = Ok d8 /\ rows d8 = []).
  { unfold validate_c. destruct (has_column d7 "amount"); [|eauto].
    unfold get_col. rewrite H7. cbn. eauto. }
  destruct H8 as (d8 & -> & H8). cbn [bind].
  unfold stamp_c. rewrite H8. cbn [mapM bind]. f_equal.
  unfold select_columns. f_equal.
  destruct (negb _); cbn; now rewrite H8.
Qed.

End Empty.

Lemma transform_empty_batch_witness :
  call (fun df => transform_data 0 df "orders")
       (mkDF ["status"; "amount"; "category"; "date_created"] [])
  = Ok (mkDF ["data"; "date_time"; "tag"] []).
Proof. apply transform_empty_batch. reflexivity. Defined.

(* ---------- Date columns and the payload ---------- *)

Lemma dumps_value_raises (v : Value) (e : exn) :
  Json.dumps_value v = Raise e -> exists msg, e = TypeError msg.
Proof. destruct v as [| | | |[t|]]; cbn; try discriminate; intros [= <-]; eauto. Qed.

Lemma dumps_items_raises (d : dict Value) (e : exn) :
  Json.dumps_items d = Raise e -> exists msg, e = TypeError msg.
Proof.
  induction d as [|[k v] d IH]; cbn [Json.dumps_items]; [discriminate|].
  destruct (Json.dumps_value v) as [sv|e1] eqn:Hv; cbn [bind].
  - destruct (Json.dumps_items d) as [items|e2]; cbn [bind]; [discriminate|].
    intros [= <-]. now apply IH.
  - intros [= <-]. eapply dumps_value_raises; eauto.
Qed.

Lemma payload_raises (d : DataFrame) (r : list Value) (e : exn) :
  payload d r = Raise e -> exists msg, e = TypeError msg.
Proof.
  unfold payload, Json.dumps.
  destruct (Json.dumps_items (to_dict d r)) as [items|e1] eqn:Hitems; cbn [bind];
    [discriminate|].
  intros [= <-]. eapply dumps_items_raises; eauto.
Qed.

Lemma to_numeric_raises (vals : list Value) (e : exn) :
  to_numeric vals = Raise e ->
  (exists msg, e = TypeError msg) \/ (exists msg, e = ValueError msg).
Proof.
  unfold to_numeric.
  destruct (mapM to_numeric_value vals) as [ns|e1] eqn:Hm; cbn [bind]; [discriminate|].
  intros [= <-]. clear - Hm. revert Hm.
  induction vals as [|v vals IH]; cbn [mapM]; [discriminate|].
  destruct (to_numeric_value v) as [n|e2] eqn:Hv; cbn [bind].
  - destruct (mapM to_numeric_value vals) as [ns|e3]; cbn [bind]; [discriminate|].
    intros [= <-]. now apply IH.
  - intros [= <-]. destruct v as [|n|x|s|t]; cbn in Hv; try discriminate.
    + destruct (parse_number s); [discriminate|]. injection Hv as <-. right. eauto.
    + injection Hv as <-. left. eauto.
Qed.

Section DateColumns.
Context `{DateLib}.

Lemma numeric_step_raises (d : DataFrame) (col : string) (e : exn) :
  numeric_step d col = Raise e -> exists msg, e = TypeError msg.
Proof.
  unfold numeric_step. destruct (dtype_eqb _ _); [|discriminate].
  destruct (to_numeric (get_col d col)) as [vals|e1] eqn:Hn; [discriminate|].
  destruct (to_numeric_raises _ _ Hn) as [[msg ->]|[msg ->]]; [|discriminate].
  intros [= <-]. eauto.
Qed.

Lemma convert_c_raises (d : DataFrame) (e : exn) :
  convert_c d = Raise e -> exists msg, e = TypeError msg.
Proof.
  unfold convert_c.
  destruct (foldM numeric_step (columns d) d) as [d1|e1] eqn:Hfold; cbn [bind];
    [discriminate|].
  intros [= <-]. revert Hfold. generalize d at 2. generalize (columns d) as l.
  induction l as [|col l IH]; intros d0; cbn [foldM]; [discriminate|].
  destruct (numeric_step d0 col) as [d2|e2] eqn:Hstep; cbn [bind].
  - apply IH.
  - intros [= <-]. eapply numeric_step_raises; eauto.
Qed.

Lemma rename_keeps_label (c k : string) :
  k <> "old_column_name" -> k <> "new_column_name" ->
  (match lookup c column_mapping with Some c' => c' | None => c end =? k)%string
  = (c =? k)%string.
Proof.
  intros Hold Hnew. unfold column_mapping. cbn [lookup].
  destruct (String.eqb_spec "old_column_name" c) as [<-|Hne]; [|reflexivity].
  destruct (String.eqb_spec "new_column_name" k); [congruence|].
  destruct (String.eqb_spec "old_column_name" k); [congruence|reflexivity].
Qed.

(** X17. A date column that reaches the payload cannot be written:
    on a batch without [amount] and [status] columns that has a column
    with [date] in its name and at least one row without a missing
    value, [transform_data] raises [TypeError] (the column has become
    timestamps, which [json.dumps] refuses). *)
Theorem transform_rejects_date_columns (now : Timestamp) (table_name : string)
  (batch : DataFrame) (c : string) (r : list Value) :
  In c (columns batch) ->
  str_contains "date" c = true ->
  has_column batch "amount" = false ->
  has_column batch "status" = false ->
  In r (rows batch) ->
  row_complete batch r = true ->
  exists msg,
    call (fun df => transform_data now df table_name) batch = Raise (TypeError msg).
Proof.
  intros Hc Hdate Hamount Hstatus Hr Hcomplete.
  rewrite (call_spec _ _ (transform_data_spec now table_name)).
  unfold transform_c. cbn [clean_c bind].
  (* cleaning keeps the complete row *)
  assert (H1 : len (dropna batch) <> O).
  { unfold len. cbn [rows dropna].
    assert (Hin : In r (filter (row_complete batch) (rows batch)))
      by (apply filter_In; auto).
    destruct (filter _ _); [contradiction|discriminate]. }
  destruct (normalize_c_normal (dropna batch)) as (d2 & Hd2 & Hn2).
  rewrite Hd2. cbn [bind].
  pose proof (normal_rows_len _ _ Hn2) as Hl2. destruct Hn2 as [Hc2 _].
  cbn [columns dropna] in Hc2.
  assert (Hcols : forall k, has_column d2 k = has_column batch k)
    by (intros k; unfold has_column; now rewrite Hc2).
  unfold aggregate_c. rewrite !Hcols, Hamount, andb_false_r. cbn [bind].
  unfold filter_c. rewrite Hcols, Hstatus. cbn [bind].
  destruct (convert_c d2) as [d5|e] eqn:H5; cbn [bind].
  2:{ destruct (convert_c_raises _ _ H5) as [msg ->]. eauto. }
  pose proof (convert_c_shape _ _ H5) as [Hc5 Hl5].
  assert (Ht5 : times_at d5 c).
  { unfold convert_c in H5.
    destruct (foldM numeric_step (columns d2) d2) as [d4|?] eqn:Hfold; [|discriminate].
    cbn [bind] in H5. injection H5 as <-.
    apply fold_date_step_times; [exact Hdate|]. left.
    destruct (foldM_numeric_shape _ _ _ (incl_refl _) Hfold) as [-> _].
    now rewrite Hc2. }
  unfold dedupe_c, map_c. cbn [bind].
  set (d7 := rename column_mapping (drop_duplicates d5)).
  assert (Hold : c <> "old_column_name") by (intros ->; discriminate Hdate).
  assert (Hnew : c <> "new_column_name") by (intros ->; discriminate Hdate).
  assert (Hidx : forall k, k <> "old_column_name" -> k <> "new_column_name" ->
            col_index k (columns d7) = col_index k (columns d5)).
  { intros k Hk1 Hk2. cbn [columns d7 rename drop_duplicates].
    apply col_index_map. intros c0. now apply rename_keeps_label. }
  assert (H7 : has_column d7 "amount" = false).
  { unfold has_column. rewrite Hidx by discriminate. rewrite Hc5.
    fold (has_column d2 "amount"). now rewrite Hcols. }
  unfold validate_c. rewrite H7. cbn [bind].
  (* the first row of what is left has a time under [c] *)
  assert (Hrows7 : rows d7 <> []).
  { cbn [rows d7 rename drop_duplicates]. unfold distinct.
    assert (Hne : rows d5 <> [])
      by (intros Hnil; unfold len in *; rewrite Hnil in Hl5; cbn in Hl5; lia).
    destruct (rows d5) as [|x xs]; [congruence|]. cbn. discriminate. }
  destruct (rows d7) as [|r7 rs7] eqn:Hr7; [congruence|].
  assert (Hin7 : In r7 (rows d5)).
  { assert (Hin : In r7 (rows d7)) by (rewrite Hr7; now left).
    cbn [rows d7 rename drop_duplicates] in Hin.
    eapply distinct_from_In; eauto. }
  assert (Htime : is_time (cell d7 c r7) = true).
  { unfold cell. rewrite Hidx by assumption. apply (Ht5 r7 Hin7). }
  assert (Hc7 : In c (columns d7)).
  { apply has_column_In. unfold has_column. rewrite Hidx by assumption.
    rewrite Hc5, Hc2. apply has_column_In in Hc. exact Hc. }
  unfold stamp_c. rewrite Hr7. cbn [mapM].
  destruct (payload d7 r7) as [p|e] eqn:Hp; cbn [bind].
  - rewrite (payload_no_time d7 r7 p c Hp Hc7) in Htime. discriminate.
  - destruct (payload_raises _ _ _ Hp) as [msg ->]. eauto.
Qed.

End DateColumns.

Lemma transform_rejects_date_columns_witness :
  exists msg,
    call (fun df => transform_data 0 df "events") events_batch = Raise (TypeError msg).
Proof.
  apply (transform_rejects_date_columns 0 "events" events_batch "update_date"
           [VInt 1; VStr "05/01/2024"]).
  - cbn; auto.
  - reflexivity.
  - reflexivity.
  - reflexivity.
  - cbn; auto.
  - reflexivity.
Defined.

(* ---------- Loading ---------- *)





(* ---------- Extraction with an empty batch size ---------- *)

Section ZeroBatch.
Context `{DateLib}.

Lemma find_table_listed (name : string) (tables : list (string * DataFrame)) :
  In name (map fst tables) -> exists t, find_table name tables = Some t.
Proof.
  induction tables as [|[n t] tables IH]; cbn [map fst In find_table]; [contradiction|].
  intros [->|Hin].
  - rewrite String.eqb_refl. eauto.
  - destruct (n =? name)%string; eauto.
Qed.

(** Two readings of the same fetch agree. *)
Ltac same_fetch :=
  match goal with
  | Hq : fetchmany ?n ?c ?w = ?a, Hf : fetchmany ?n ?c ?w = ?b |- _ =>
      tryif constr_eq a b then fail
      else (let Hab := fresh "Hab" in
            assert (Hab : a = b) by (rewrite <- Hq; exact Hf);
            clear Hf; try discriminate Hab)
  end.

(** The loop over the batches, unfolded once. *)
Lemma batches_loop_done (table_name : string) (c : Cursor) (w : World)
  (cx : Cursor) (wx : World) :
  fetchmany (batch_size w) c w = (Ok ([], cx), wx) ->
  batches_loop table_name c w = (Ok tt, wx).
Proof.
  funelim (batches_loop table_name c w); intros Hf; same_fetch.
  now injection Hab as _ <-.
Qed.


(** X19. With [BATCH_SIZE = 0] the first fetch returns no row, which the
    generator takes for the end of the table: a table of the source is
    extracted as nothing, nothing is loaded for it, and no error is
    reported. *)
Theorem zero_batch_size_loads_nothing (table_name : string) (w : World) :
  batch_size w = O ->
  In table_name (map fst (source_tables w)) ->
  faults w (ops w) = false ->
  faults w (S (ops w)) = false ->
  exists w',
    process_table table_name w = (Ok tt, w')
    /\ sink_rows w' = sink_rows w
    /\ ops w' = S (S (ops w)).
Proof.
  intros Hsize Hin Hf1 Hf2.
  destruct (find_table_listed _ _ Hin) as [t Ht].
  unfold process_table, execute_select, attempt. wsimp. rewrite Hf1. wsimp.
  rewrite Ht.
  eexists. split.
  - eapply batches_loop_done. unfold fetchmany, attempt. wsimp.
    rewrite Hf2, Hsize. reflexivity.
  - wsimp. auto.
Qed.

End ZeroBatch.

Lemma zero_batch_size_loads_nothing_witness :
  exists w',
    process_table "orders" zero_batch_world = (Ok tt, w') /\ sink_rows w' = [].
Proof.
  destruct (zero_batch_size_loads_nothing "orders" zero_batch_world eq_refl)
    as (w' & Hrun & Hrows & _).
  - cbn. auto.
  - reflexivity.
  - reflexivity.
  - exists w'. split; assumption.
Defined.

(* ---------- A table is loaded batch by batch ---------- *)




Lemma no_faults_later (w w' : World) :
  no_faults w -> faults w' = faults w -> (ops w <= ops w')%nat -> no_faults w'.
Proof. intros Hw Hf Ho k Hk. rewrite Hf. apply Hw. lia. Qed.

Section Batches.
Context `{DateLib}.



End Batches.


(* ---------- What a run does to the sink and to the log ---------- *)

Lemma appends_weaken {A} (P Q : SinkRow -> Prop) (a : Action World A) :
  (forall row, P row -> Q row) -> appends P a -> appends Q a.
Proof.
  intros HPQ Ha w res w' Hrun. destruct (Ha w res w' Hrun) as [Hc (added & Hr & Hall)].
  split; [exact Hc|]. exists added. split; [exact Hr|].
  eapply Forall_impl; eauto.
Qed.

Section Sink.
Context `{DateLib}.

Lemma transformed_rows_text (now : Timestamp) (table_name : string)
  (batch_df transformed_df : DataFrame) (tuples : list SinkRow) :
  call (fun df => transformed_df <- transform_data now df table_name ;;
                  remove_duplicates transformed_df) batch_df = Ok transformed_df ->
  mapM as_tuple (rows transformed_df) = Ok tuples ->
  Forall (row_of_tables [table_name]) tuples.
Proof.
  intros Hcall Hm. pose proof (transformed_rows _ _ _ _ Hcall) as Hrows.
  apply mapM_Forall2 in Hm.
  induction Hm as [|r t rs ts Hrt _ IH]; constructor.
  - destruct (Hrows r (or_introl eq_refl)) as (p & d & ->).
    injection Hrt as <-. exists table_name, p. cbn. auto.
  - apply IH. intros r' Hr'. apply Hrows. now right.
Qed.

Lemma process_batch_rows table_name batch_df :
  appends (row_of_tables [table_name]) (process_batch table_name batch_df).
Proof.
  intros w res w' Hrun. unfold process_batch in Hrun.
  destruct (call _ batch_df) as [transformed_df|e] eqn:Hcall.
  - destruct (load_appends _ _ _ _ Hrun) as [Hconn [Hrows|(t & Ht & _ & Hrows)]].
    + now apply appends_nothing.
    + split; [exact Hconn|]. exists t. split; [exact Hrows|].
      eapply transformed_rows_text; eauto.
  - injection Hrun as <- <-. now apply appends_nothing.
Qed.

Lemma batches_loop_rows table_name c :
  appends (row_of_tables [table_name]) (batches_loop table_name c).
Proof.
  intros w. funelim (batches_loop table_name c w); intros res w' Hrun;
    match goal with
    | Hf : fetchmany _ _ _ = _ |- _ =>
        pose proof (fetchmany_appends (row_of_tables [table_name]) _ _ _ _ _ Hf)
          as Hfetched
    end.
  all: try match goal with
    | Hp : process_batch _ _ _ = _ |- _ =>
        pose proof (process_batch_rows _ _ _ _ _ Hp) as Hbatch
    end.
  - injection Hrun as <- <-. exact Hfetched.
  - injection Hrun as <- <-. exact Hfetched.
  - eapply appends_trans; [eapply appends_trans; eassumption|]. eauto.
  - injection Hrun as <- <-. eapply appends_trans; eassumption.
Qed.

Lemma process_table_rows table_name :
  appends (row_of_tables [table_name]) (process_table table_name).
Proof.
  intros w res w' Hrun. unfold process_table in Hrun.
  destruct (execute_select _ _) as [[c|e] w1] eqn:Hex.
  - pose proof (execute_select_appends (row_of_tables [table_name]) _ _ _ _ Hex).
    pose proof (batches_loop_rows _ _ _ _ _ Hrun).
    eapply appends_trans; eassumption.
  - injection Hrun as <- <-.
    exact (execute_select_appends (row_of_tables [table_name]) _ _ _ _ Hex).
Qed.

Lemma row_of_tables_incl (l l' : list string) (row : SinkRow) :
  incl l l' -> row_of_tables l row -> row_of_tables l' row.
Proof. intros Hincl (t & p & Hin & Ht & Hp). exists t, p. auto. Qed.

Lemma tables_loop_rows (tables : list string) :
  appends (row_of_tables tables) (tables_loop tables).
Proof.
  induction tables as [|table_name tables IH]; intros w res w' Hrun;
    cbn [tables_loop] in Hrun.
  - injection Hrun as <- <-. now apply appends_nothing.
  - assert (IH' : appends (row_of_tables (table_name :: tables)) (tables_loop tables)).
    { eapply appends_weaken; [|exact IH]. intros row.
      apply row_of_tables_incl. intros x Hx. now right. }
    destruct (check_existing_records "grupox" table_name w) as [[b|e] w1] eqn:Hcheck;
      pose proof (check_appends (row_of_tables (table_name :: tables)) _ _ _ _ _ Hcheck)
        as H1.
    2:{ now injection Hrun as <- <-. }
    destruct b.
    + apply IH' in Hrun. eapply appends_trans; [exact H1|exact Hrun].
    + assert (Hp : appends (row_of_tables (table_name :: tables))
                     (process_table table_name)).
      { eapply appends_weaken; [|apply process_table_rows]. intros row.
        apply row_of_tables_incl. intros x [<-|[]]. now left. }
      destruct (process_table table_name w1) as [[[]|e] w2] eqn:Hproc;
        pose proof (Hp _ _ _ Hproc) as H2.
      * apply IH' in Hrun. eapply appends_trans; [|exact Hrun].
        eapply appends_trans; eassumption.
      * injection Hrun as <- <-. eapply appends_trans; eassumption.
Qed.

Lemma list_supabase_tables_names w tables w' :
  list_supabase_tables w = (Ok tables, w') -> tables = map fst (source_tables w).
Proof.
  unfold list_supabase_tables. intros Hrun.
  destruct (attempt _ _ _) as [r w1] eqn:Ha.
  destruct (attempt_inv _ _ _ _ _ Ha) as [(_ & -> & ->)|[_ [= <- <-]]];
    [discriminate|].
  now injection Hrun as <- _.
Qed.

Lemma ensure_source_tables w res w' :
  ensure_clickhouse_table w = (res, w') -> source_tables w' = source_tables w.
Proof.
  unfold ensure_clickhouse_table, command. intros Hrun.
  destruct (attempt _ _ _) as [r w1] eqn:Ha.
  destruct (attempt_inv _ _ _ _ _ Ha) as [(_ & -> & ->)|[_ [= <- <-]]];
    injection Hrun as <- <-; reflexivity.
Qed.

Lemma etl_body_rows w res w' :
  etl_body w = (res, w') ->
  exists added,
    sink_rows w' = (sink_rows w ++ added)%list
    /\ Forall (row_of_tables (map fst (source_tables w))) added.
Proof.
  unfold etl_body. intros Hrun.
  set (P := row_of_tables (map fst (source_tables w))).
  destruct (ensure_clickhouse_table w) as [[[]|e] w1] eqn:H1;
    pose proof (ensure_appends P _ _ _ H1) as A1;
    pose proof (ensure_source_tables _ _ _ H1) as S1.
  2:{ injection Hrun as <- <-. exact (proj2 A1). }
  destruct (list_supabase_tables w1) as [[tables|e] w2] eqn:H2;
    pose proof (list_tables_appends P _ _ _ H2) as A2.
  2:{ injection Hrun as <- <-. exact (proj2 (appends_trans _ _ _ _ A1 A2)). }
  apply list_supabase_tables_names in H2. rewrite S1 in H2. subst tables.
  destruct (tables_loop _ w2) as [[[]|e] w3] eqn:H3;
    pose proof (tables_loop_rows _ _ _ _ H3) as A3;
    pose proof (appends_trans _ _ _ _ (appends_trans _ _ _ _ A1 A2) A3) as A;
    injection Hrun as <- <-; exact (proj2 A).
Qed.

Lemma connect_to_supabase_tables w :
  source_tables (snd (connect_to_supabase w)) = source_tables w.
Proof.
  apply (retry_loop_preserves (fun w0 => source_tables w0 = source_tables w)); auto.
  intros w0 r w0' Hrun Hw0. unfold connect_to_supabase_body in Hrun.
  destruct (attempt _ _ _) as [r1 w1] eqn:Ha.
  destruct (attempt_inv _ _ _ _ _ Ha) as [(_ & -> & ->)|[_ [= <- <-]]];
    injection Hrun as <- <-; exact Hw0.
Qed.

Lemma connect_to_clickhouse_tables w :
  source_tables (snd (connect_to_clickhouse w)) = source_tables w.
Proof.
  apply (retry_loop_preserves (fun w0 => source_tables w0 = source_tables w)); auto.
  intros w0 r w0' Hrun Hw0. unfold connect_to_clickhouse_body in Hrun.
  destruct (attempt _ _ _) as [r1 w1] eqn:Ha.
  destruct (attempt_inv _ _ _ _ _ Ha) as [(_ & -> & ->)|[_ [= <- <-]]];
    injection Hrun as <- <-; exact Hw0.
Qed.

(** X21. A run only ever appends to the sink: the rows that were there
    stay as they are and in place, whether the run completes or raises,
    and every row it adds carries the name of one of the source tables
    as its tag and text as its payload (for table names that are pasted
    into the statements as they are). *)
Theorem etl_only_appends_tagged_rows (w : World) (res : Result unit) (w' : World) :
  forallb plain_name (map fst (source_tables w)) = true ->
  etl_process w = (res, w') ->
  exists added,
    sink_rows w' = (sink_rows w ++ added)%list
    /\ Forall (row_of_tables (map fst (source_tables w))) added.
Proof.
  unfold etl_process. intros _ Hrun.
  pose proof (connect_to_supabase_sink w) as [Hs1 _].
  pose proof (connect_to_supabase_tables w) as Ht1.
  destruct (connect_to_supabase w) as [[conn|e] w1]; cbn [snd] in Hs1, Ht1.
  2:{ injection Hrun as <- <-. exists []. rewrite app_nil_r. auto. }
  pose proof (connect_to_clickhouse_rows w1) as Hs2.
  pose proof (connect_to_clickhouse_tables w1) as Ht2.
  destruct (connect_to_clickhouse w1) as [[client|e] w2]; cbn [snd] in Hs2, Ht2.
  2:{ injection Hrun as <- <-. exists []. rewrite app_nil_r.
      split; [congruence|constructor]. }
  destruct (etl_body w2) as [result w3] eqn:Hbody.
  injection Hrun as <- <-.
  destruct (etl_body_rows _ _ _ Hbody) as (added & Hr3 & Hall).
  exists added. split.
  - cbn. rewrite Hr3. congruence.
  - now rewrite Ht2, Ht1 in Hall.
Qed.

(** X22. The [finally] block logs the closing line without looking at
    the outcome: in a run that has opened both connections and then
    raises, the last line of the log still says that the process
    finished with success. *)
Theorem success_is_logged_on_failure (w : World) (conn : unit) (w1 : World)
  (client : unit) (w2 : World) (e : exn) (w' : World) :
  connect_to_supabase w = (Ok conn, w1) ->
  connect_to_clickhouse w1 = (Ok client, w2) ->
  etl_process w = (Raise e, w') ->
  last (trace w') (Sleep 0) = LogInfo "Processo ETL concluído com sucesso."
  /\ fst (etl_body w2) = Raise e.
Proof.
  intros H1 H2. unfold etl_process. rewrite H1, H2.
  destruct (etl_body w2) as [result w3]. intros [= -> <-]. split; [|reflexivity].
  unfold etl_finally. cbn [logging_info World_Runtime emit trace]. apply last_last.
Qed.

End Sink.

Lemma etl_only_appends_tagged_rows_witness :
  exists added,
    sink_rows (snd (etl_process quiet_world)) = added
    /\ Forall (row_of_tables ["orders"; "people"]) added.
Proof.
  destruct (etl_only_appends_tagged_rows quiet_world
              (fst (etl_process quiet_world)) (snd (etl_process quiet_world)))
    as (added & Hrows & Hall).
  - reflexivity.
  - now destruct (etl_process quiet_world).
  - exists added. split; [exact Hrows|exact Hall].
Defined.

Lemma success_is_logged_on_failure_witness :
  exists w',
    etl_process faulty_world = (Raise (DatabaseError "cursor.execute"), w')
    /\ last (trace w') (Sleep 0) = LogInfo "Processo ETL concluído com sucesso.".
Proof.
  destruct (etl_process faulty_world) as [res w'] eqn:Hrun.
  assert (Hres : res = Raise (DatabaseError "cursor.execute")).
  { apply (f_equal fst) in Hrun. cbn [fst] in Hrun. rewrite <- Hrun.
    vm_compute. reflexivity. }
  subst res. exists w'. split; [reflexivity|].
  exact (proj1 (success_is_logged_on_failure faulty_world tt
                  (snd (connect_to_supabase faulty_world)) tt
                  (snd (connect_to_clickhouse (snd (connect_to_supabase faulty_world))))
                  _ w' eq_refl eq_refl Hrun)).
Defined.

(* ---------- Cleaning, once more ---------- *)

Lemma row_complete_iff (d : DataFrame) (r : list Value) :
  row_complete d r = true
  <-> forall c, In c (columns d) -> isna (cell d c r) = false.
Proof.
  unfold row_complete. rewrite forallb_forall. split; intros Hall c Hc.
  - specialize (Hall c Hc). now destruct (isna (cell d c r)).
  - now rewrite Hall.
Qed.

Lemma filter_all {A} (p : A -> bool) (l : list A) :
  (forall x, In x l -> p x = true) -> filter p l = l.
Proof.
  induction l as [|x l IH]; intros Hall; [reflexivity|]. cbn [filter].
  rewrite (Hall x (or_introl eq_refl)). f_equal. apply IH.
  intros y Hy. apply Hall. now right.
Qed.

(** X23. [clean_data] never raises and keeps the labels; the rows it
    keeps are exactly the rows without a missing value; a batch without
    missing values comes back as it is. *)
Theorem clean_data_drops_only_gappy_rows (d : DataFrame) :
  exists out,
    call clean_data d = Ok out
    /\ columns out = columns d
    /\ (forall r, In r (rows out)
          <-> (In r (rows d)
               /\ forall c, In c (columns d) -> isna (cell d c r) = false))
    /\ (complete d -> out = d).
Proof.
  exists (dropna d). rewrite (call_spec _ _ clean_data_spec).
  split; [reflexivity|]. split; [reflexivity|]. split.
  - intros r. cbn [rows dropna]. rewrite filter_In, row_complete_iff. tauto.
  - intros Hd. destruct d as [cols rs]. unfold dropna. cbn [columns rows]. f_equal.
    apply filter_all. intros r Hr. apply row_complete_iff. intros c Hc.
    now apply Hd.
Qed.

(* ---------- The characters of a payload ---------- *)

Lemma printable_app (a b : string) :
  printable_ascii (a ++ b) = (printable_ascii a && printable_ascii b)%bool.
Proof.
  induction a as [|c a IH]; [reflexivity|]. cbn [append printable_ascii].
  rewrite IH. now rewrite andb_assoc.
Qed.

Lemma printable_encode_char (c : ascii) : printable_ascii (Json.encode_char c) = true.
Proof. destruct c as [[] [] [] [] [] [] [] []]; reflexivity. Qed.

Lemma printable_encode_string (s : string) :
  printable_ascii (Json.encode_string s) = true.
Proof.
  unfold Json.encode_string. cbn [printable_ascii].
  change (printable_ascii (Json.encode_body s ++ String dquote "") = true).
  rewrite printable_app. cbn. rewrite andb_true_r.
  induction s as [|c s IH]; [reflexivity|]. cbn [Json.encode_body].
  now rewrite printable_app, printable_encode_char, IH.
Qed.

Lemma printable_digits (ds : list digit) : printable_ascii (str_digits ds) = true.
Proof.
  induction ds as [|d ds IH]; [reflexivity|]. cbn [str_digits printable_ascii].
  rewrite IH. now destruct d.
Qed.

Lemma printable_dumps_value (v : Value) (sv : string) :
  Json.dumps_value v = Ok sv -> printable_ascii sv = true.
Proof.
  destruct v as [|n|x|s|[t|]]; cbn [Json.dumps_value]; try discriminate;
    intros [= <-].
  - reflexivity.
  - unfold str_int. rewrite printable_app, printable_digits.
    now destruct (n <? 0).
  - unfold Num.repr_float. rewrite !printable_app, !printable_digits.
    now destruct (fneg x).
  - apply printable_encode_string.
Qed.

Lemma printable_dumps_items (d : dict Value) (items : list string) :
  Json.dumps_items d = Ok items -> printable_ascii (str_join ", " items) = true.
Proof.
  revert items. induction d as [|[k v] d IH]; intros items; cbn [Json.dumps_items].
  - now intros [= <-].
  - destruct (Json.dumps_value v) as [sv|e] eqn:Hv; cbn [bind]; [|discriminate].
    destruct (Json.dumps_items d) as [rest|e]; cbn [bind]; [|discriminate].
    intros [= <-].
    assert (Hitem : printable_ascii (Json.encode_string k ++ ": " ++ sv) = true).
    { rewrite !printable_app, printable_encode_string, (printable_dumps_value _ _ Hv).
      reflexivity. }
    specialize (IH rest eq_refl).
    destruct rest as [|item rest]; cbn [str_join]; [exact Hitem|].
    cbn [str_join] in IH.
    rewrite (printable_app (Json.encode_string k ++ ": " ++ sv)), Hitem.
    rewrite (printable_app ", "). cbn [andb]. exact IH.
Qed.

Lemma printable_replace (s : string) :
  printable_ascii s = true ->
  printable_ascii
    (str_replace1 squote (String backslash (String squote EmptyString)) s) = true.
Proof.
  induction s as [|c s IH]; [reflexivity|]. cbn [printable_ascii str_replace1].
  intros Hs. apply andb_prop in Hs. destruct Hs as [Hc Hs].
  destruct (c =? squote)%char; cbn [append printable_ascii]; rewrite (IH Hs).
  - reflexivity.
  - now rewrite Hc.
Qed.

(** X24. The payload is plain printable ASCII: whatever text the row
    holds, every character of [json.dumps(...)] with its default
    [ensure_ascii], and of the payload made from it, lies between the
    space and the tilde; other characters are written as escapes. *)
Theorem payload_is_printable_ascii (d : DataFrame) (x : list Value) (p : string) :
  payload d x = Ok (VStr p) -> printable_ascii p = true.
Proof.
  unfold payload, Json.dumps.
  destruct (Json.dumps_items (to_dict d x)) as [items|e] eqn:Hitems; cbn [bind];
    [|discriminate].
  intros [= <-]. apply printable_replace.
  change (printable_ascii (String "{" (str_join ", " items ++ "}")) = true).
  cbn [printable_ascii]. rewrite printable_app, (printable_dumps_items _ _ Hitems).
  reflexivity.
Qed.

Lemma payload_is_printable_ascii_witness :
  exists p,
    payload accents_batch
      [VStr ("Jos" ++ String "233"%char ""); VStr ("it's" ++ String "010"%char "ok")]
    = Ok (VStr p)
    /\ printable_ascii p = true.
Proof.
  eexists. split; [reflexivity|].
  apply (payload_is_printable_ascii accents_batch
           [VStr ("Jos" ++ String "233"%char ""); VStr ("it's" ++ String "010"%char "ok")]).
  reflexivity.
Defined.

(* ---------- No fault is swallowed inside the [try] block ---------- *)

Lemma honest_attempt {A} (what : string) (ok : Action World A) :
  (forall w res w', ok w = (res, w') -> faults w' = faults w /\ ops w' = ops w) ->
  honest (attempt what ok).
Proof.
  intros Hok w res w' Hrun.
  destruct (attempt_inv _ _ _ _ _ Hrun) as [(Hf & -> & ->)|[Hf Hrun']].
  - wsimp. repeat split; [lia|]. intros x [=].
  - destruct (Hok _ _ _ Hrun') as [Hfa Ho]. wsimp. rewrite Hfa, Ho.
    repeat split; [lia|]. intros x _ k Hk. wsimp.
    assert (k = ops w) by lia. now subst k.
Qed.

Lemma honest_log {A} (a : Action World A) (line : string) :
  honest a -> honest (fun w => a (logging_info line w)).
Proof.
  intros Ha w res w' Hrun. destruct (Ha _ _ _ Hrun) as (Hf & Ho & Hfree).
  wsimp. repeat split; auto.
Qed.

Lemma fault_free_trans (w w1 w2 : World) :
  faults w1 = faults w -> (ops w <= ops w1)%nat ->
  fault_free w w1 -> fault_free w1 w2 -> fault_free w w2.
Proof.
  intros Hf Ho H1 H2 k Hk. destruct (Nat.lt_ge_cases k (ops w1)) as [Hlt|Hge].
  - apply H1. lia.
  - rewrite <- Hf. apply H2. lia.
Qed.

Lemma fault_free_refl (w w' : World) : ops w' = ops w -> fault_free w w'.
Proof. intros Ho k Hk. lia. Qed.

Ltac honest_done Hfree :=
  wsimp; repeat split; auto;
  solve [ intros ? [=] | intros ? _; apply (Hfree _ eq_refl) ].

Lemma honest_command (q : Query) : honest (command q).
Proof.
  unfold command. apply honest_attempt. intros w res w' Hrun.
  destruct q.
  - now injection Hrun as <- <-.
  - destruct (table_name =? "grupox")%string; now injection Hrun as <- <-.
  - now injection Hrun as <- <-.
Qed.

Lemma honest_ensure : honest ensure_clickhouse_table.
Proof.
  intros w res w' Hrun. unfold ensure_clickhouse_table in Hrun.
  destruct (command CreateTableIfNotExists w) as [r w1] eqn:Hc.
  destruct (honest_command _ _ _ _ Hc) as (Hf & Ho & Hfree).
  destruct r; injection Hrun as <- <-; honest_done Hfree.
Qed.

Lemma honest_check table_name tag : honest (check_existing_records table_name tag).
Proof.
  intros w res w' Hrun. unfold check_existing_records in Hrun.
  destruct (command _ _) as [r w1] eqn:Hc.
  destruct (honest_command _ _ _ _ Hc) as (Hf & Ho & Hfree). wsimp.
  destruct r; injection Hrun as <- <-; honest_done Hfree.
Qed.

Lemma honest_list : honest list_supabase_tables.
Proof.
  intros w res w' Hrun. unfold list_supabase_tables in Hrun.
  destruct (attempt _ _ _) as [r w1] eqn:Ha.
  destruct (honest_attempt _ _ (fun w0 res0 w0' (H0 : (Ok (map fst (source_tables w0)), w0) = (res0, w0')) =>
              ltac:(injection H0 as <- <-; split; reflexivity)) _ _ _ Ha)
    as (Hf & Ho & Hfree). wsimp.
  destruct r; injection Hrun as <- <-; honest_done Hfree.
Qed.

Lemma honest_execute_select table_name : honest (execute_select table_name).
Proof.
  unfold execute_select. apply honest_attempt. intros w res w' Hrun.
  destruct (find_table _ _); now injection Hrun as <- <-.
Qed.

Lemma honest_fetchmany size c : honest (fetchmany size c).
Proof.
  unfold fetchmany. apply honest_attempt. intros w res w' Hrun.
  now injection Hrun as <- <-.
Qed.

Lemma honest_load (df : DataFrame) : honest (load_data_to_ClickHouse df).
Proof.
  intros w res w' Hrun. unfold load_data_to_ClickHouse in Hrun.
  destruct (mapM as_tuple (rows df)) as [tuples|e].
  - destruct (command _ _) as [r w1] eqn:Hc.
    destruct (honest_command _ _ _ _ Hc) as (Hf & Ho & Hfree). wsimp.
    destruct r; injection Hrun as <- <-; honest_done Hfree.
  - injection Hrun as <- <-. wsimp. repeat split; auto; intros x [=].
Qed.

Section Honest.
Context `{DateLib}.

Lemma honest_process_batch table_name batch_df :
  honest (process_batch table_name batch_df).
Proof.
  intros w res w' Hrun. unfold process_batch in Hrun.
  destruct (call _ batch_df) as [transformed_df|e].
  - exact (honest_load _ _ _ _ Hrun).
  - injection Hrun as <- <-. repeat split; auto; intros x [=].
Qed.

Lemma honest_seq (w w1 w2 : World) :
  (faults w1 = faults w /\ (ops w <= ops w1)%nat /\ fault_free w w1) ->
  (faults w2 = faults w1 /\ (ops w1 <= ops w2)%nat /\ fault_free w1 w2) ->
  faults w2 = faults w /\ (ops w <= ops w2)%nat /\ fault_free w w2.
Proof.
  intros (Hf1 & Ho1 & H1) (Hf2 & Ho2 & H2). repeat split; [congruence|lia|].
  eapply fault_free_trans; eauto.
Qed.

Lemma honest_batches_loop table_name c : honest (batches_loop table_name c).
Proof.
  intros w. funelim (batches_loop table_name c w); intros res w' Hrun;
    match goal with
    | Hf : fetchmany _ _ _ = _ |- _ =>
        destruct (honest_fetchmany _ _ _ _ _ Hf) as (Hf1 & Ho1 & Hfree1)
    end.
  all: try match goal with
    | Hp : process_batch _ _ _ = _ |- _ =>
        destruct (honest_process_batch _ _ _ _ _ Hp) as (Hf2 & Ho2 & Hfree2)
    end.
  - injection Hrun as <- <-. repeat split; auto.
    intros x _. apply (Hfree1 _ eq_refl).
  - injection Hrun as <- <-. wsimp. repeat split; auto; intros x [=].
  - match goal with IH : forall _ _, batches_loop _ _ _ = _ -> _ |- _ =>
      destruct (IH _ _ Hrun) as (Hf3 & Ho3 & Hfree3) end.
    repeat split; [congruence|lia|]. intros x ->.
    apply (fault_free_trans w w1 w'); [exact Hf1|exact Ho1| |].
    + apply (Hfree1 _ eq_refl).
    + apply (fault_free_trans w1 w2 w'); [exact Hf2|exact Ho2| |].
      * apply (Hfree2 _ eq_refl).
      * apply (Hfree3 _ eq_refl).
  - injection Hrun as <- <-. repeat split; [congruence|lia|intros x [=]].
Qed.

Lemma honest_process_table table_name : honest (process_table table_name).
Proof.
  intros w res w' Hrun. unfold process_table in Hrun.
  destruct (execute_select _ _) as [[c|e] w1] eqn:Hex;
    destruct (honest_execute_select _ _ _ _ Hex) as (Hf1 & Ho1 & Hfree1); wsimp.
  - destruct (honest_batches_loop _ _ _ _ _ Hrun) as (Hf2 & Ho2 & Hfree2).
    repeat split; [congruence|lia|]. intros x ->.
    apply (fault_free_trans w w1 w'); auto.
    + intros k Hk. apply (Hfree1 _ eq_refl k). wsimp. exact Hk.
    + apply (Hfree2 _ eq_refl).
  - injection Hrun as <- <-. wsimp. repeat split; auto; intros x [=].
Qed.

Lemma honest_tables_loop (tables : list string) : honest (tables_loop tables).
Proof.
  induction tables as [|table_name tables IH]; intros w res w' Hrun;
    cbn [tables_loop] in Hrun.
  - injection Hrun as <- <-. repeat split; auto. intros x _ k Hk. lia.
  - destruct (check_existing_records "grupox" table_name w) as [[b|e] w1] eqn:Hcheck;
      destruct (honest_check _ _ _ _ _ Hcheck) as (Hf1 & Ho1 & Hfree1).
    2:{ injection Hrun as <- <-. repeat split; auto; intros x [=]. }
    destruct b.
    + destruct (IH _ _ _ Hrun) as (Hf2 & Ho2 & Hfree2). wsimp.
      repeat split; [congruence|lia|]. intros x ->.
      apply (fault_free_trans w w1 w'); auto.
      * apply (Hfree1 _ eq_refl).
      * intros k Hk. apply (Hfree2 _ eq_refl k). wsimp. exact Hk.
    + destruct (process_table table_name w1) as [[[]|e] w2] eqn:Hproc;
        destruct (honest_process_table _ _ _ _ Hproc) as (Hf2 & Ho2 & Hfree2).
      * destruct (IH _ _ _ Hrun) as (Hf3 & Ho3 & Hfree3).
        repeat split; [congruence|lia|]. intros x ->.
        apply (fault_free_trans w w1 w'); [exact Hf1|exact Ho1| |].
        -- apply (Hfree1 _ eq_refl).
        -- apply (fault_free_trans w1 w2 w'); [exact Hf2|exact Ho2| |].
           ++ apply (Hfree2 _ eq_refl).
           ++ apply (Hfree3 _ eq_refl).
      * injection Hrun as <- <-. repeat split; [congruence|lia|intros x [=]].
Qed.

Lemma honest_etl_body : honest etl_body.
Proof.
  intros w res w' Hrun. unfold etl_body in Hrun.
  destruct (ensure_clickhouse_table w) as [[[]|e] w1] eqn:H1;
    destruct (honest_ensure _ _ _ H1) as (Hf1 & Ho1 & Hfree1).
  2:{ injection Hrun as <- <-. repeat split; auto; intros x [=]. }
  destruct (list_supabase_tables w1) as [[tables|e] w2] eqn:H2;
    destruct (honest_list _ _ _ H2) as (Hf2 & Ho2 & Hfree2).
  2:{ injection Hrun as <- <-. repeat split; [congruence|lia|intros x [=]]. }
  destruct (tables_loop tables w2) as [[[]|e] w3] eqn:H3;
    destruct (honest_tables_loop _ _ _ _ H3) as (Hf3 & Ho3 & Hfree3);
    injection Hrun as <- <-; wsimp.
  - repeat split; [congruence|lia|]. intros x _.
    apply (fault_free_trans w w1); [exact Hf1|exact Ho1| |].
    + apply (Hfree1 _ eq_refl).
    + apply (fault_free_trans w1 w2); [exact Hf2|exact Ho2| |].
      * apply (Hfree2 _ eq_refl).
      * intros k Hk. apply (Hfree3 _ eq_refl k). wsimp. exact Hk.
  - repeat split; [congruence|lia|intros x [=]].
Qed.

(** X25. Inside the [try] block no failure is swallowed and nothing is
    retried: when a run returns normally, both connections had been
    established and not one of the database operations attempted after
    that failed.  Only the two connection attempts may absorb faults. *)
Theorem completed_run_met_no_fault (w w' : World) :
  etl_process w = (Ok tt, w') ->
  exists conn w1 client w2,
    connect_to_supabase w = (Ok conn, w1)
    /\ connect_to_clickhouse w1 = (Ok client, w2)
    /\ fault_free w2 w'
    /\ faults w' = faults w2.
Proof.
  unfold etl_process. intros Hrun.
  destruct (connect_to_supabase w) as [[conn|e] w1]; [|discriminate].
  destruct (connect_to_clickhouse w1) as [[client|e] w2] eqn:H2; [|discriminate].
  destruct (etl_body w2) as [result w3] eqn:Hbody.
  injection Hrun as -> <-.
  destruct (honest_etl_body _ _ _ Hbody) as (Hf & Ho & Hfree).
  exists conn, w1, client, w2. split; [reflexivity|]. split; [exact H2|]. split.
  - intros k Hk. apply (Hfree _ eq_refl k). unfold etl_finally in Hk. wsimp. exact Hk.
  - unfold etl_finally. wsimp. exact Hf.
Qed.

End Honest.

Lemma completed_run_met_no_fault_witness :
  exists w2 w',
    etl_process quiet_world = (Ok tt, w')
    /\ fault_free w2 w'
    /\ ops w2 = 2%nat.
Proof.
  destruct (etl_process quiet_world) as [res w'] eqn:Hrun.
  assert (Hres : res = Ok tt).
  { apply (f_equal fst) in Hrun. cbn [fst] in Hrun. rewrite <- Hrun.
    vm_compute. reflexivity. }
  subst res.
  destruct (completed_run_met_no_fault quiet_world w' Hrun)
    as (conn & w1 & client & w2 & H1 & H2 & Hfree & _).
  exists w2, w'. split; [reflexivity|]. split; [exact Hfree|].
  vm_compute in H1. injection H1 as _ <-.
  vm_compute in H2. injection H2 as _ <-.
  reflexivity.
Defined.

(* ---------- The imports of etl_process.py ---------- *)

